(** * ImportAUP: the legacy .aup project importer

    A shallow embedding of [src/import/ImportAUP.cpp]
    (class [AUPImportFileHandle]) and the properties its specification
    states about it.

    Conventions of the embedding.
    - A [wxString] is a [string]; [wxStrcmp]/[IsSameAs] is [String.eqb],
      [wxStricmp] compares the lower-cased strings.
    - The attribute array [const wxChar **attrs] (name, value, name, value,
      ..., NULL) is a list of pairs.
    - [sampleCount], [long] and [long long] values are [Z]; where the code
      adds two of them ([mTotalSamples += len], [processed += fi.len]) the
      sum is cut down to 64 bits, as a cast to [int] is to 32.
    - A [double] is its IEEE-754 binary64 bit pattern, a 64-bit [Z]; a
      [float] or integer sample is the [Z] held by its buffer cell.
    - Pointers to tracks and clips are indices into an arena of objects;
      a null pointer is [None].
    - A dereference the C++ leaves undefined (a null or dangling handler,
      [back()] of an empty vector, an out-of-bounds read) makes the model
      return [None].
    - Everything the importer calls but does not define (XMLValueChecker,
      wxFileName, libsndfile, the progress dialog, the classes of the
      tracks) is a field of [Externals]. *)

From Stdlib Require Import ZArith Lia Bool Ascii String DecimalString.
From stdpp Require Import base option list strings gmap.

Local Open Scope string_scope.

(** ** Plain data *)

Inductive ProgressResult := Cancelled | Success | Failed | Stopped.

Definition is_Success (r : ProgressResult) : bool :=
  match r with Success => true | _ => false end.

Inductive sampleFormat := int16Sample | int24Sample | floatSample.

Definition sampleFormat_eqb (a b : sampleFormat) : bool :=
  match a, b with
  | int16Sample, int16Sample | int24Sample, int24Sample
  | floatSample, floatSample => true
  | _, _ => false
  end.

Definition Attrs := list (string * string).

(** What the arena holds: the four kinds of track and the wave clips. *)
Inductive ObjKind :=
  LabelTrackK | NoteTrackK | TimeTrackK | WaveTrackK | WaveClipK.

Definition ObjKind_eqb (a b : ObjKind) : bool :=
  match a, b with
  | LabelTrackK, LabelTrackK | NoteTrackK, NoteTrackK
  | TimeTrackK, TimeTrackK | WaveTrackK, WaveTrackK
  | WaveClipK, WaveClipK => true
  | _, _ => false
  end.

(** A run of samples placed in a clip or a track. *)
Inductive run :=
| SilenceRun (n : Z)
| SampleRun (fmt : sampleFormat) (data : list Z).

Definition run_length (r : run) : Z :=
  match r with
  | SilenceRun n => n
  | SampleRun _ data => Z.of_nat (length data)
  end.

(** An object of the arena.  [oxml] is what the object itself was handed
    through its own [HandleXMLTag]; [oenvxml] the same for the envelope it
    owns; [oruns] the sample runs appended to it; [oflushes] counts
    [Flush] calls. *)
Record Object := mkObject {
  okind : ObjKind;
  oowner : option nat;
  oxml : list (string * Attrs);
  oenvxml : list (string * Attrs);
  oendtags : list string;
  oruns : list run;
  oflushes : nat
}.

Definition new_object (k : ObjKind) (owner : option nat) : Object :=
  mkObject k owner [] [] [] [] 0.

(** An [XMLTagHandler *]: an object of the arena, or the envelope one owns. *)
Inductive Handler := ObjH (p : nat) | EnvH (p : nat).

(** [struct node] *)
Record node := mkNode {
  parent : string;
  tag : string;
  handler : option Handler
}.

(** [fileinfo] *)
Record fileinfo := mkFileinfo {
  track : option nat;
  clip : option nat;
  path : string;
  len : Z;
  origin : Z;
  channel : Z
}.

(** [wxFileName]: the directories and the full name. *)
Record wxFileName := mkFileName {
  fn_dirs : list string;
  fn_name : string;
  fn_ext : string
}.

Definition GetName (f : wxFileName) : string := fn_name f.
Definition SetFullName_empty (f : wxFileName) : wxFileName :=
  mkFileName (fn_dirs f) "" "".
Definition AppendDir (d : string) (f : wxFileName) : wxFileName :=
  mkFileName (fn_dirs f ++ [d]) (fn_name f) (fn_ext f).

(** [mProjectAttrs], without and with the two fields of
    EXPERIMENTAL_SPECTRAL_EDITING. *)
Record ProjectAttrs := mkProjectAttrs {
  havevpos : bool; vpos : Z;
  haveh : bool; h : Z;
  havezoom : bool; zoom : Z;
  havesel0 : bool; sel0 : Z;
  havesel1 : bool; sel1 : Z;
  haveselLow : bool; selLow : Z;
  haveselHigh : bool; selHigh : Z;
  haverate : bool; rate : Z;
  havesnapto : bool; snapto : bool;
  haveselectionformat : bool; selectionformat : string;
  haveaudiotimeformat : bool; audiotimeformat : string;
  havefrequencyformat : bool; frequencyformat : string;
  havebandwidthformat : bool; bandwidthformat : string
}.

Definition no_attrs : ProjectAttrs :=
  mkProjectAttrs false 0 false 0 false 0 false 0 false 0 false 0 false 0
                 false 0 false false false "" false "" false "" false "".


(** The macro [set(f, v)]: [have##f = true, f = v]. *)
Definition set_vpos (v : Z) (a : ProjectAttrs) : ProjectAttrs :=
  mkProjectAttrs true v (haveh a) (h a) (havezoom a) (zoom a) (havesel0 a)
    (sel0 a) (havesel1 a) (sel1 a) (haveselLow a) (selLow a) (haveselHigh a)
    (selHigh a) (haverate a) (rate a) (havesnapto a) (snapto a)
    (haveselectionformat a) (selectionformat a) (haveaudiotimeformat a)
    (audiotimeformat a) (havefrequencyformat a) (frequencyformat a)
    (havebandwidthformat a) (bandwidthformat a).

Definition set_h (v : Z) (a : ProjectAttrs) : ProjectAttrs :=
  mkProjectAttrs (havevpos a) (vpos a) true v (havezoom a) (zoom a)
    (havesel0 a) (sel0 a) (havesel1 a) (sel1 a) (haveselLow a) (selLow a)
    (haveselHigh a) (selHigh a) (haverate a) (rate a) (havesnapto a)
    (snapto a) (haveselectionformat a) (selectionformat a)
    (haveaudiotimeformat a) (audiotimeformat a) (havefrequencyformat a)
    (frequencyformat a) (havebandwidthformat a) (bandwidthformat a).

Definition set_zoom (v : Z) (a : ProjectAttrs) : ProjectAttrs :=
  mkProjectAttrs (havevpos a) (vpos a) (haveh a) (h a) true v (havesel0 a)
    (sel0 a) (havesel1 a) (sel1 a) (haveselLow a) (selLow a) (haveselHigh a)
    (selHigh a) (haverate a) (rate a) (havesnapto a) (snapto a)
    (haveselectionformat a) (selectionformat a) (haveaudiotimeformat a)
    (audiotimeformat a) (havefrequencyformat a) (frequencyformat a)
    (havebandwidthformat a) (bandwidthformat a).

Definition set_sel0 (v : Z) (a : ProjectAttrs) : ProjectAttrs :=
  mkProjectAttrs (havevpos a) (vpos a) (haveh a) (h a) (havezoom a) (zoom a)
    true v (havesel1 a) (sel1 a) (haveselLow a) (selLow a) (haveselHigh a)
    (selHigh a) (haverate a) (rate a) (havesnapto a) (snapto a)
    (haveselectionformat a) (selectionformat a) (haveaudiotimeformat a)
    (audiotimeformat a) (havefrequencyformat a) (frequencyformat a)
    (havebandwidthformat a) (bandwidthformat a).

Definition set_sel1 (v : Z) (a : ProjectAttrs) : ProjectAttrs :=
  mkProjectAttrs (havevpos a) (vpos a) (haveh a) (h a) (havezoom a) (zoom a)
    (havesel0 a) (sel0 a) true v (haveselLow a) (selLow a) (haveselHigh a)
    (selHigh a) (haverate a) (rate a) (havesnapto a) (snapto a)
    (haveselectionformat a) (selectionformat a) (haveaudiotimeformat a)
    (audiotimeformat a) (havefrequencyformat a) (frequencyformat a)
    (havebandwidthformat a) (bandwidthformat a).

Definition set_selLow (v : Z) (a : ProjectAttrs) : ProjectAttrs :=
  mkProjectAttrs (havevpos a) (vpos a) (haveh a) (h a) (havezoom a) (zoom a)
    (havesel0 a) (sel0 a) (havesel1 a) (sel1 a) true v (haveselHigh a)
    (selHigh a) (haverate a) (rate a) (havesnapto a) (snapto a)
    (haveselectionformat a) (selectionformat a) (haveaudiotimeformat a)
    (audiotimeformat a) (havefrequencyformat a) (frequencyformat a)
    (havebandwidthformat a) (bandwidthformat a).

Definition set_selHigh (v : Z) (a : ProjectAttrs) : ProjectAttrs :=
  mkProjectAttrs (havevpos a) (vpos a) (haveh a) (h a) (havezoom a) (zoom a)
    (havesel0 a) (sel0 a) (havesel1 a) (sel1 a) (haveselLow a) (selLow a)
    true v (haverate a) (rate a) (havesnapto a) (snapto a)
    (haveselectionformat a) (selectionformat a) (haveaudiotimeformat a)
    (audiotimeformat a) (havefrequencyformat a) (frequencyformat a)
    (havebandwidthformat a) (bandwidthformat a).

Definition set_rate (v : Z) (a : ProjectAttrs) : ProjectAttrs :=
  mkProjectAttrs (havevpos a) (vpos a) (haveh a) (h a) (havezoom a) (zoom a)
    (havesel0 a) (sel0 a) (havesel1 a) (sel1 a) (haveselLow a) (selLow a)
    (haveselHigh a) (selHigh a) true v (havesnapto a) (snapto a)
    (haveselectionformat a) (selectionformat a) (haveaudiotimeformat a)
    (audiotimeformat a) (havefrequencyformat a) (frequencyformat a)
    (havebandwidthformat a) (bandwidthformat a).

Definition set_snapto (v : bool) (a : ProjectAttrs) : ProjectAttrs :=
  mkProjectAttrs (havevpos a) (vpos a) (haveh a) (h a) (havezoom a) (zoom a)
    (havesel0 a) (sel0 a) (havesel1 a) (sel1 a) (haveselLow a) (selLow a)
    (haveselHigh a) (selHigh a) (haverate a) (rate a) true v
    (haveselectionformat a) (selectionformat a) (haveaudiotimeformat a)
    (audiotimeformat a) (havefrequencyformat a) (frequencyformat a)
    (havebandwidthformat a) (bandwidthformat a).

Definition set_selectionformat (v : string) (a : ProjectAttrs) : ProjectAttrs :=
  mkProjectAttrs (havevpos a) (vpos a) (haveh a) (h a) (havezoom a) (zoom a)
    (havesel0 a) (sel0 a) (havesel1 a) (sel1 a) (haveselLow a) (selLow a)
    (haveselHigh a) (selHigh a) (haverate a) (rate a) (havesnapto a)
    (snapto a) true v (haveaudiotimeformat a) (audiotimeformat a)
    (havefrequencyformat a) (frequencyformat a) (havebandwidthformat a)
    (bandwidthformat a).

Definition set_audiotimeformat (v : string) (a : ProjectAttrs) : ProjectAttrs :=
  mkProjectAttrs (havevpos a) (vpos a) (haveh a) (h a) (havezoom a) (zoom a)
    (havesel0 a) (sel0 a) (havesel1 a) (sel1 a) (haveselLow a) (selLow a)
    (haveselHigh a) (selHigh a) (haverate a) (rate a) (havesnapto a)
    (snapto a) (haveselectionformat a) (selectionformat a) true v
    (havefrequencyformat a) (frequencyformat a) (havebandwidthformat a)
    (bandwidthformat a).

Definition set_frequencyformat (v : string) (a : ProjectAttrs) : ProjectAttrs :=
  mkProjectAttrs (havevpos a) (vpos a) (haveh a) (h a) (havezoom a) (zoom a)
    (havesel0 a) (sel0 a) (havesel1 a) (sel1 a) (haveselLow a) (selLow a)
    (haveselHigh a) (selHigh a) (haverate a) (rate a) (havesnapto a)
    (snapto a) (haveselectionformat a) (selectionformat a)
    (haveaudiotimeformat a) (audiotimeformat a) true v
    (havebandwidthformat a) (bandwidthformat a).

Definition set_bandwidthformat (v : string) (a : ProjectAttrs) : ProjectAttrs :=
  mkProjectAttrs (havevpos a) (vpos a) (haveh a) (h a) (havezoom a) (zoom a)
    (havesel0 a) (sel0 a) (havesel1 a) (sel1 a) (haveselLow a) (selLow a)
    (haveselHigh a) (selHigh a) (haverate a) (rate a) (havesnapto a)
    (snapto a) (haveselectionformat a) (selectionformat a)
    (haveaudiotimeformat a) (audiotimeformat a) (havefrequencyformat a)
    (frequencyformat a) true v.

(** ** The host project *)

Inductive SnapTo := SNAP_OFF | SNAP_NEAREST.

(** The calls [Import] makes on the host's view state, in the order made. *)
Inductive ViewCall :=
| SetRate (r : Z)
| AS_SetSnapTo (v : SnapTo)
| AS_SetSelectionFormat (f : string)
| TT_SetAudioTimeFormat (f : string)
| SSBL_SetFrequencySelectionFormatName (f : string)
| SSBL_SetBandwidthSelectionFormatName (f : string)
| Set_vpos (v : Z)
| Set_h (v : Z)
| SetZoom (v : Z)
| setT0 (v : Z)
| setT1 (v : Z)
| setF0 (v : Z)
| setF1 (v : Z).

(** A track of the host's [TrackList]: one it already had, or one handed
    over by the importer (the arena object, shared). *)
Inductive HostTrack :=
| Existing (k : ObjKind)
| Imported (p : nat).

Record Project := mkProject {
  history_dirty : bool;
  tracks : list HostTrack;
  view_calls : list ViewCall
}.

Definition is_TimeTrack (objs : list Object) (t : HostTrack) : bool :=
  match t with
  | Existing k => ObjKind_eqb k TimeTrackK
  | Imported p =>
      match objs !! p with
      | Some o => ObjKind_eqb (okind o) TimeTrackK
      | None => false
      end
  end.

(** ** Messages *)

Inductive LogEntry :=
| LogError (msg : string)
| LogWarning (msg : string)
| MessageBox (msg : string).

Definition is_warning (e : LogEntry) : bool :=
  match e with LogWarning _ => true | _ => false end.

(** [SF_INFO], as far as [AddSamples] looks at it. *)
Record SF_INFO := mkInfo {
  channels : Z;
  subtype_is_integer : bool;
  subtype_more_than_16_bits : bool
}.

(** ** The collaborators

    What the importer calls and does not define, in the order of the
    fields: the two build macros; the tests of [XMLValueChecker];
    [IsValidSampleFormat] together with the cast to [sampleFormat]; the
    conversions of [wxString] and [Internat] ([None]: the conversion
    failed); [wxFileName] and [wxDir]; the [HandleXMLTag] of the class
    behind a handler ([None] for [Envelope]), asked for its verdict only;
    the clip [RightmostOrNewClip] picks among the clips of a track;
    [NumericConverter::LookupFormat]; [mProgress->Update] at its n-th call;
    [wxFile::Open] and libsndfile, a read being given the file, the
    position and the frames asked for and delivering interleaved items;
    [CopySamples] from float to the format given; and the content of
    memory fresh from the allocator. *)

Record Externals := mkExternals {
  USE_MIDI : bool;
  EXPERIMENTAL_SPECTRAL_EDITING : bool;
  IsGoodString : string -> bool;
  IsGoodInt : string -> bool;
  IsGoodInt64 : string -> bool;
  IsGoodFileString : string -> bool;
  IsGoodPathName : string -> bool;
  IsGoodFileName : string -> list string -> bool;
  IsGoodPathString : string -> bool;
  IsValidSampleFormat : Z -> option sampleFormat;
  ToLong : string -> option Z;
  ToLongLong : string -> option Z;
  CompatibleToDouble : string -> option Z;
  DirExists : wxFileName -> bool;
  GetAllFiles : wxFileName -> list string;
  wxFileNameFromPath : string -> string;
  GetFullPath : wxFileName -> string;
  Assign : string -> wxFileName;
  Assign2 : list string -> string -> wxFileName;
  child_HandleXMLTag : option ObjKind -> string -> Attrs -> bool;
  Rightmost : list nat -> nat;
  LookupFormat : string -> string;
  ProgressUpdate : nat -> Z -> Z -> ProgressResult;
  wxFile_Open : string -> bool;
  sf_open_fd : string -> option SF_INFO;
  sf_seek : string -> Z -> Z;
  sf_readf_short : string -> Z -> Z -> list Z;
  sf_readf_int : string -> Z -> Z -> list Z;
  sf_readf_float : string -> Z -> Z -> list Z;
  CopySamples : sampleFormat -> list Z -> list Z;
  uninitialised : nat -> Z
}.

(** ** The state of an [AUPImportFileHandle]

    The members of the class, the arena [objs] its pointers point into, the
    host project [mProject] refers to, and [mLog], the messages it has sent
    to the log and to message boxes (oldest first).  [mHandlers] is the
    vector of nodes with [back()] at the head of the list; [mTags] is the
    list of [SetTag] calls made on the caller's [Tags] (oldest first). *)
#[projections(primitive)]
Record State := mkState {
  mFilename : wxFileName;
  mProject : Project;
  mTags : list (string * string);
  mProjectAttrs : ProjectAttrs;
  mFiles : list fileinfo;
  mTotalSamples : Z;
  mFormat : option sampleFormat;
  mHandlers : list node;
  mParentTag : string;
  mCurrentTag : string;
  mAttrs : Attrs;
  mProjDir : wxFileName;
  mFileMap : gmap string string;
  mTracks : list nat;
  objs : list Object;
  mWaveTrack : option nat;
  mClip : option nat;
  mUpdateResult : ProgressResult;
  mErrorMsg : string;
  mLog : list LogEntry
}.

Definition set_mProject (v : Project) (s : State) : State :=
  mkState (mFilename s) v (mTags s) (mProjectAttrs s) (mFiles s)
    (mTotalSamples s) (mFormat s) (mHandlers s) (mParentTag s)
    (mCurrentTag s) (mAttrs s) (mProjDir s) (mFileMap s) (mTracks s)
    (objs s) (mWaveTrack s) (mClip s) (mUpdateResult s) (mErrorMsg s)
    (mLog s).

Definition set_mTags (v : list (string * string)) (s : State) : State :=
  mkState (mFilename s) (mProject s) v (mProjectAttrs s) (mFiles s)
    (mTotalSamples s) (mFormat s) (mHandlers s) (mParentTag s)
    (mCurrentTag s) (mAttrs s) (mProjDir s) (mFileMap s) (mTracks s)
    (objs s) (mWaveTrack s) (mClip s) (mUpdateResult s) (mErrorMsg s)
    (mLog s).

Definition set_mProjectAttrs (v : ProjectAttrs) (s : State) : State :=
  mkState (mFilename s) (mProject s) (mTags s) v (mFiles s)
    (mTotalSamples s) (mFormat s) (mHandlers s) (mParentTag s)
    (mCurrentTag s) (mAttrs s) (mProjDir s) (mFileMap s) (mTracks s)
    (objs s) (mWaveTrack s) (mClip s) (mUpdateResult s) (mErrorMsg s)
    (mLog s).

Definition set_mFiles (v : list fileinfo) (s : State) : State :=
  mkState (mFilename s) (mProject s) (mTags s) (mProjectAttrs s) v
    (mTotalSamples s) (mFormat s) (mHandlers s) (mParentTag s)
    (mCurrentTag s) (mAttrs s) (mProjDir s) (mFileMap s) (mTracks s)
    (objs s) (mWaveTrack s) (mClip s) (mUpdateResult s) (mErrorMsg s)
    (mLog s).

Definition set_mTotalSamples (v : Z) (s : State) : State :=
  mkState (mFilename s) (mProject s) (mTags s) (mProjectAttrs s) (mFiles s)
    v (mFormat s) (mHandlers s) (mParentTag s) (mCurrentTag s) (mAttrs s)
    (mProjDir s) (mFileMap s) (mTracks s) (objs s) (mWaveTrack s) (mClip s)
    (mUpdateResult s) (mErrorMsg s) (mLog s).

Definition set_mFormat (v : option sampleFormat) (s : State) : State :=
  mkState (mFilename s) (mProject s) (mTags s) (mProjectAttrs s) (mFiles s)
    (mTotalSamples s) v (mHandlers s) (mParentTag s) (mCurrentTag s)
    (mAttrs s) (mProjDir s) (mFileMap s) (mTracks s) (objs s) (mWaveTrack s)
    (mClip s) (mUpdateResult s) (mErrorMsg s) (mLog s).

Definition set_mHandlers (v : list node) (s : State) : State :=
  mkState (mFilename s) (mProject s) (mTags s) (mProjectAttrs s) (mFiles s)
    (mTotalSamples s) (mFormat s) v (mParentTag s) (mCurrentTag s)
    (mAttrs s) (mProjDir s) (mFileMap s) (mTracks s) (objs s) (mWaveTrack s)
    (mClip s) (mUpdateResult s) (mErrorMsg s) (mLog s).

Definition set_mParentTag (v : string) (s : State) : State :=
  mkState (mFilename s) (mProject s) (mTags s) (mProjectAttrs s) (mFiles s)
    (mTotalSamples s) (mFormat s) (mHandlers s) v (mCurrentTag s) (mAttrs s)
    (mProjDir s) (mFileMap s) (mTracks s) (objs s) (mWaveTrack s) (mClip s)
    (mUpdateResult s) (mErrorMsg s) (mLog s).

Definition set_mCurrentTag (v : string) (s : State) : State :=
  mkState (mFilename s) (mProject s) (mTags s) (mProjectAttrs s) (mFiles s)
    (mTotalSamples s) (mFormat s) (mHandlers s) (mParentTag s) v (mAttrs s)
    (mProjDir s) (mFileMap s) (mTracks s) (objs s) (mWaveTrack s) (mClip s)
    (mUpdateResult s) (mErrorMsg s) (mLog s).

Definition set_mAttrs (v : Attrs) (s : State) : State :=
  mkState (mFilename s) (mProject s) (mTags s) (mProjectAttrs s) (mFiles s)
    (mTotalSamples s) (mFormat s) (mHandlers s) (mParentTag s)
    (mCurrentTag s) v (mProjDir s) (mFileMap s) (mTracks s) (objs s)
    (mWaveTrack s) (mClip s) (mUpdateResult s) (mErrorMsg s) (mLog s).

Definition set_mProjDir (v : wxFileName) (s : State) : State :=
  mkState (mFilename s) (mProject s) (mTags s) (mProjectAttrs s) (mFiles s)
    (mTotalSamples s) (mFormat s) (mHandlers s) (mParentTag s)
    (mCurrentTag s) (mAttrs s) v (mFileMap s) (mTracks s) (objs s)
    (mWaveTrack s) (mClip s) (mUpdateResult s) (mErrorMsg s) (mLog s).

Definition set_mFileMap (v : gmap string string) (s : State) : State :=
  mkState (mFilename s) (mProject s) (mTags s) (mProjectAttrs s) (mFiles s)
    (mTotalSamples s) (mFormat s) (mHandlers s) (mParentTag s)
    (mCurrentTag s) (mAttrs s) (mProjDir s) v (mTracks s) (objs s)
    (mWaveTrack s) (mClip s) (mUpdateResult s) (mErrorMsg s) (mLog s).

Definition set_mTracks (v : list nat) (s : State) : State :=
  mkState (mFilename s) (mProject s) (mTags s) (mProjectAttrs s) (mFiles s)
    (mTotalSamples s) (mFormat s) (mHandlers s) (mParentTag s)
    (mCurrentTag s) (mAttrs s) (mProjDir s) (mFileMap s) v (objs s)
    (mWaveTrack s) (mClip s) (mUpdateResult s) (mErrorMsg s) (mLog s).

Definition set_objs (v : list Object) (s : State) : State :=
  mkState (mFilename s) (mProject s) (mTags s) (mProjectAttrs s) (mFiles s)
    (mTotalSamples s) (mFormat s) (mHandlers s) (mParentTag s)
    (mCurrentTag s) (mAttrs s) (mProjDir s) (mFileMap s) (mTracks s) v
    (mWaveTrack s) (mClip s) (mUpdateResult s) (mErrorMsg s) (mLog s).

Definition set_mWaveTrack (v : option nat) (s : State) : State :=
  mkState (mFilename s) (mProject s) (mTags s) (mProjectAttrs s) (mFiles s)
    (mTotalSamples s) (mFormat s) (mHandlers s) (mParentTag s)
    (mCurrentTag s) (mAttrs s) (mProjDir s) (mFileMap s) (mTracks s)
    (objs s) v (mClip s) (mUpdateResult s) (mErrorMsg s) (mLog s).

Definition set_mClip (v : option nat) (s : State) : State :=
  mkState (mFilename s) (mProject s) (mTags s) (mProjectAttrs s) (mFiles s)
    (mTotalSamples s) (mFormat s) (mHandlers s) (mParentTag s)
    (mCurrentTag s) (mAttrs s) (mProjDir s) (mFileMap s) (mTracks s)
    (objs s) (mWaveTrack s) v (mUpdateResult s) (mErrorMsg s) (mLog s).

Definition set_mUpdateResult (v : ProgressResult) (s : State) : State :=
  mkState (mFilename s) (mProject s) (mTags s) (mProjectAttrs s) (mFiles s)
    (mTotalSamples s) (mFormat s) (mHandlers s) (mParentTag s)
    (mCurrentTag s) (mAttrs s) (mProjDir s) (mFileMap s) (mTracks s)
    (objs s) (mWaveTrack s) (mClip s) v (mErrorMsg s) (mLog s).

Definition set_mErrorMsg (v : string) (s : State) : State :=
  mkState (mFilename s) (mProject s) (mTags s) (mProjectAttrs s) (mFiles s)
    (mTotalSamples s) (mFormat s) (mHandlers s) (mParentTag s)
    (mCurrentTag s) (mAttrs s) (mProjDir s) (mFileMap s) (mTracks s)
    (objs s) (mWaveTrack s) (mClip s) (mUpdateResult s) v (mLog s).

Definition set_mLog (v : list LogEntry) (s : State) : State :=
  mkState (mFilename s) (mProject s) (mTags s) (mProjectAttrs s) (mFiles s)
    (mTotalSamples s) (mFormat s) (mHandlers s) (mParentTag s)
    (mCurrentTag s) (mAttrs s) (mProjDir s) (mFileMap s) (mTracks s)
    (objs s) (mWaveTrack s) (mClip s) (mUpdateResult s) (mErrorMsg s) v.

(** ** Strings and numbers *)

Definition lower_ascii (c : ascii) : ascii :=
  let n := nat_of_ascii c in
  if (65 <=? n)%nat && (n <=? 90)%nat then ascii_of_nat (n + 32) else c.

Definition upper_ascii (c : ascii) : ascii :=
  let n := nat_of_ascii c in
  if (97 <=? n)%nat && (n <=? 122)%nat then ascii_of_nat (n - 32) else c.

Fixpoint map_string (f : ascii -> ascii) (s : string) : string :=
  match s with
  | EmptyString => EmptyString
  | String c r => String (f c) (map_string f r)
  end.

(** The pieces of the messages: a line break, a double quote, and a
    number printed as [%lld] prints it. *)
Definition nl : string := String (ascii_of_nat 10) EmptyString.
Definition dq : string := String (ascii_of_nat 34) EmptyString.
Definition show (z : Z) : string := NilZero.string_of_int (Z.to_int z).

(** [wxString::MakeUpper], on ASCII. *)
Definition MakeUpper : string -> string := map_string upper_ascii.

(** [wxStricmp (a, b) == 0], on ASCII. *)
Definition wxStricmp_eq (a b : string) : bool :=
  String.eqb (map_string lower_ascii a) (map_string lower_ascii b).

(** [(int) lValue]: a [long] cut down to 32 bits, two's complement. *)
Definition to_int (l : Z) : Z := ((l + 2 ^ 31) mod 2 ^ 32 - 2 ^ 31)%Z.

(** The value a [sampleCount] holds after [+=]: the sum of two [long long]
    cut down to 64 bits, two's complement. *)
Definition to_int64 (z : Z) : Z := ((z + 2 ^ 63) mod 2 ^ 64 - 2 ^ 63)%Z.

(** [*value]: the first character of a string, nothing for the empty
    string. *)
Definition first_char (v : string) : string :=
  match v with
  | EmptyString => EmptyString
  | String c _ => String c EmptyString
  end.

(** [dValue < 0.0] on the bit pattern of a binary64: the sign bit is set,
    the magnitude is not zero and the value is not a NaN. *)
Definition double_lt0 (b : Z) : bool :=
  let mag := Z.land b (2 ^ 63 - 1) in
  Z.testbit b 63 && negb (mag =? 0)%Z && (mag <=? 0x7FF0000000000000)%Z.

Section Importer.

Variable E : Externals.

(** [IsGoodInt (v) && v.ToLong (&l)] and its 64-bit sibling. *)
Definition good_long (v : string) : option Z :=
  if IsGoodInt E v then ToLong E v else None.

Definition good_longlong (v : string) : option Z :=
  if IsGoodInt64 E v then ToLongLong E v else None.

(** [CompatibleToDouble (v, &d) && !(d < 0.0)] *)
Definition good_double (v : string) : option Z :=
  match CompatibleToDouble E v with
  | Some d => if double_lt0 d then None else Some d
  | None => None
  end.

(** ** Errors and warnings *)

Definition log (e : LogEntry) (s : State) : State :=
  set_mLog (mLog s ++ [e]) s.

Definition keep_first (msg : string) (s : State) : State :=
  if String.eqb (mErrorMsg s) "" then set_mErrorMsg msg s else s.

Definition SetError (msg : string) (s : State) : bool * State :=
  (false, set_mUpdateResult Failed (keep_first msg (log (LogError msg) s))).

Definition SetWarning (msg : string) (s : State) : bool * State :=
  (false, keep_first msg (log (LogWarning msg) s)).

(** ** The arena *)

Definition alloc (k : ObjKind) (owner : option nat) (s : State)
  : nat * State :=
  (length (objs s), set_objs (objs s ++ [new_object k owner]) s).

(** [mTracks.push_back (std::make_shared<T> ())]; [mTracks.back ().get ()] *)
Definition push_track (k : ObjKind) (s : State) : nat * State :=
  let '(p, s) := alloc k None s in
  (p, set_mTracks (mTracks s ++ [p]) s).

Definition kind_of (s : State) (p : nat) : option ObjKind :=
  okind <$> (objs s !! p).

(** The clips a wave track owns, oldest first. *)
Definition clips_of (s : State) (t : nat) : list nat :=
  List.filter (fun p => match objs s !! p with
                   | Some o => ObjKind_eqb (okind o) WaveClipK
                               && bool_decide (oowner o = Some t)
                   | None => false
                   end) (seq 0 (length (objs s))).

(** The outcome of a tag rule: the returned [bool], the [handler] it set
    (null unless set) and the state. *)
Definition Outcome : Type := option (bool * option Handler * State).

Definition accept (hd : option Handler) (s : State) : Outcome :=
  Some (true, hd, s).
Definition reject (s : State) : Outcome := Some (false, None, s).
Definition error (msg : string) (s : State) : Outcome :=
  reject (snd (SetError msg s)).

(** ** HandleProject *)

Definition set_attr (f : ProjectAttrs -> ProjectAttrs) (s : State) : State :=
  set_mProjectAttrs (f (mProjectAttrs s)) s.

(** The [projname] branch: find the data directory and hash its files.
    [false]: no directory was found (the message box was shown). *)
Definition HandleProject_projname (value : string) (s : State)
  : bool * State :=
  let dir0 := SetFullName_empty (mFilename s) in
  let altname := GetName (mFilename s) ++ "-data" in
  let '(projName, dir1) :=
    if negb (String.eqb value "") then
      let d := AppendDir value dir0 in
      if DirExists E d then (value, d) else ("", d)
    else (value, dir0) in
  let '(projName, dir2) :=
    if String.eqb projName "" then
      let d := AppendDir altname dir1 in
      if DirExists E d then (altname, d) else ("", d)
    else (projName, dir1) in
  let s := set_mProjDir dir2 s in
  if String.eqb projName "" then
    (false,
     log (MessageBox ("Couldn't find the project data folder: "
                        ++ dq ++ first_char value ++ dq)) s)
  else
    (true,
     set_mFileMap
       (foldl (fun m fn => <[wxFileNameFromPath E fn := fn]> m)
              (mFileMap s) (GetAllFiles E dir2)) s).

(** One turn of the attribute loop of [HandleProject]:
    [(false, _, s)] when the function returned [false] from inside the
    loop, otherwise the new [requiredTags]. *)
Definition HandleProject_attr (attr value : string) (requiredTags : Z)
  (s : State) : bool * Z * State :=
  let err msg := (false, requiredTags, snd (SetError msg s)) in
  let dbl (f : Z -> ProjectAttrs -> ProjectAttrs) bad :=
    match good_double value with
    | Some d => (true, requiredTags, set_attr (f d) s)
    | None => err ("Invalid project '" ++ bad ++ "' attribute.")
    end in
  if negb (IsGoodString E value) then
    err ("Invalid project '" ++ attr ++ "' attribute.")
  else if String.eqb attr "vpos" then
    match good_long value with
    | Some l =>
        if (l <? 0)%Z then err "Invalid project 'vpos' attribute."
        else (true, requiredTags, set_attr (set_vpos (to_int l)) s)
    | None => err "Invalid project 'vpos' attribute."
    end
  else if String.eqb attr "h" then dbl set_h "h"
  else if String.eqb attr "zoom" then dbl set_zoom "zoom"
  else if String.eqb attr "sel0" then dbl set_sel0 "sel0"
  else if String.eqb attr "sel1" then dbl set_sel1 "sel1"
  else if EXPERIMENTAL_SPECTRAL_EDITING E && String.eqb attr "selLow" then
    dbl set_selLow "selLow"
  else if EXPERIMENTAL_SPECTRAL_EDITING E && String.eqb attr "selHigh" then
    dbl set_selHigh "selHigh"
  else if String.eqb attr "version" then (true, requiredTags + 1, s)%Z
  else if String.eqb attr "audacityversion" then
    (true, requiredTags + 1, s)%Z
  else if String.eqb attr "projname" then
    let '(found, s) := HandleProject_projname value s in
    (found, requiredTags + 1, s)%Z
  else if String.eqb attr "rate" then dbl set_rate "selLow"
  else if String.eqb attr "snapto" then
    (true, requiredTags, set_attr (set_snapto (String.eqb value "on")) s)
  else if String.eqb attr "selectionformat" then
    (true, requiredTags, set_attr (set_selectionformat value) s)
  else if String.eqb attr "audiotimeformat" then
    (true, requiredTags, set_attr (set_audiotimeformat value) s)
  else if String.eqb attr "frequencyformat" then
    (true, requiredTags, set_attr (set_frequencyformat value) s)
  else if String.eqb attr "bandwidthformat" then
    (true, requiredTags, set_attr (set_bandwidthformat value) s)
  else (true, requiredTags, s).

Fixpoint HandleProject_loop (attrs : Attrs) (requiredTags : Z) (s : State)
  : bool * Z * State :=
  match attrs with
  | [] => (true, requiredTags, s)
  | (attr, value) :: rest =>
      let '(go, n, s) := HandleProject_attr attr value requiredTags s in
      if go then HandleProject_loop rest n s else (false, n, s)
  end.

Definition HandleProject (s : State) : Outcome :=
  let '(go, requiredTags, s) := HandleProject_loop (mAttrs s) 0%Z s in
  if negb go then reject s
  else if (requiredTags <? 3)%Z then reject s
  else accept None s.

(** ** The track rules *)

(** The two messages of a track that is passed over. *)
Definition midi_bypassed : string :=
  "MIDI tracks found in project file, but this build of Audacity does "
  ++ "not include MIDI support, bypassing track.".

Definition timetrack_bypassed : string :=
  "The active project already has a time track and one was encountered "
  ++ "in the project being imported, bypassing imported time track.".

(** [mHandlers.back ()]; undefined on an empty vector. *)
Definition back (s : State) : option node := head (mHandlers s).

Definition HandleLabelTrack (s : State) : Outcome :=
  let '(p, s) := push_track LabelTrackK s in
  accept (Some (ObjH p)) s.

Definition HandleNoteTrack (s : State) : Outcome :=
  if USE_MIDI E then
    let '(p, s) := push_track NoteTrackK s in
    accept (Some (ObjH p)) s
  else
    reject (log (MessageBox midi_bypassed) s).

(** The guard looks at the track list of the host project, not at
    [mTracks]. *)
Definition HandleTimeTrack (s : State) : Outcome :=
  if existsb (is_TimeTrack (objs s)) (tracks (mProject s)) then
    accept None (log (MessageBox timetrack_bypassed) s)
  else
    let '(p, s) := push_track TimeTrackK s in
    accept (Some (ObjH p)) s.

Definition HandleWaveTrack (s : State) : Outcome :=
  let '(p, s) := push_track WaveTrackK s in
  accept (Some (ObjH p)) (set_mClip None (set_mWaveTrack (Some p) s)).

(** ** Tags *)

Definition SetTag (n v : string) (s : State) : State :=
  set_mTags (mTags s ++ [(n, v)]) s.

Fixpoint HandleTags_loop (attrs : Attrs) (s : State) : bool * State :=
  match attrs with
  | [] => (true, s)
  | (attr, value) :: rest =>
      if String.eqb value "" then HandleTags_loop rest s
      else if negb (IsGoodString E attr) || negb (IsGoodString E value)
      then (false, s)
      else if String.eqb attr "id3v2" then HandleTags_loop rest s
      else
        let n := if String.eqb attr "track" then "TRACKNUMBER"
                 else MakeUpper attr in
        HandleTags_loop rest (SetTag n value s)
  end.

Definition HandleTags (s : State) : Outcome :=
  let '(ok, s) := HandleTags_loop (mAttrs s) s in
  if ok then accept None s else reject s.

Fixpoint HandleTag_loop (attrs : Attrs) (n v : string) : string * string :=
  match attrs with
  | [] => (n, v)
  | (attr, value) :: rest =>
      if String.eqb attr "" then (n, v)
      else if negb (IsGoodString E attr) || negb (IsGoodString E value)
      then (n, v)
      else if String.eqb attr "name" then HandleTag_loop rest value v
      else if String.eqb attr "value" then HandleTag_loop rest n value
      else HandleTag_loop rest n v
  end.

Definition HandleTag (s : State) : Outcome :=
  if negb (String.eqb (mParentTag s) "tags") then reject s
  else
    let '(n, v) := HandleTag_loop (mAttrs s) "" "" in
    if String.eqb n "id3v2" then accept None s
    else accept None (SetTag n v s).

Definition HandleLabel (s : State) : Outcome :=
  if negb (String.eqb (mParentTag s) "labeltrack") then reject s
  else nd ← back s; accept (handler nd) s.

(** ** Clips, envelopes and control points *)

(** [static_cast<T *> (node.handler)] used as a [T]: the handler must be
    an object of that kind. *)
Definition as_kind (k : ObjKind) (s : State) (hd : option Handler)
  : option nat :=
  match hd with
  | Some (ObjH p) =>
      match kind_of s p with
      | Some k' => if ObjKind_eqb k k' then Some p else None
      | None => None
      end
  | _ => None
  end.

(** [WaveTrack::CreateClip] on a track, [WaveClip::HandleXMLChild] of a
    nested [waveclip] (a cut line) on a clip: a new clip owned by [owner]. *)
Definition new_clip (owner : nat) (s : State) : nat * State :=
  alloc WaveClipK (Some owner) s.

Definition HandleWaveClip (s : State) : Outcome :=
  nd ← back s;
  if String.eqb (mParentTag s) "wavetrack" then
    t ← as_kind WaveTrackK s (handler nd);
    let '(c, s) := new_clip t s in
    accept (Some (ObjH c)) (set_mClip (Some c) s)
  else if String.eqb (mParentTag s) "waveclip" then
    w ← as_kind WaveClipK s (handler nd);
    let '(c, s) := new_clip w s in
    accept (Some (ObjH c)) (set_mClip (Some c) s)
  else accept None (set_mClip None s).

(** [WaveTrack::RightmostOrNewClip] *)
Definition RightmostOrNewClip (t : nat) (s : State) : nat * State :=
  match clips_of s t with
  | [] => new_clip t s
  | cs => (Rightmost E cs, s)
  end.

Definition HandleEnvelope (s : State) : Outcome :=
  nd ← back s;
  if String.eqb (mParentTag s) "timetrack" then
    match handler nd with
    | None => accept None s
    | Some hd =>
        t ← as_kind TimeTrackK s (Some hd);
        accept (Some (EnvH t)) s
    end
  else if String.eqb (mParentTag s) "wavetrack" then
    t ← as_kind WaveTrackK s (ObjH <$> mWaveTrack s);
    let '(c, s) := RightmostOrNewClip t s in
    accept (Some (EnvH c)) s
  else if String.eqb (mParentTag s) "waveclip" then
    c ← as_kind WaveClipK s (handler nd);
    accept (Some (EnvH c)) s
  else accept None s.

(** [Envelope::HandleXMLChild] hands the control point to the envelope. *)
Definition HandleControlPoint (s : State) : Outcome :=
  nd ← back s;
  if String.eqb (mParentTag s) "envelope" then
    match handler nd with
    | None => accept None s
    | Some (EnvH p) => accept (Some (EnvH p)) s
    | Some (ObjH _) => None
    end
  else accept None s.

(** ** Sequences and blocks *)

(** One turn of the attribute loop of [HandleSequence]; [false] when it
    returned through [SetError]. *)
Definition HandleSequence_attr (attr value : string) (s : State)
  : bool * State :=
  if String.eqb attr "maxsamples" then
    match good_longlong value with
    | Some n =>
        if (n <? 0)%Z then
          SetError "Invalid sequence 'maxsamples' attribute." s
        else if (n <? 1024)%Z || (n >? 64 * 1024 * 1024)%Z then
          SetError "Invalid sequence 'maxsamples' attribute." s
        else (true, s)
    | None => SetError "Invalid sequence 'maxsamples' attribute." s
    end
  else if String.eqb attr "sampleformat" then
    match good_long value with
    | Some f =>
        if (f <? 0)%Z then
          SetError "Invalid sequence 'sampleformat' attribute." s
        else
          match IsValidSampleFormat E f with
          | Some fmt => (true, set_mFormat (Some fmt) s)
          | None => SetError "Invalid sequence 'sampleformat' attribute." s
          end
    | None => SetError "Invalid sequence 'sampleformat' attribute." s
    end
  else if String.eqb attr "numsamples" then
    match good_longlong value with
    | Some n =>
        if (n <? 0)%Z then
          SetError "Invalid sequence 'numsamples' attribute." s
        else (true, s)
    | None => SetError "Invalid sequence 'numsamples' attribute." s
    end
  else (true, s).

Fixpoint HandleSequence_loop (attrs : Attrs) (s : State) : bool * State :=
  match attrs with
  | [] => (true, s)
  | (attr, value) :: rest =>
      let '(go, s) := HandleSequence_attr attr value s in
      if go then HandleSequence_loop rest s else (false, s)
  end.

Definition HandleSequence (s : State) : Outcome :=
  _ ← back s;
  let '(ok, s) := HandleSequence_loop (mAttrs s) s in
  if ok then accept None s else reject s.

Fixpoint HandleWaveBlock_loop (attrs : Attrs) (s : State) : bool * State :=
  match attrs with
  | [] => (true, s)
  | (attr, value) :: rest =>
      if String.eqb attr "start" then
        match good_longlong value with
        | Some n =>
            if (n <? 0)%Z then
              SetError "Unable to parse the waveblock 'start' attribute" s
            else HandleWaveBlock_loop rest s
        | None =>
            SetError "Unable to parse the waveblock 'start' attribute" s
        end
      else HandleWaveBlock_loop rest s
  end.

Definition HandleWaveBlock (s : State) : Outcome :=
  let '(ok, s) := HandleWaveBlock_loop (mAttrs s) s in
  if ok then accept None s else reject s.

(** ** Block files *)

(** [mFiles.push_back (fi); mTotalSamples += len;] *)
Definition AddFile (len : Z) (filename : string) (origin channel : Z)
  (s : State) : State :=
  let fi := mkFileinfo (mWaveTrack s) (mClip s) filename len origin
                       channel in
  set_mTotalSamples (to_int64 (mTotalSamples s + len))
                    (set_mFiles (mFiles s ++ [fi]) s).

(** The loop of [HandleSimpleBlockFile] on the locals [filename] and
    [len]; [None] when it returned through [SetError]. *)
Fixpoint HandleSimpleBlockFile_loop (attrs : Attrs) (filename : string)
  (len : Z) (s : State) : option (string * Z) * State :=
  match attrs with
  | [] => (Some (filename, len), s)
  | (attr, value) :: rest =>
      if wxStricmp_eq attr "filename" then
        if IsGoodFileString E value then
          match mFileMap s !! value with
          | Some fn => HandleSimpleBlockFile_loop rest fn len s
          | None =>
              HandleSimpleBlockFile_loop rest filename len
                (snd (SetWarning ("Missing project file " ++ value ++ nl
                        ++ nl ++ "Inserting silence instead.") s))
          end
        else HandleSimpleBlockFile_loop rest filename len s
      else if String.eqb attr "len" then
        match good_longlong value with
        | Some n =>
            if (n <=? 0)%Z then
              (None, snd (SetError
                 "Missing or invalid simpleblockfile 'len' attribute." s))
            else HandleSimpleBlockFile_loop rest filename n s
        | None =>
            (None, snd (SetError
               "Missing or invalid simpleblockfile 'len' attribute." s))
        end
      else HandleSimpleBlockFile_loop rest filename len s
  end.

Definition HandleSimpleBlockFile (s : State) : Outcome :=
  match HandleSimpleBlockFile_loop (mAttrs s) "" 0%Z s with
  | (Some (filename, len), s) => accept None (AddFile len filename 0 0 s)
  | (None, s) => reject s
  end.

Fixpoint HandleSilentBlockFile_loop (attrs : Attrs) (len : Z) (s : State)
  : option Z * State :=
  match attrs with
  | [] => (Some len, s)
  | (attr, value) :: rest =>
      if String.eqb attr "len" then
        match good_longlong value with
        | Some n =>
            if negb (n >? 0)%Z then
              (None, snd (SetError
                 "Missing or invalid silentblockfile 'len' attribute." s))
            else HandleSilentBlockFile_loop rest n s
        | None =>
            (None, snd (SetError
               "Missing or invalid silentblockfile 'len' attribute." s))
        end
      else HandleSilentBlockFile_loop rest len s
  end.

Definition HandleSilentBlockFile (s : State) : Outcome :=
  match HandleSilentBlockFile_loop (mAttrs s) 0%Z s with
  | (Some len, s) => accept None (AddFile len "" 0 0 s)
  | (None, s) => reject s
  end.

(** The locals of [HandlePCMAliasBlockFile]. *)
Record alias_locals := mkAlias {
  al_filename : wxFileName;
  al_start : Z;
  al_len : Z;
  al_channel : Z
}.

Fixpoint HandlePCMAliasBlockFile_loop (attrs : Attrs) (a : alias_locals)
  (s : State) : option alias_locals * State :=
  match attrs with
  | [] => (Some a, s)
  | (attr, value) :: rest =>
      if wxStricmp_eq attr "aliasfile" then
        if IsGoodPathName E value then
          HandlePCMAliasBlockFile_loop rest
            (mkAlias (Assign E value) (al_start a) (al_len a)
                     (al_channel a)) s
        else if IsGoodFileName E value (fn_dirs (mProjDir s)) then
          HandlePCMAliasBlockFile_loop rest
            (mkAlias (Assign2 E (fn_dirs (mProjDir s)) value) (al_start a)
                     (al_len a) (al_channel a)) s
        else if IsGoodPathString E value then
          HandlePCMAliasBlockFile_loop rest a
            (snd (SetWarning ("Missing alias file " ++ value ++ nl ++ nl
                    ++ "Inserting silence instead.") s))
        else HandlePCMAliasBlockFile_loop rest a s
      else if wxStricmp_eq attr "aliasstart" then
        match good_longlong value with
        | Some n =>
            if (n <? 0)%Z then
              (None, snd (SetError
                 "Missing or invalid pcmaliasblockfile 'aliasstart' attribute."
                 s))
            else HandlePCMAliasBlockFile_loop rest
                   (mkAlias (al_filename a) n (al_len a) (al_channel a)) s
        | None =>
            (None, snd (SetError
               "Missing or invalid pcmaliasblockfile 'aliasstart' attribute."
               s))
        end
      else if wxStricmp_eq attr "aliaslen" then
        match good_longlong value with
        | Some n =>
            if (n <=? 0)%Z then
              (None, snd (SetError
                 "Missing or invalid pcmaliasblockfile 'aliaslen' attribute."
                 s))
            else HandlePCMAliasBlockFile_loop rest
                   (mkAlias (al_filename a) (al_start a) n (al_channel a)) s
        | None =>
            (None, snd (SetError
               "Missing or invalid pcmaliasblockfile 'aliaslen' attribute."
               s))
        end
      else if wxStricmp_eq attr "aliaschannel" then
        match good_long value with
        | Some n =>
            if (n <? 0)%Z then
              (None, snd (SetError
                 "Missing or invalid pcmaliasblockfile 'aliaslen' attribute."
                 s))
            else HandlePCMAliasBlockFile_loop rest
                   (mkAlias (al_filename a) (al_start a) (al_len a)
                            (to_int n)) s
        | None =>
            (None, snd (SetError
               "Missing or invalid pcmaliasblockfile 'aliaslen' attribute."
               s))
        end
      else HandlePCMAliasBlockFile_loop rest a s
  end.

(** The code after the unconditional [return true] is not reached. *)
Definition HandlePCMAliasBlockFile (s : State) : Outcome :=
  match HandlePCMAliasBlockFile_loop (mAttrs s)
          (mkAlias (mkFileName [] "" "") 0 0 0) s with
  | (Some a, s) =>
      accept None
        (AddFile (al_len a) (GetFullPath E (al_filename a)) (al_start a)
                 (al_channel a) s)
  | (None, s) => reject s
  end.

(** ** The dispatcher *)

Definition add_xml (e : string * Attrs) (o : Object) : Object :=
  mkObject (okind o) (oowner o) (oxml o ++ [e]) (oenvxml o) (oendtags o)
           (oruns o) (oflushes o).
Definition add_envxml (e : string * Attrs) (o : Object) : Object :=
  mkObject (okind o) (oowner o) (oxml o) (oenvxml o ++ [e]) (oendtags o)
           (oruns o) (oflushes o).
Definition add_endtag (t : string) (o : Object) : Object :=
  mkObject (okind o) (oowner o) (oxml o) (oenvxml o) (oendtags o ++ [t])
           (oruns o) (oflushes o).
Definition add_run (r : run) (o : Object) : Object :=
  mkObject (okind o) (oowner o) (oxml o) (oenvxml o) (oendtags o)
           (oruns o ++ [r]) (oflushes o).
Definition flush (o : Object) : Object :=
  mkObject (okind o) (oowner o) (oxml o) (oenvxml o) (oendtags o)
           (oruns o) (S (oflushes o)).

(** The class behind a handler: [Some k] for an object, [None] for an
    envelope; undefined for a pointer into nothing. *)
Definition handler_class (s : State) (hd : Handler)
  : option (option ObjKind) :=
  match hd with
  | ObjH p => o ← objs s !! p; Some (Some (okind o))
  | EnvH p => _ ← objs s !! p; Some None
  end.

(** [handler->HandleXMLTag (tag, attrs)]: the handler's own verdict; what
    it accepted is kept with the object. *)
Definition child_tag (hd : Handler) (t : string) (attrs : Attrs) (s : State)
  : option (bool * State) :=
  k ← handler_class s hd;
  if child_HandleXMLTag E k t attrs then
    Some (true,
          match hd with
          | ObjH p => set_objs (alter (add_xml (t, attrs)) p (objs s)) s
          | EnvH p => set_objs (alter (add_envxml (t, attrs)) p (objs s)) s
          end)
  else Some (false, s).

(** [handler->HandleXMLEndTag (tag)] *)
Definition child_end (hd : Handler) (t : string) (s : State) : option State :=
  _ ← handler_class s hd;
  match hd with
  | ObjH p => Some (set_objs (alter (add_endtag t) p (objs s)) s)
  | EnvH _ => Some s
  end.

(** The chain of comparisons of [HandleXMLTag]; a name none of them knows
    leaves [success] false. *)
Definition dispatch (s : State) : Outcome :=
  let t := mCurrentTag s in
  if String.eqb t "project" || String.eqb t "audacityproject" then
    HandleProject s
  else if String.eqb t "labeltrack" then HandleLabelTrack s
  else if String.eqb t "notetrack" then HandleNoteTrack s
  else if String.eqb t "timetrack" then HandleTimeTrack s
  else if String.eqb t "wavetrack" then HandleWaveTrack s
  else if String.eqb t "tags" then HandleTags s
  else if String.eqb t "tag" then HandleTag s
  else if String.eqb t "label" then HandleLabel s
  else if String.eqb t "waveclip" then HandleWaveClip s
  else if String.eqb t "sequence" then HandleSequence s
  else if String.eqb t "waveblock" then HandleWaveBlock s
  else if String.eqb t "envelope" then HandleEnvelope s
  else if String.eqb t "controlpoint" then HandleControlPoint s
  else if String.eqb t "simpleblockfile" then HandleSimpleBlockFile s
  else if String.eqb t "silentblockfile" then HandleSilentBlockFile s
  else if String.eqb t "pcmaliasblockfile" then HandlePCMAliasBlockFile s
  else reject s.

Definition not_recognized : string :=
  "Internal error in importer...tag not recognized".

Definition push (hd : option Handler) (s : State) : State :=
  set_mHandlers (mkNode (mParentTag s) (mCurrentTag s) hd :: mHandlers s) s.

Definition HandleXMLTag (t : string) (attrs : Attrs) (s : State)
  : option (bool * State) :=
  if negb (is_Success (mUpdateResult s)) then Some (false, s)
  else
    let s := set_mAttrs attrs
               (set_mCurrentTag t (set_mParentTag (mCurrentTag s) s)) in
    '(success, hd, s) ← dispatch s;
    if negb success then Some (SetError not_recognized s)
    else
      match hd with
      | None => Some (true, push None s)
      | Some h =>
          match child_tag h t attrs s with
          | Some (true, s) => Some (true, push hd s)
          | Some (false, s) => Some (SetError not_recognized s)
          | None => None
          end
      end.

Definition HandleXMLEndTag (t : string) (s : State) : option State :=
  if negb (is_Success (mUpdateResult s)) then Some s
  else
    nd ← back s;
    s ← (if String.eqb t "waveclip" then
           c ← as_kind WaveClipK s (handler nd);
           child_end (ObjH c) t (set_mClip (Some c) s)
         else
           match handler nd with
           | Some h => child_end h t s
           | None => Some s
           end);
    let s := set_mHandlers (tail (mHandlers s)) s in
    match mHandlers s with
    | nd' :: _ =>
        Some (set_mCurrentTag (tag nd') (set_mParentTag (parent nd') s))
    | [] => Some s
    end.

(** ** The block resolver *)

(** Modelled from the spec: [WaveClip::InsertSilence] and
    [WaveTrack::InsertSilence] (not in this file), called at the end time
    with the duration of [len] samples, "insert silence of the requested
    length": a silence run of [len] samples after the runs present. *)
Definition InsertSilence (p : nat) (len : Z) (s : State) : option State :=
  _ ← objs s !! p;
  Some (set_objs (alter (add_run (SilenceRun len)) p (objs s)) s).

(** Modelled from the spec: [Append] followed by [Flush] on a clip or a
    track (not in this file), "appended sample runs are committed to the
    owning clip": the samples become a run after the runs present. *)
Definition Append_Flush (p : nat) (format : sampleFormat) (buf : list Z)
  (s : State) : option State :=
  _ ← objs s !! p;
  Some (set_objs (alter (fun o => flush (add_run (SampleRun format buf) o))
                        p (objs s)) s).

(** [mClip] is tried first; its branch also calls
    [mWaveTrack->LongSamplesToTime]. *)
Definition AddSilence (len : Z) (s : State) : option (bool * State) :=
  match mClip s with
  | Some c =>
      _ ← as_kind WaveTrackK s (ObjH <$> mWaveTrack s);
      _ ← as_kind WaveClipK s (Some (ObjH c));
      s ← InsertSilence c len s;
      Some (true, s)
  | None =>
      match mWaveTrack s with
      | Some t =>
          _ ← as_kind WaveTrackK s (Some (ObjH t));
          s ← InsertSilence t len s;
          Some (true, s)
      | None => Some (true, s)
      end
  end.

(** The four branches of [AddSamples]. *)
Inductive DecodePath := MonoShort | MonoInt | DirectShort | FloatConvert.

Definition select_path (format : sampleFormat) (info : SF_INFO)
  : DecodePath :=
  if (channels info =? 1)%Z && sampleFormat_eqb format int16Sample
     && subtype_is_integer info then MonoShort
  else if (channels info =? 1)%Z && sampleFormat_eqb format int24Sample
          && subtype_is_integer info then MonoInt
  else if sampleFormat_eqb format int16Sample
          && negb (subtype_more_than_16_bits info) then DirectShort
  else FloatConvert.

(** A [SampleBuffer] of [n] cells straight from the allocator. *)
Definition fresh_buffer (n : nat) : list Z := map (uninitialised E) (seq 0 n).

(** A buffer of [n] cells after a read delivered [data] into it: the items
    delivered, then the cells the read did not reach. *)
Definition read_into (n : nat) (data : list Z) : list Z :=
  take n (data ++ drop (length data) (fresh_buffer n)).

(** The frame count an [sf_readf_*] call returns: the whole frames among
    the items delivered, never more than were asked for. *)
Definition frames_read (cnt chans : Z) (data : list Z) : Z :=
  Z.min cnt (Z.of_nat (length data) / chans).

(** [src[(stride * i) + offset]] for [i < cnt]; reading outside the buffer
    is undefined. *)
Definition strided (src : list Z) (stride offset : Z) (cnt : nat)
  : option (list Z) :=
  mapM (fun i : nat =>
          let ix := (stride * Z.of_nat i + offset)%Z in
          if (ix <? 0)%Z then None else src !! Z.to_nat ix)
       (seq 0 cnt).

Inductive decoded :=
| Undefined
| ShortRead
| Buffer (b : list Z).

(** The read each branch makes. *)
Definition delivered (p : DecodePath) (filename : string) (pos cnt : Z)
  : list Z :=
  match p with
  | MonoShort | DirectShort => sf_readf_short E filename pos cnt
  | MonoInt => sf_readf_int E filename pos cnt
  | FloatConvert => sf_readf_float E filename pos cnt
  end.

Definition decode (p : DecodePath) (filename : string) (pos cnt chan : Z)
  (format : sampleFormat) (info : SF_INFO) : decoded :=
  let n := Z.to_nat cnt in
  let wide := Z.to_nat (cnt * channels info) in
  let data := delivered p filename pos cnt in
  let short := negb (frames_read cnt (channels info) data =? cnt)%Z in
  match p with
  | MonoShort => Buffer (read_into n data)
  | MonoInt =>
      if short then ShortRead
      else Buffer (map (fun x => Z.shiftr x 8) (read_into n data))
  | DirectShort =>
      if short then ShortRead
      else
        match strided (read_into wide data) (channels info) chan n with
        | Some b => Buffer b
        | None => Undefined
        end
  | FloatConvert =>
      if short then ShortRead
      else
        match strided (read_into wide data) (channels info) chan n with
        | Some src => Buffer (read_into n (CopySamples E format src))
        | None => Undefined
        end
  end.

(** The warning of the [finally] block. *)
Definition error_while_processing (filename : string) : string :=
  "Error while processing " ++ filename ++ nl ++ nl ++ "Inserting silence.".

(** A step of [AddSamples] failed: its warning, then the [finally] block
    with [success] still false. *)
Definition give_silence (msg filename : string) (len : Z) (s : State)
  : option (bool * State) :=
  let s := snd (SetWarning msg s) in
  let s := snd (SetWarning (error_while_processing filename) s) in
  AddSilence len s.

Definition Append_to_owner (format : sampleFormat) (buf : list Z)
  (s : State) : option State :=
  match mClip s with
  | Some c => Append_Flush c format buf s
  | None =>
      match mWaveTrack s with
      | Some t => Append_Flush t format buf s
      | None => Some s
      end
  end.

Definition AddSamples (filename : string) (len origin chan : Z) (s : State)
  : option (bool * State) :=
  if negb (wxFile_Open E filename) then
    give_silence ("Failed to open " ++ filename) filename len s
  else
    match sf_open_fd E filename with
    | None => give_silence ("Failed to open " ++ filename) filename len s
    | Some info =>
        if (origin >? 0)%Z && (sf_seek E filename origin <? 0)%Z then
          give_silence ("Failed to seek to position " ++ show origin
                          ++ " in " ++ filename) filename len s
        else
          format ← mFormat s;
          match decode (select_path format info) filename (Z.max 0 origin)
                       len chan format info with
          | Undefined => None
          | ShortRead =>
              give_silence ("Unable to read " ++ show len
                              ++ " samples from " ++ filename)
                           filename len s
          | Buffer b =>
              s ← Append_to_owner format b s;
              Some (true, s)
          end
    end.

(** ** The import driver *)

(** What the tokenizer delivers. *)
Inductive Event :=
| Open (t : string) (attrs : Attrs)
| Close (t : string).

(** A document: the events the tokenizer delivers for it, whether the
    tokenizer itself got through it without an error of its own, and what
    [GetErrorStr] says if [Parse] fails. *)
Record Document := mkDocument {
  doc_events : list Event;
  doc_wellformed : bool;
  doc_error : string
}.

(** Modelled from the spec: the driving loop of [XMLFileReader::Parse]
    (not in this file), which "orchestrates tokenizer, Tag Dispatcher until
    the document ends or a fatal error is raised": the events go to the
    dispatcher in order and the first open tag it refuses ends the loop
    with failure. *)
Fixpoint feed (evs : list Event) (s : State) : option (bool * State) :=
  match evs with
  | [] => Some (true, s)
  | Open t attrs :: rest =>
      match HandleXMLTag t attrs s with
      | Some (true, s) => feed rest s
      | Some (false, s) => Some (false, s)
      | None => None
      end
  | Close t :: rest =>
      match HandleXMLEndTag t s with
      | Some s => feed rest s
      | None => None
      end
  end.

Definition Parse (d : Document) (s : State) : option (bool * State) :=
  match feed (doc_events d) s with
  | Some (ok, s) => Some (ok && doc_wellformed d, s)
  | None => None
  end.

(** The body of the [for (auto fi : mFiles)] loop after the progress
    check: one descriptor is resolved. *)
Definition resolve_one (fi : fileinfo) (s : State) : option (bool * State) :=
  let s := set_mWaveTrack (track fi) (set_mClip (clip fi) s) in
  if String.eqb (path fi) "" then AddSilence (len fi) s
  else AddSamples (path fi) (len fi) (origin fi) (channel fi) s.

(** The [for (auto fi : mFiles)] loop; [i] counts the calls of
    [mProgress->Update].  [Some r]: the loop was left by
    [return mUpdateResult]. *)
Fixpoint resolve_loop (files : list fileinfo) (i : nat) (processed : Z)
  (s : State) : option (option ProgressResult * State) :=
  match files with
  | [] => Some (None, s)
  | fi :: rest =>
      let r := ProgressUpdate E i processed (mTotalSamples s) in
      let s := set_mUpdateResult r s in
      if negb (is_Success r) then Some (Some r, s)
      else
        match resolve_one fi s with
        | Some (_, s) =>
            resolve_loop rest (S i) (to_int64 (processed + len fi)) s
        | None => None
        end
  end.

Definition set_tracks (v : list HostTrack) (p : Project) : Project :=
  mkProject (history_dirty p) v (view_calls p).

Definition call (c : ViewCall) (p : Project) : Project :=
  mkProject (history_dirty p) (tracks p) (view_calls p ++ [c]).

(** [tracks.Add (track)] for every track of [mTracks]. *)
Definition commit_tracks (s : State) : State :=
  set_mProject
    (set_tracks (tracks (mProject s) ++ map Imported (mTracks s))
                (mProject s)) s.

Definition when (b : bool) (c : ViewCall) : list ViewCall :=
  if b then [c] else [].

(** The calls the tail of [Import] makes for the attributes [a]. *)
Definition attr_calls (a : ProjectAttrs) : list ViewCall :=
  when (haverate a) (SetRate (rate a))
  ++ when (havesnapto a)
          (AS_SetSnapTo (if snapto a then SNAP_NEAREST else SNAP_OFF))
  ++ when (haveselectionformat a)
          (AS_SetSelectionFormat (LookupFormat E (selectionformat a)))
  ++ when (haveaudiotimeformat a)
          (TT_SetAudioTimeFormat (LookupFormat E (audiotimeformat a)))
  ++ when (havefrequencyformat a)
          (SSBL_SetFrequencySelectionFormatName
             (LookupFormat E (frequencyformat a)))
  ++ when (havebandwidthformat a)
          (SSBL_SetBandwidthSelectionFormatName
             (LookupFormat E (bandwidthformat a)))
  ++ when (havevpos a) (Set_vpos (vpos a))
  ++ when (haveh a) (Set_h (h a))
  ++ when (havezoom a) (SetZoom (zoom a))
  ++ when (havesel0 a) (setT0 (sel0 a))
  ++ when (havesel1 a) (setT1 (sel1 a))
  ++ when (EXPERIMENTAL_SPECTRAL_EDITING E && haveselLow a)
          (setF0 (selLow a))
  ++ when (EXPERIMENTAL_SPECTRAL_EDITING E && haveselHigh a)
          (setF1 (selHigh a)).

Definition apply_attrs (s : State) : State :=
  set_mProject
    (foldl (fun p c => call c p) (mProject s)
           (attr_calls (mProjectAttrs s))) s.

(** [bool isDirty = history.GetDirty () || !tracks.empty ()] *)
Definition isDirty (p : Project) : bool :=
  history_dirty p || negb (bool_decide (tracks p = [])).

Definition is_Failed (r : ProgressResult) : bool :=
  match r with Failed => true | _ => false end.

Definition is_Failed_or_Cancelled (r : ProgressResult) : bool :=
  match r with Failed | Cancelled => true | _ => false end.

(** [Import] from the test of [success] on: [success] is what
    [xmlFile.Parse] returned, [err] what [xmlFile.GetErrorStr] says, [dirty]
    the [isDirty] taken on entry. *)
Definition Import_after_Parse (err : string) (dirty success : bool)
  (s : State) : option (ProgressResult * State) :=
  if negb success then
    Some (Failed,
          log (MessageBox ("Couldn't import the project:" ++ nl ++ nl ++ err))
              (set_mTracks [] s))
  else
    let failed_msg := negb (String.eqb (mErrorMsg s) "") in
    let s := if failed_msg then log (MessageBox (mErrorMsg s)) s else s in
    if failed_msg && is_Failed (mUpdateResult s) then Some (Failed, s)
    else
      match resolve_loop (mFiles s) 0 0%Z s with
      | None => None
      | Some (Some r, s) => Some (r, s)
      | Some (None, s) =>
          if is_Failed_or_Cancelled (mUpdateResult s) then
            Some (mUpdateResult s, set_mTracks [] s)
          else
            let s := set_mTracks [] (commit_tracks s) in
            if dirty then Some (mUpdateResult s, s)
            else Some (mUpdateResult s, apply_attrs s)
      end.

(** The entry of [Import], up to [xmlFile.Parse]. *)
Definition Import_entry (tags : list (string * string)) (s : State) : State :=
  set_mUpdateResult Success (set_mTags tags (set_mTotalSamples 0%Z s)).

Definition Import (tags : list (string * string)) (d : Document) (s : State)
  : option (ProgressResult * State) :=
  let dirty := isDirty (mProject s) in
  match Parse d (Import_entry tags s) with
  | None => None
  | Some (success, s) => Import_after_Parse (doc_error d) dirty success s
  end.

(** ** Open: sniffing the file *)

(** [wxFFile ff (mFilename, wxT ("rb"))]: whether the file opened, and the
    bytes it holds from its start. *)
Record wxFFile := mkFFile {
  IsOpened : bool;
  ff_bytes : list Z
}.

(** The characters of a literal, as the bytes of a [char] buffer. *)
Definition chars (lit : string) : list Z :=
  map (fun a => Z.of_nat (nat_of_ascii a)) (list_ascii_of_string lit).

(** The C string a buffer holds: its cells up to the first NUL. *)
Fixpoint c_str (buf : list Z) : list Z :=
  match buf with
  | [] => []
  | c :: rest => if (c =? 0)%Z then [] else c :: c_str rest
  end.

(** [wxStrncmp (a, lit, n) == 0] on C strings. *)
Definition wxStrncmp_eq (a : list Z) (lit : string) (n : nat) : bool :=
  bool_decide (take n a = take n (chars lit)).

(** [wxStrstr (hay, needle) != NULL] on C strings. *)
Definition wxStrstr_found (hay : list Z) (needle : string) : bool :=
  existsb (fun i => bool_decide (take (length (chars needle)) (drop i hay)
                                 = chars needle))
          (seq 0 (S (length hay))).

Definition legacy_project : string :=
  "This project was saved by Audacity version 1.0 or earlier. The format has"
  ++ nl
  ++ "changed and this version of Audacity is unable to import the project."
  ++ nl ++ nl
  ++ "Use a version of Audacity prior to v3.0.0 to upgrade the project and then"
  ++ nl ++ "you may import it with this version of Audacity.".

(** [char buf[256]] after [ff.Read (buf, sizeof (buf))] and
    [buf[sizeof (buf) - 1] = 0]: the bytes read, then the cells the read
    did not reach, and a NUL in the last cell. *)
Definition sniffed (ff : wxFFile) : list Z :=
  <[255%nat := 0%Z]> (read_into 256 (take 256 (ff_bytes ff))).

(** [AUPImportFileHandle::Open ()] on the file object [ff] it constructs. *)
Definition AUPImportFileHandle_Open (ff : wxFFile) (s : State)
  : bool * State :=
  if IsOpened ff then
    let buf := c_str (sniffed ff) in
    if wxStrncmp_eq buf "AudacityProject" 15 then
      (false, log (MessageBox legacy_project) s)
    else if wxStrncmp_eq buf "<?xml" 5
            && (wxStrstr_found buf "<audacityproject"
                || wxStrstr_found buf "<project") then (true, s)
    else (false, s)
  else (false, s).

End Importer.

(** * The vocabulary of the properties *)

Section Statements.

Variable E : Externals.

(** What a tag rule leaves of the host project. *)
Definition keeps_host (s : State) (r : Outcome) : Prop :=
  forall b hd s', r = Some (b, hd, s') -> mProject s' = mProject s.

(** A tag rule that accepts leaves the result of the import alone. *)
Definition keeps_result (s : State) (r : Outcome) : Prop :=
  forall hd s', r = Some (true, hd, s') -> mUpdateResult s' = mUpdateResult s.

(** What block resolution leaves alone. *)
Definition same_frame (s s' : State) : Prop :=
  mProject s' = mProject s /\ mTracks s' = mTracks s
  /\ mUpdateResult s' = mUpdateResult s /\ mFiles s' = mFiles s
  /\ mTotalSamples s' = mTotalSamples s
  /\ mProjectAttrs s' = mProjectAttrs s
  /\ mWaveTrack s' = mWaveTrack s /\ mClip s' = mClip s
  /\ mFormat s' = mFormat s.

(** What [Parse] leaves when [Import] called it: [Success], or [Failed]
    together with a message. *)
Definition parsed (s : State) : Prop :=
  mUpdateResult s = Success
  \/ (mUpdateResult s = Failed /\ mErrorMsg s <> "").

(** The entries of [fields] whose flag is set, in the order of [fields]. *)
Definition flagged (fields : list (bool * ViewCall)) : list ViewCall :=
  map snd (List.filter fst fields).

(** The view-state fields in the order the specification gives them, each
    with its present-flag and the call that applies it. *)
Definition fields_in_order (a : ProjectAttrs) : list (bool * ViewCall) :=
  [ (haverate a, SetRate (rate a));
    (havesnapto a,
       AS_SetSnapTo (if snapto a then SNAP_NEAREST else SNAP_OFF));
    (haveselectionformat a,
       AS_SetSelectionFormat (LookupFormat E (selectionformat a)));
    (haveaudiotimeformat a,
       TT_SetAudioTimeFormat (LookupFormat E (audiotimeformat a)));
    (havefrequencyformat a,
       SSBL_SetFrequencySelectionFormatName
         (LookupFormat E (frequencyformat a)));
    (havebandwidthformat a,
       SSBL_SetBandwidthSelectionFormatName
         (LookupFormat E (bandwidthformat a)));
    (havevpos a, Set_vpos (vpos a));
    (haveh a, Set_h (h a));
    (havezoom a, SetZoom (zoom a));
    (havesel0 a, setT0 (sel0 a));
    (havesel1 a, setT1 (sel1 a));
    (EXPERIMENTAL_SPECTRAL_EDITING E && haveselLow a, setF0 (selLow a));
    (EXPERIMENTAL_SPECTRAL_EDITING E && haveselHigh a, setF1 (selHigh a)) ].





(** The tag names [HandleXMLTag] compares with. *)
Definition vocabulary : list string :=
  ["project"; "audacityproject"; "labeltrack"; "notetrack"; "timetrack";
   "wavetrack"; "tags"; "tag"; "label"; "waveclip"; "sequence"; "waveblock";
   "envelope"; "controlpoint"; "simpleblockfile"; "silentblockfile";
   "pcmaliasblockfile"].

(** The tag [t], opened under [parent], is one the dispatcher has no rule
    for, or a [label] outside a [labeltrack], or a [tag] outside [tags]. *)
Definition refused (t parent : string) : Prop :=
  ~ In t vocabulary
  \/ (t = "label" /\ parent <> "labeltrack")
  \/ (t = "tag" /\ parent <> "tags").

(** The three names [HandleProject] counts. *)
Definition is_required (attr : string) : bool :=
  String.eqb attr "version" || String.eqb attr "audacityversion"
  || String.eqb attr "projname".

(** How many entries of an attribute list bear one of the three names. *)
Definition required (attrs : Attrs) : Z :=
  Z.of_nat (length (List.filter is_required (map fst attrs))).

(** The clip if the descriptor has one, else the track. *)
Definition owner (fi : fileinfo) : option nat :=
  match clip fi with
  | Some c => Some c
  | None => track fi
  end.

(** The runs of object [p]. *)
Definition runs_of (s : State) (p : nat) : option (list run) :=
  oruns <$> (objs s !! p).

(** Object [p] exists and is of kind [k]. *)
Definition has_kind (s : State) (p : nat) (k : ObjKind) : bool :=
  match kind_of s p with
  | Some k' => ObjKind_eqb k k'
  | None => false
  end.

(** The pointers of the descriptor point at what [AddFile] took them from:
    a wave track, and a wave clip or nothing. *)
Definition well_owned (fi : fileinfo) (s : State) : bool :=
  match track fi with
  | Some t => has_kind s t WaveTrackK
  | None => false
  end
  && match clip fi with
     | Some c => has_kind s c WaveClipK
     | None => true
     end.

(** The number of warnings in the log. *)
Definition warnings (s : State) : nat :=
  length (List.filter is_warning (mLog s)).

(** The file of the descriptor does not open, for [wxFile] or for
    libsndfile. *)
Definition cannot_open (fi : fileinfo) : Prop :=
  wxFile_Open E (path fi) = false \/ sf_open_fd E (path fi) = None.

(** The file opens and the seek to the origin fails. *)
Definition cannot_seek (fi : fileinfo) : Prop :=
  wxFile_Open E (path fi) = true
  /\ (exists info, sf_open_fd E (path fi) = Some info)
  /\ (origin fi > 0)%Z /\ (sf_seek E (path fi) (origin fi) < 0)%Z.

(** The file opens, the seek (if any) succeeds, branch [p] is selected and
    its read delivers fewer frames than asked for. *)
Definition short_read (fi : fileinfo) (s : State) (p : DecodePath) : Prop :=
  wxFile_Open E (path fi) = true
  /\ ((origin fi >? 0)%Z && (sf_seek E (path fi) (origin fi) <? 0)%Z) = false
  /\ exists info format,
       sf_open_fd E (path fi) = Some info /\ mFormat s = Some format
       /\ select_path format info = p
       /\ frames_read (len fi) (channels info)
            (delivered E p (path fi) (Z.max 0 (origin fi)) (len fi))
          <> len fi.

(** Claim C2 as the specification states it, for one descriptor. *)
Definition silence_with_warning (fi : fileinfo) (s : State) : Prop :=
  (path fi = "" \/ cannot_open fi \/ cannot_seek fi
   \/ exists p, short_read fi s p) ->
  exists p s',
    owner fi = Some p /\ resolve_one E fi s = Some (true, s')
    /\ runs_of s' p = (fun l => l ++ [SilenceRun (len fi)])%list <$> runs_of s p
    /\ (warnings s < warnings s')%nat
    /\ mUpdateResult s' = mUpdateResult s.

(** Claim C4 as the specification states it, for one open tag: a tag
    outside the vocabulary or one whose context rule fails (the rule of
    [controlpoint] included) is refused. *)
Definition misplaced_tag_is_fatal (t : string) (attrs : Attrs) (s : State)
  : Prop :=
  mUpdateResult s = Success ->
  (refused t (mCurrentTag s)
   \/ (t = "controlpoint" /\ mCurrentTag s <> "envelope")) ->
  exists s', HandleXMLTag E t attrs s = Some (false, s')
             /\ mUpdateResult s' = Failed.

(** The nesting cursor, the queue and the active track and clip: what the
    attribute loops never touch. *)
Definition parse_view (s : State)
  : list node * string * string * list fileinfo * Z * option nat
    * option nat :=
  (mHandlers s, mCurrentTag s, mParentTag s, mFiles s, mTotalSamples s,
   mWaveTrack s, mClip s).

(** The sum of the lengths of a list of descriptors. *)
Definition sum_len (files : list fileinfo) : Z :=
  foldr (fun fi acc => (len fi + acc)%Z) 0%Z files.

(** The three block-file tags. *)
Definition is_block_tag (t : string) : bool :=
  String.eqb t "simpleblockfile" || String.eqb t "silentblockfile"
  || String.eqb t "pcmaliasblockfile".

(** Between [s] and [s'] the queue got the one descriptor [fi], bound to
    the track and the clip active in [s], and the total grew by its
    length, in 64 bits. *)
Definition queued_one (s s' : State) (fi : fileinfo) : Prop :=
  mFiles s' = (mFiles s ++ [fi])%list
  /\ mTotalSamples s' = to_int64 (mTotalSamples s + len fi)
  /\ track fi = mWaveTrack s /\ clip fi = mClip s
  /\ (0 <= len fi)%Z /\ (0 <= origin fi)%Z.

(** Between [s] and [s'] the queue and the total stayed as they were. *)
Definition queue_kept (s s' : State) : Prop :=
  mFiles s' = mFiles s /\ mTotalSamples s' = mTotalSamples s.

(** What a tag rule does to the queue when the tag is [t]. *)
Definition queue_step (t : string) (s s' : State) : Prop :=
  if is_block_tag t then exists fi, queued_one s s' fi else queue_kept s s'.

(** The cursor names the frame on top of the stack. *)
Definition cursor_on_top (s : State) : Prop :=
  match mHandlers s with
  | nd :: _ => mCurrentTag s = tag nd /\ mParentTag s = parent nd
  | [] => True
  end.

(** The open and the close tags among some events. *)
Definition opens (evs : list Event) : nat :=
  length (List.filter (fun e => match e with Open _ _ => true | _ => false end)
                      evs).
Definition closes (evs : list Event) : nat :=
  length (List.filter (fun e => match e with Close _ => true | _ => false end)
                      evs).

(** What a tag rule, run for tag [t], leaves of the cursor and does to the
    queue: an accepted block-file tag queues one descriptor, every other
    outcome keeps the queue. *)
Definition tag_effect (t : string) (s : State) (r : Outcome) : Prop :=
  forall b hd s',
    r = Some (b, hd, s') ->
    mHandlers s' = mHandlers s /\ mCurrentTag s' = mCurrentTag s
    /\ mParentTag s' = mParentTag s
    /\ (if b then queue_step t s s' else queue_kept s s').



(** Between [s] and [s'] object [p] got the run [r] after its runs, kept
    its kind, and no other object changed. *)
Definition got_run (p : nat) (r : run) (s s' : State) : Prop :=
  exists g,
    objs s' = alter g p (objs s)
    /\ forall o, okind (g o) = okind o
                 /\ oruns (g o) = (oruns o ++ [r])%list.

(** A field of the project attributes by the name of its attribute: its
    present-flag and its value. *)
Definition field_view (a : ProjectAttrs) (name : string)
  : option (bool * (Z + bool + string)) :=
  if String.eqb name "vpos" then Some (havevpos a, inl (inl (vpos a)))
  else if String.eqb name "h" then Some (haveh a, inl (inl (h a)))
  else if String.eqb name "zoom" then Some (havezoom a, inl (inl (zoom a)))
  else if String.eqb name "sel0" then Some (havesel0 a, inl (inl (sel0 a)))
  else if String.eqb name "sel1" then Some (havesel1 a, inl (inl (sel1 a)))
  else if String.eqb name "selLow" then
    Some (haveselLow a, inl (inl (selLow a)))
  else if String.eqb name "selHigh" then
    Some (haveselHigh a, inl (inl (selHigh a)))
  else if String.eqb name "rate" then Some (haverate a, inl (inl (rate a)))
  else if String.eqb name "snapto" then
    Some (havesnapto a, inl (inr (snapto a)))
  else if String.eqb name "selectionformat" then
    Some (haveselectionformat a, inr (selectionformat a))
  else if String.eqb name "audiotimeformat" then
    Some (haveaudiotimeformat a, inr (audiotimeformat a))
  else if String.eqb name "frequencyformat" then
    Some (havefrequencyformat a, inr (frequencyformat a))
  else if String.eqb name "bandwidthformat" then
    Some (havebandwidthformat a, inr (bandwidthformat a))
  else None.

(** The root attribute [attr] with value [value] is a number the root rule
    does not take: a [vpos] that is no integer or is negative, or one of
    [h], [zoom], [sel0], [sel1], [rate] that is no number or is negative. *)
Definition bad_number (attr value : string) : Prop :=
  (attr = "vpos"
   /\ match good_long E value with
      | Some l => (l < 0)%Z
      | None => True
      end)
  \/ (In attr ["h"; "zoom"; "sel0"; "sel1"; "rate"]
      /\ good_double E value = None).

(** The listed file the index keeps under the base name [k]: the last
    one that has it. *)
Definition last_named (k : string) (files : list string) : option string :=
  last (List.filter (fun fn => String.eqb (wxFileNameFromPath E fn) k) files).

(** The key [HandleTags] stores the legacy attribute [attr] under. *)
Definition tag_key (attr : string) : string :=
  if String.eqb attr "track" then "TRACKNUMBER" else MakeUpper attr.

(** The tag a legacy attribute is stored as. *)
Definition as_tag (av : string * string) : string * string :=
  (tag_key (fst av), snd av).

(** The legacy attributes that are stored: those with a value, other than
    [id3v2]. *)
Definition kept_as_tag (av : string * string) : bool :=
  negb (String.eqb (snd av) "") && negb (String.eqb (fst av) "id3v2").

(** The legacy attributes that end the loop: those with a value whose
    name or value fails the string check. *)
Definition bad_string (av : string * string) : bool :=
  negb (String.eqb (snd av) "")
  && (negb (IsGoodString E (fst av)) || negb (IsGoodString E (snd av))).

(** The attribute name in the message of a refused root number: the
    branch of [rate] carries the text of [selLow]. *)
Definition reported (attr : string) : string :=
  if String.eqb attr "rate" then "selLow" else attr.

Definition invalid_project_attribute (attr : string) : string :=
  "Invalid project '" ++ reported attr ++ "' attribute.".

(** A message once kept is not replaced. *)
Definition message_kept (s s' : State) : Prop :=
  mErrorMsg s <> "" -> mErrorMsg s' = mErrorMsg s.

Definition keeps_message (s : State) (r : Outcome) : Prop :=
  forall b hd s', r = Some (b, hd, s') -> message_kept s s'.

(** The log has grown by warnings only. *)
Definition only_warnings (s s' : State) : Prop :=
  exists added,
    mLog s' = (mLog s ++ added)%list /\ forallb is_warning added = true.

(** The literal [needle] stands at offset [i] of [data]. *)
Definition occurs_at (needle : string) (i : nat) (data : list Z) : Prop :=
  take (length (chars needle)) (drop i data) = chars needle.



End Statements.

(** The handle as its constructor leaves it.  The constructor initialises
    [mFilename] and [mProject]; the containers and strings start empty and
    [mTotalSamples] at zero; [mProjectAttrs] is not initialised and is
    whatever [attrs0] the memory held; [mFormat], [mWaveTrack] and [mClip]
    are not initialised either and count as unset. *)
Definition constructed (name : wxFileName) (project : Project)
  (attrs0 : ProjectAttrs) : State :=
  mkState name project [] attrs0 [] 0%Z None [] "" "" []
          (mkFileName [] "" "") ∅ [] [] None None Success "" [].

(** ** A fixture: collaborators to run the importer on *)

Module Fixture.

Definition digit (c : ascii) : option Z :=
  let n := nat_of_ascii c in
  if (48 <=? n)%nat && (n <=? 57)%nat then Some (Z.of_nat (n - 48)) else None.

Fixpoint digits (s : string) (acc : Z) : option Z :=
  match s with
  | EmptyString => Some acc
  | String c r =>
      match digit c with
      | Some d => digits r (10 * acc + d)%Z
      | None => None
      end
  end.

(** A decimal integer: an optional minus sign, then one digit or more. *)
Definition parse_int (s : string) : option Z :=
  match s with
  | EmptyString => None
  | String "-" EmptyString => None
  | String "-" r => Z.opp <$> digits r 0
  | _ => digits s 0
  end.

Definition in_range (bits : Z) (v : option Z) : option Z :=
  match v with
  | Some z =>
      if (- 2 ^ (bits - 1) <=? z)%Z && (z <? 2 ^ (bits - 1))%Z
      then Some z else None
  | None => None
  end.

Definition parse_format (z : Z) : option sampleFormat :=
  if (z =? 0x00020001)%Z then Some int16Sample
  else if (z =? 0x00040001)%Z then Some int24Sample
  else if (z =? 0x0004000F)%Z then Some floatSample
  else None.

(** A few doubles by their source text. *)
Definition parse_double (s : string) : option Z :=
  if String.eqb s "0" then Some 0%Z
  else if String.eqb s "44100" then Some 0x40E5888000000000%Z
  else if String.eqb s "-1" then Some 0xBFF0000000000000%Z
  else None.

(** The files on disk: three block files of a mono 16-bit recording. *)
Definition on_disk (f : string) : bool :=
  String.eqb f "/p/song_data/b1.au" || String.eqb f "/p/song_data/b2.au"
  || String.eqb f "/p/song_data/b3.au".

Definition base_name (f : string) : string :=
  if String.eqb f "/p/song_data/b1.au" then "b1.au"
  else if String.eqb f "/p/song_data/b2.au" then "b2.au"
  else if String.eqb f "/p/song_data/b3.au" then "b3.au"
  else f.

(** [b1.au] holds four frames of 16-bit integers; [b2.au] is the same data
    in a 16-bit subtype that is not an integer one; [b3.au] is stereo. *)
Definition info_of (f : string) : option SF_INFO :=
  if String.eqb f "/p/song_data/b1.au" then Some (mkInfo 1 true false)
  else if String.eqb f "/p/song_data/b2.au" then Some (mkInfo 1 false false)
  else if String.eqb f "/p/song_data/b3.au" then Some (mkInfo 2 true false)
  else None.

Definition content (f : string) : list Z :=
  if String.eqb f "/p/song_data/b3.au" then [10; -10; 20; -20; 30; -30]%Z
  else [11; 22; 33; 44]%Z.

Definition read (f : string) (pos cnt : Z) : list Z :=
  match info_of f with
  | Some i =>
      take (Z.to_nat (cnt * channels i))
           (drop (Z.to_nat (pos * channels i)) (content f))
  | None => []
  end.

Definition env (progress : nat -> Z -> Z -> ProgressResult) : Externals :=
  mkExternals true true
    (fun _ => true)
    (fun v => bool_decide (is_Some (in_range 32 (parse_int v))))
    (fun v => bool_decide (is_Some (in_range 64 (parse_int v))))
    (fun _ => true) on_disk (fun _ _ => false) (fun _ => true)
    parse_format
    (fun v => in_range 32 (parse_int v))
    (fun v => in_range 64 (parse_int v))
    parse_double
    (fun d => bool_decide (fn_dirs d = ["p"; "song_data"]))
    (fun _ => ["/p/song_data/b1.au"; "/p/song_data/b2.au";
               "/p/song_data/b3.au"])
    base_name
    (fun f => fn_name f)
    (fun v => mkFileName [] v "")
    (fun d v => mkFileName d v "")
    (fun _ _ _ => true)
    (fun cs => default 0%nat (last cs))
    (fun f => f)
    progress
    on_disk info_of (fun _ _ => 0%Z)
    read read read
    (fun _ src => src)
    (fun _ => 0x5A5A%Z).

Definition always (r : ProgressResult) : nat -> Z -> Z -> ProgressResult :=
  fun _ _ _ => r.

Definition song : wxFileName := mkFileName ["p"] "song" "aup".

Definition empty_project : Project := mkProject false [] [].

Definition root_attrs : Attrs :=
  [("version", "1.3.0"); ("audacityversion", "2.4.2");
   ("projname", "song_data"); ("rate", "44100")].

(** The handle of a fresh import into [project]. *)
Definition handle (project : Project) : State :=
  constructed song project no_attrs.

(** The state the parser reaches on [evs], starting as [Import] does. *)
Definition state_after (project : Project) (evs : list Event) : State :=
  match feed (env (always Success)) evs (Import_entry [] (handle project)) with
  | Some (_, s) => s
  | None => handle project
  end.

(** One wave track holding one clip of two blocks: four samples from
    [b1.au], then three samples of silence. *)
Definition one_track : Document :=
  mkDocument
    [Open "project" root_attrs;
     Open "wavetrack" [("name", "Audio Track")];
     Open "waveclip" [("offset", "0")];
     Open "sequence" [("maxsamples", "5000"); ("sampleformat", "131073");
                      ("numsamples", "7")];
     Open "waveblock" [("start", "0")];
     Open "simpleblockfile" [("filename", "b1.au"); ("len", "4")];
     Close "simpleblockfile"; Close "waveblock";
     Open "waveblock" [("start", "4")];
     Open "silentblockfile" [("len", "3")];
     Close "silentblockfile"; Close "waveblock";
     Close "sequence"; Close "waveclip"; Close "wavetrack";
     Close "project"]
    true "".


(** A wave track and a sequence that sets the 16-bit format. *)
Definition in_wavetrack : list Event :=
  [Open "project" root_attrs; Open "wavetrack" [];
   Open "sequence" [("sampleformat", "131073")]; Close "sequence"].

(** Descriptors for the track of [in_wavetrack]: silence, a file that is
    not there, and two files that hold four frames when six are asked
    for. *)
Definition silent_block : fileinfo := mkFileinfo (Some 0%nat) None "" 3 0 0.
Definition missing_block : fileinfo :=
  mkFileinfo (Some 0%nat) None "/p/song_data/gone.au" 3 0 0.
Definition short_integer_block : fileinfo :=
  mkFileinfo (Some 0%nat) None "/p/song_data/b1.au" 6 0 0.
Definition short_other_block : fileinfo :=
  mkFileinfo (Some 0%nat) None "/p/song_data/b2.au" 6 0 0.

(** What an import leaves to look at: the result, the local tracks, the
    tracks of the host and the calls on its view state. *)
Definition summary (r : option (ProgressResult * State))
  : option (ProgressResult * list nat * list HostTrack * list ViewCall) :=
  match r with
  | Some (res, s) =>
      Some (res, mTracks s, tracks (mProject s), view_calls (mProject s))
  | None => None
  end.

(** The runs of object [p] and the log, after resolving a descriptor. *)
Definition resolved (r : option (bool * State)) (p : nat)
  : option (bool * option (list run) * list LogEntry) :=
  match r with
  | Some (b, s) => Some (b, oruns <$> (objs s !! p), mLog s)
  | None => None
  end.

(** The collaborators with a progress dialog nobody cancels. *)
Definition E0 : Externals := env (always Success).

(** The parser inside the wave track of [in_wavetrack]. *)
Definition track_state : State := state_after empty_project in_wavetrack.

(** A document with a tag the importer does not know. *)
Definition unknown_tag : Document :=
  mkDocument [Open "project" root_attrs; Open "wavetrack" [];
              Open "reverb" [("mix", "1")]; Close "reverb";
              Close "wavetrack"; Close "project"] true "".

(** Root attributes without [projname]. *)
Definition two_of_three : Attrs :=
  [("version", "1.3.0"); ("audacityversion", "2.4.2"); ("rate", "44100");
   ("snapto", "on")].

(** The four values of the specification, as [sequence] tags. *)
Definition sequence_with (maxsamples : string)
  : option (bool * ProgressResult) :=
  (fun r => (fst r, mUpdateResult (snd r)))
    <$> HandleXMLTag E0 "sequence"
          [("maxsamples", maxsamples); ("sampleformat", "131073")]
          (state_after empty_project
             [Open "project" root_attrs; Open "wavetrack" [];
              Open "waveclip" []]).

(** The handle after the import of [one_track]. *)
Definition state_after_import : State :=
  match Import E0 [] one_track (handle empty_project) with
  | Some (_, s) => s
  | None => handle empty_project
  end.

(** The handle as [Import] enters the parser. *)
Definition entry : State := Import_entry [] (handle empty_project).

(** The state a run ends in. *)
Definition result_of {A} (r : option (A * State)) : State :=
  match r with
  | Some (_, s) => s
  | None => handle empty_project
  end.

(** The parser after [one_track], after the tag [unknown_tag] holds, and
    after the root tag alone. *)
Definition parsed_state : State := state_after empty_project (doc_events one_track).
Definition failed_state : State :=
  state_after empty_project (doc_events unknown_tag).
Definition root_state : State :=
  state_after empty_project [Open "project" root_attrs].

(** The parser inside a [waveblock]. *)
Definition in_block : list Event :=
  [Open "project" root_attrs; Open "wavetrack" []; Open "waveclip" [];
   Open "sequence" [("sampleformat", "131073")]; Open "waveblock" []].
Definition block_state : State := state_after empty_project in_block.
Definition simple_attrs : Attrs := [("filename", "b1.au"); ("len", "4")].
Definition after_simple_block : State :=
  result_of (HandleXMLTag E0 "simpleblockfile" simple_attrs block_state).

(** Root attributes with a negative rate in front. *)
Definition bad_rate : Attrs := ("rate", "-1") :: root_attrs.
Definition after_bad_rate : State :=
  result_of (HandleXMLTag E0 "project" bad_rate entry).

(** The import of [one_track] that is cancelled at the first block. *)
Definition cancelled_import : State :=
  result_of (Import (env (always Cancelled)) [] one_track
               (handle empty_project)).

(** A handle that holds a message before [Import] is entered. *)
Definition noted : State :=
  set_mErrorMsg "An earlier message" (handle empty_project).
Definition noted_import : State := result_of (Import E0 [] one_track noted).

(** Two descriptors of the track of [in_wavetrack] and their resolution. *)
Definition two_blocks : list fileinfo := [missing_block; silent_block].
Definition two_resolved : State :=
  result_of (resolve_loop E0 two_blocks 0 0%Z track_state).
Definition missing_resolved : State :=
  result_of (resolve_one E0 missing_block track_state).

(** The frame on top of the stack. *)
Definition top_frame (s : State) : node :=
  default (mkNode "" "" None) (head (mHandlers s)).

(** A clip opened in the track of [in_wavetrack], and a [waveclip] right
    under the root. *)
Definition clip_attrs : Attrs := [("offset", "0")].
Definition after_waveclip : State :=
  result_of (HandleXMLTag E0 "waveclip" clip_attrs track_state).
Definition after_stray_waveclip : State :=
  result_of (HandleXMLTag E0 "waveclip" clip_attrs root_state).

(** Files to sniff: a project file padded with blanks to 300 bytes, the
    same file with other bytes after the first 255, and a file of
    version 1.0. *)
Definition xml_head : string :=
  "<?xml version='1.0' standalone='no' ?><project version='1.3.0'>".
Definition xml_file : wxFFile :=
  mkFFile true (take 300 (chars xml_head ++ replicate 300 32%Z)).
Definition xml_file_again : wxFFile :=
  mkFFile true (take 255 (chars xml_head ++ replicate 300 32%Z)
                ++ replicate 45 10%Z).
Definition legacy_file : wxFFile :=
  mkFFile true (chars "AudacityProject" ++ chars xml_head).

End Fixture.

(** * Properties *)

Section Properties.

Variable E : Externals.

Ltac break_match :=
  match goal with
  | H : context [match ?x with _ => _ end] |- _ => destruct x eqn:?
  | |- context [match ?x with _ => _ end] => destruct x eqn:?
  end.

Ltac invc H := inversion H; subst; clear H.

Ltac crunch :=
  unfold accept, reject, error, push_track, new_clip, alloc in *;
  repeat (simpl in *; subst;
          try match goal with
              | H : Some _ = Some _ |- _ => invc H
              | H : (_, _) = (_, _) |- _ => invc H
              | H : None = Some _ |- _ => discriminate H
              | H : Some _ = None |- _ => discriminate H
              | H : context [mbind _ ?x] |- _ =>
                  (is_var x; destruct x) || destruct x eqn:?
              end;
          try break_match);
  simpl in *; try congruence; eauto.

(** ** Errors are fatal, warnings are not *)

Lemma SetError_false msg s : fst (SetError msg s) = false.
Proof. reflexivity. Qed.

Lemma SetError_Failed msg s : mUpdateResult (snd (SetError msg s)) = Failed.
Proof. reflexivity. Qed.

Lemma keep_first_nonempty msg s :
  msg <> "" -> mErrorMsg (keep_first msg s) <> "".
Proof.
  intros Hmsg. unfold keep_first.
  destruct (String.eqb (mErrorMsg s) "") eqn:He; simpl; [exact Hmsg|].
  apply String.eqb_neq in He. exact He.
Qed.

Lemma SetError_message msg s :
  msg <> "" -> mErrorMsg (snd (SetError msg s)) <> "".
Proof. intros H. simpl. apply keep_first_nonempty, H. Qed.

Lemma SetError_logged msg s :
  mLog (snd (SetError msg s)) = (mLog s ++ [LogError msg])%list.
Proof. unfold SetError, keep_first, log. simpl. now destruct (String.eqb _ _). Qed.

Lemma SetWarning_logged msg s :
  mLog (snd (SetWarning msg s)) = (mLog s ++ [LogWarning msg])%list.
Proof. unfold SetWarning, keep_first, log. simpl. now destruct (String.eqb _ _). Qed.

Lemma SetWarning_result msg s :
  mUpdateResult (snd (SetWarning msg s)) = mUpdateResult s.
Proof. unfold SetWarning, keep_first, log. simpl. now destruct (String.eqb _ _). Qed.

(** ** The host project is read, not written, while the document is parsed *)

Lemma keep_first_mProject msg s : mProject (keep_first msg s) = mProject s.
Proof. unfold keep_first. now destruct (String.eqb _ _). Qed.

Lemma SetError_mProject msg s : mProject (snd (SetError msg s)) = mProject s.
Proof. simpl. now rewrite keep_first_mProject. Qed.

Lemma SetWarning_mProject msg s :
  mProject (snd (SetWarning msg s)) = mProject s.
Proof. simpl. now rewrite keep_first_mProject. Qed.

Lemma HandleProject_projname_mProject value s :
  mProject (snd (HandleProject_projname E value s)) = mProject s.
Proof. unfold HandleProject_projname. crunch. Qed.

Lemma HandleProject_attr_mProject attr value n s :
  mProject (snd (HandleProject_attr E attr value n s)) = mProject s.
Proof.
  unfold HandleProject_attr, set_attr.
  repeat (break_match; simpl; rewrite ?keep_first_mProject; try reflexivity).
  all: try (rewrite <- (HandleProject_projname_mProject value s);
            match goal with H : HandleProject_projname _ _ _ = _ |- _ =>
              now rewrite H end).
Qed.

Lemma HandleProject_loop_mProject attrs n s :
  mProject (snd (HandleProject_loop E attrs n s)) = mProject s.
Proof.
  revert n s. induction attrs as [|[attr value] rest IH]; intros n s; simpl.
  - reflexivity.
  - pose proof (HandleProject_attr_mProject attr value n s) as Hstep.
    destruct (HandleProject_attr E attr value n s) as [[go n'] s'].
    simpl in Hstep. destruct go; simpl; [rewrite IH|]; exact Hstep.
Qed.

Lemma HandleProject_host s : keeps_host s (HandleProject E s).
Proof.
  intros b hd s' H. unfold HandleProject in H.
  pose proof (HandleProject_loop_mProject (mAttrs s) 0 s) as Hl.
  destruct (HandleProject_loop E (mAttrs s) 0 s) as [[go n] s1].
  simpl in Hl. unfold reject, accept in H. crunch.
Qed.

Lemma HandleLabelTrack_host s : keeps_host s (HandleLabelTrack s).
Proof. intros b hd s' H. unfold HandleLabelTrack in H. crunch. Qed.

Lemma HandleNoteTrack_host s : keeps_host s (HandleNoteTrack E s).
Proof. intros b hd s' H. unfold HandleNoteTrack in H. crunch. Qed.

Lemma HandleTimeTrack_host s : keeps_host s (HandleTimeTrack s).
Proof. intros b hd s' H. unfold HandleTimeTrack in H. crunch. Qed.

Lemma HandleWaveTrack_host s : keeps_host s (HandleWaveTrack s).
Proof. intros b hd s' H. unfold HandleWaveTrack in H. crunch. Qed.

Lemma HandleTags_loop_mProject attrs s :
  mProject (snd (HandleTags_loop E attrs s)) = mProject s.
Proof.
  revert s. induction attrs as [|[attr value] rest IH]; intros s; simpl.
  - reflexivity.
  - repeat (break_match; simpl; rewrite ?IH; try reflexivity).
Qed.

Lemma HandleTags_host s : keeps_host s (HandleTags E s).
Proof.
  intros b hd s' H. unfold HandleTags in H.
  pose proof (HandleTags_loop_mProject (mAttrs s) s) as Hl.
  destruct (HandleTags_loop E (mAttrs s) s) as [ok s1]. simpl in Hl.
  unfold reject, accept in H. crunch.
Qed.

Lemma HandleTag_host s : keeps_host s (HandleTag E s).
Proof. intros b hd s' H. unfold HandleTag, reject, accept in H. crunch. Qed.

Lemma HandleLabel_host s : keeps_host s (HandleLabel s).
Proof.
  intros b hd s' H. unfold HandleLabel, reject, accept in H.
  destruct (back s); crunch.
Qed.

Lemma HandleWaveClip_host s : keeps_host s (HandleWaveClip s).
Proof.
  intros b hd s' H. unfold HandleWaveClip, reject, accept in H.
  destruct (back s) as [nd|]; simpl in H; [|discriminate].
  destruct (String.eqb (mParentTag s) "wavetrack").
  - destruct (as_kind WaveTrackK s (handler nd)); simpl in H; crunch.
  - destruct (String.eqb (mParentTag s) "waveclip").
    + destruct (as_kind WaveClipK s (handler nd)); simpl in H; crunch.
    + crunch.
Qed.

Lemma HandleEnvelope_host s : keeps_host s (HandleEnvelope E s).
Proof.
  intros b hd s' H. unfold HandleEnvelope, RightmostOrNewClip in H.
  destruct (back s) as [nd|]; simpl in H; [|discriminate].
  destruct (String.eqb (mParentTag s) "timetrack").
  { destruct (handler nd) as [h0|]; [|crunch].
    destruct (as_kind TimeTrackK s (Some h0)); simpl in H; crunch. }
  destruct (String.eqb (mParentTag s) "wavetrack").
  { destruct (as_kind WaveTrackK s (ObjH <$> mWaveTrack s)) as [t|];
      simpl in H; [|discriminate].
    destruct (clips_of s t); crunch. }
  destruct (String.eqb (mParentTag s) "waveclip").
  { destruct (as_kind WaveClipK s (handler nd)); simpl in H; crunch. }
  crunch.
Qed.

Lemma HandleControlPoint_host s : keeps_host s (HandleControlPoint s).
Proof.
  intros b hd s' H. unfold HandleControlPoint in H.
  destruct (back s) as [nd|]; simpl in H; [|discriminate]. crunch.
Qed.

Lemma HandleSequence_attr_mProject attr value s :
  mProject (snd (HandleSequence_attr E attr value s)) = mProject s.
Proof.
  unfold HandleSequence_attr.
  repeat (break_match; simpl; rewrite ?keep_first_mProject; try reflexivity).
Qed.

Lemma HandleSequence_loop_mProject attrs s :
  mProject (snd (HandleSequence_loop E attrs s)) = mProject s.
Proof.
  revert s. induction attrs as [|[attr value] rest IH]; intros s; simpl.
  - reflexivity.
  - pose proof (HandleSequence_attr_mProject attr value s) as Hstep.
    destruct (HandleSequence_attr E attr value s) as [go s1].
    simpl in Hstep. destruct go; simpl; [rewrite IH|]; exact Hstep.
Qed.

Lemma HandleSequence_host s : keeps_host s (HandleSequence E s).
Proof.
  intros b hd s' H. unfold HandleSequence in H.
  destruct (back s); simpl in H; [|discriminate].
  pose proof (HandleSequence_loop_mProject (mAttrs s) s) as Hl.
  destruct (HandleSequence_loop E (mAttrs s) s) as [ok s1]. simpl in Hl.
  crunch.
Qed.

Lemma HandleWaveBlock_loop_mProject attrs s :
  mProject (snd (HandleWaveBlock_loop E attrs s)) = mProject s.
Proof.
  revert s. induction attrs as [|[attr value] rest IH]; intros s; simpl.
  - reflexivity.
  - repeat (break_match; simpl;
            rewrite ?IH, ?keep_first_mProject; try reflexivity).
Qed.

Lemma HandleWaveBlock_host s : keeps_host s (HandleWaveBlock E s).
Proof.
  intros b hd s' H. unfold HandleWaveBlock in H.
  pose proof (HandleWaveBlock_loop_mProject (mAttrs s) s) as Hl.
  destruct (HandleWaveBlock_loop E (mAttrs s) s) as [ok s1]. simpl in Hl.
  crunch.
Qed.

Lemma HandleSimpleBlockFile_loop_mProject attrs filename len s :
  mProject (snd (HandleSimpleBlockFile_loop E attrs filename len s))
  = mProject s.
Proof.
  revert filename len s.
  induction attrs as [|[attr value] rest IH]; intros filename len s; simpl.
  - reflexivity.
  - repeat (break_match; simpl;
            rewrite ?IH, ?keep_first_mProject; try reflexivity).
Qed.

Lemma HandleSimpleBlockFile_host s : keeps_host s (HandleSimpleBlockFile E s).
Proof.
  intros b hd s' H. unfold HandleSimpleBlockFile in H.
  pose proof (HandleSimpleBlockFile_loop_mProject (mAttrs s) "" 0 s) as Hl.
  destruct (HandleSimpleBlockFile_loop E (mAttrs s) "" 0 s) as [r s1].
  simpl in Hl. unfold AddFile in H. crunch.
Qed.

Lemma HandleSilentBlockFile_loop_mProject attrs len s :
  mProject (snd (HandleSilentBlockFile_loop E attrs len s)) = mProject s.
Proof.
  revert len s.
  induction attrs as [|[attr value] rest IH]; intros len s; simpl.
  - reflexivity.
  - repeat (break_match; simpl;
            rewrite ?IH, ?keep_first_mProject; try reflexivity).
Qed.

Lemma HandleSilentBlockFile_host s : keeps_host s (HandleSilentBlockFile E s).
Proof.
  intros b hd s' H. unfold HandleSilentBlockFile in H.
  pose proof (HandleSilentBlockFile_loop_mProject (mAttrs s) 0 s) as Hl.
  destruct (HandleSilentBlockFile_loop E (mAttrs s) 0 s) as [r s1].
  simpl in Hl. unfold AddFile in H. crunch.
Qed.

Lemma HandlePCMAliasBlockFile_loop_mProject attrs a s :
  mProject (snd (HandlePCMAliasBlockFile_loop E attrs a s)) = mProject s.
Proof.
  revert a s.
  induction attrs as [|[attr value] rest IH]; intros a s; simpl.
  - reflexivity.
  - repeat (break_match; simpl;
            rewrite ?IH, ?keep_first_mProject; try reflexivity).
Qed.

Lemma HandlePCMAliasBlockFile_host s :
  keeps_host s (HandlePCMAliasBlockFile E s).
Proof.
  intros b hd s' H. unfold HandlePCMAliasBlockFile in H.
  pose proof (HandlePCMAliasBlockFile_loop_mProject (mAttrs s)
                (mkAlias (mkFileName [] "" "") 0 0 0) s) as Hl.
  destruct (HandlePCMAliasBlockFile_loop E (mAttrs s) _ s) as [r s1].
  simpl in Hl. unfold AddFile in H. crunch.
Qed.

Lemma dispatch_host s : keeps_host s (dispatch E s).
Proof.
  unfold dispatch.
  repeat match goal with
         | |- keeps_host _ (if ?c then _ else _) => destruct c
         end;
    auto using HandleProject_host, HandleLabelTrack_host,
      HandleNoteTrack_host, HandleTimeTrack_host, HandleWaveTrack_host,
      HandleTags_host, HandleTag_host, HandleLabel_host, HandleWaveClip_host,
      HandleSequence_host, HandleWaveBlock_host, HandleEnvelope_host,
      HandleControlPoint_host, HandleSimpleBlockFile_host,
      HandleSilentBlockFile_host, HandlePCMAliasBlockFile_host.
  intros b hd s' H. crunch.
Qed.

Lemma child_tag_mProject hd t attrs s b s' :
  child_tag E hd t attrs s = Some (b, s') -> mProject s' = mProject s.
Proof.
  unfold child_tag. destruct (handler_class s hd); simpl; [|discriminate].
  destruct (child_HandleXMLTag E _ t attrs); intros H; invc H;
    [destruct hd|]; reflexivity.
Qed.

Lemma HandleXMLTag_mProject t attrs s b s' :
  HandleXMLTag E t attrs s = Some (b, s') -> mProject s' = mProject s.
Proof.
  unfold HandleXMLTag.
  destruct (is_Success (mUpdateResult s)); simpl; [|intros H; now invc H].
  set (s0 := set_mAttrs attrs _).
  pose proof (dispatch_host s0) as Hd.
  destruct (dispatch E s0) as [[[success hd] s1]|]; simpl; [|discriminate].
  specialize (Hd _ _ _ eq_refl). unfold s0 in Hd. simpl in Hd. clearbody s0.
  destruct success; simpl.
  - destruct hd as [h0|].
    + destruct (child_tag E h0 t attrs s1) as [[ok s2]|] eqn:Hc;
        [|discriminate].
      apply child_tag_mProject in Hc.
      destruct ok; intros H; invc H; unfold push, log; simpl;
        rewrite ?keep_first_mProject; simpl; now rewrite Hc.
    + intros H; invc H. exact Hd.
  - intros H; invc H. simpl. now rewrite keep_first_mProject.
Qed.

Lemma child_end_mProject hd t s s' :
  child_end hd t s = Some s' -> mProject s' = mProject s.
Proof.
  unfold child_end. destruct (handler_class s hd); simpl; [|discriminate].
  destruct hd; intros H; now invc H.
Qed.

Lemma HandleXMLEndTag_mProject t s s' :
  HandleXMLEndTag t s = Some s' -> mProject s' = mProject s.
Proof.
  unfold HandleXMLEndTag.
  destruct (is_Success (mUpdateResult s)); simpl; [|intros H; now invc H].
  destruct (back s) as [nd|]; simpl; [|discriminate].
  destruct (String.eqb t "waveclip").
  - destruct (as_kind WaveClipK s (handler nd)) as [c|]; simpl;
      [|discriminate].
    destruct (child_end (ObjH c) t _) as [s1|] eqn:Hc; simpl; [|discriminate].
    apply child_end_mProject in Hc. simpl in Hc.
    destruct (tail (mHandlers s1)); intros H; invc H; exact Hc.
  - destruct (handler nd) as [h0|].
    + destruct (child_end h0 t s) as [s1|] eqn:Hc; simpl; [|discriminate].
      apply child_end_mProject in Hc.
      destruct (tail (mHandlers s1)); intros H; invc H; exact Hc.
    + simpl. destruct (tail (mHandlers s)); intros H; invc H; reflexivity.
Qed.

Lemma feed_mProject evs s b s' :
  feed E evs s = Some (b, s') -> mProject s' = mProject s.
Proof.
  revert s. induction evs as [|[t attrs|t] rest IH]; intros s; simpl.
  - intros H; now invc H.
  - destruct (HandleXMLTag E t attrs s) as [[ok s1]|] eqn:Ht; [|discriminate].
    apply HandleXMLTag_mProject in Ht.
    destruct ok; [intros H; apply IH in H|intros H; invc H];
      now rewrite <- Ht.
  - destruct (HandleXMLEndTag t s) as [s1|] eqn:Ht; [|discriminate].
    apply HandleXMLEndTag_mProject in Ht.
    intros H; apply IH in H; now rewrite <- Ht.
Qed.

(** ** A tag rule that accepts has raised no error *)

Lemma keep_first_mUpdateResult msg s :
  mUpdateResult (keep_first msg s) = mUpdateResult s.
Proof. unfold keep_first. now destruct (String.eqb _ _). Qed.

Lemma HandleProject_attr_result attr value n s :
  fst (fst (HandleProject_attr E attr value n s)) = true ->
  mUpdateResult (snd (HandleProject_attr E attr value n s)) = mUpdateResult s.
Proof.
  unfold HandleProject_attr, set_attr, HandleProject_projname.
  repeat (break_match; simpl; try reflexivity; try discriminate);
    intros _; crunch.
Qed.

Lemma HandleProject_loop_result attrs n s :
  fst (fst (HandleProject_loop E attrs n s)) = true ->
  mUpdateResult (snd (HandleProject_loop E attrs n s)) = mUpdateResult s.
Proof.
  revert n s. induction attrs as [|[attr value] rest IH]; intros n s; simpl.
  - reflexivity.
  - pose proof (HandleProject_attr_result attr value n s) as Hstep.
    destruct (HandleProject_attr E attr value n s) as [[go n'] s'].
    simpl in Hstep. destruct go; simpl; [|discriminate].
    intros H. rewrite (IH _ _ H). now apply Hstep.
Qed.

Lemma HandleProject_result s : keeps_result s (HandleProject E s).
Proof.
  intros hd s' H. unfold HandleProject in H.
  pose proof (HandleProject_loop_result (mAttrs s) 0 s) as Hl.
  destruct (HandleProject_loop E (mAttrs s) 0 s) as [[go n] s1].
  simpl in Hl. destruct go; simpl in H; [|discriminate].
  destruct (n <? 3)%Z; invc H. now apply Hl.
Qed.

Lemma HandleTags_loop_result attrs s :
  mUpdateResult (snd (HandleTags_loop E attrs s)) = mUpdateResult s.
Proof.
  revert s. induction attrs as [|[attr value] rest IH]; intros s; simpl.
  - reflexivity.
  - repeat (break_match; simpl; rewrite ?IH; try reflexivity).
Qed.

Lemma HandleTags_result s : keeps_result s (HandleTags E s).
Proof.
  intros hd s' H. unfold HandleTags in H.
  pose proof (HandleTags_loop_result (mAttrs s) s) as Hl.
  destruct (HandleTags_loop E (mAttrs s) s) as [ok s1]. simpl in Hl.
  crunch.
Qed.

Lemma HandleSequence_attr_result attr value s :
  fst (HandleSequence_attr E attr value s) = true ->
  mUpdateResult (snd (HandleSequence_attr E attr value s)) = mUpdateResult s.
Proof.
  unfold HandleSequence_attr.
  repeat (break_match; simpl; try reflexivity; try discriminate).
Qed.

Lemma HandleSequence_loop_result attrs s :
  fst (HandleSequence_loop E attrs s) = true ->
  mUpdateResult (snd (HandleSequence_loop E attrs s)) = mUpdateResult s.
Proof.
  revert s. induction attrs as [|[attr value] rest IH]; intros s; simpl.
  - reflexivity.
  - pose proof (HandleSequence_attr_result attr value s) as Hstep.
    destruct (HandleSequence_attr E attr value s) as [go s1].
    simpl in Hstep. destruct go; simpl; [|discriminate].
    intros H. rewrite (IH _ H). now apply Hstep.
Qed.

Lemma HandleSequence_result s : keeps_result s (HandleSequence E s).
Proof.
  intros hd s' H. unfold HandleSequence in H.
  destruct (back s); simpl in H; [|discriminate].
  pose proof (HandleSequence_loop_result (mAttrs s) s) as Hl.
  destruct (HandleSequence_loop E (mAttrs s) s) as [ok s1]. simpl in Hl.
  destruct ok; invc H. now apply Hl.
Qed.

Lemma HandleWaveBlock_loop_result attrs s :
  fst (HandleWaveBlock_loop E attrs s) = true ->
  mUpdateResult (snd (HandleWaveBlock_loop E attrs s)) = mUpdateResult s.
Proof.
  revert s. induction attrs as [|[attr value] rest IH]; intros s; simpl.
  - reflexivity.
  - repeat (break_match; simpl; try discriminate; try apply IH).
Qed.

Lemma HandleWaveBlock_result s : keeps_result s (HandleWaveBlock E s).
Proof.
  intros hd s' H. unfold HandleWaveBlock in H.
  pose proof (HandleWaveBlock_loop_result (mAttrs s) s) as Hl.
  destruct (HandleWaveBlock_loop E (mAttrs s) s) as [ok s1]. simpl in Hl.
  destruct ok; invc H. now apply Hl.
Qed.

Lemma HandleSimpleBlockFile_loop_result attrs filename len s :
  is_Some (fst (HandleSimpleBlockFile_loop E attrs filename len s)) ->
  mUpdateResult (snd (HandleSimpleBlockFile_loop E attrs filename len s))
  = mUpdateResult s.
Proof.
  revert filename len s.
  induction attrs as [|[attr value] rest IH]; intros filename len s; simpl.
  - reflexivity.
  - repeat (break_match; simpl); intros H;
      try (now destruct H as [? H]; discriminate H);
      rewrite ?(IH _ _ _ H); simpl;
      rewrite ?keep_first_mUpdateResult; reflexivity.
Qed.

Lemma HandleSimpleBlockFile_result s :
  keeps_result s (HandleSimpleBlockFile E s).
Proof.
  intros hd s' H. unfold HandleSimpleBlockFile in H.
  pose proof (HandleSimpleBlockFile_loop_result (mAttrs s) "" 0 s) as Hl.
  destruct (HandleSimpleBlockFile_loop E (mAttrs s) "" 0 s) as [[[f l]|] s1];
    invc H. simpl in *. now apply Hl.
Qed.

Lemma HandleSilentBlockFile_loop_result attrs len s :
  is_Some (fst (HandleSilentBlockFile_loop E attrs len s)) ->
  mUpdateResult (snd (HandleSilentBlockFile_loop E attrs len s))
  = mUpdateResult s.
Proof.
  revert len s.
  induction attrs as [|[attr value] rest IH]; intros len s; simpl.
  - reflexivity.
  - repeat (break_match; simpl); intros H;
      try (now destruct H as [? H]; discriminate H);
      rewrite ?(IH _ _ H); reflexivity.
Qed.

Lemma HandleSilentBlockFile_result s :
  keeps_result s (HandleSilentBlockFile E s).
Proof.
  intros hd s' H. unfold HandleSilentBlockFile in H.
  pose proof (HandleSilentBlockFile_loop_result (mAttrs s) 0 s) as Hl.
  destruct (HandleSilentBlockFile_loop E (mAttrs s) 0 s) as [[l|] s1];
    invc H. simpl in *. now apply Hl.
Qed.

Lemma HandlePCMAliasBlockFile_loop_result attrs a s :
  is_Some (fst (HandlePCMAliasBlockFile_loop E attrs a s)) ->
  mUpdateResult (snd (HandlePCMAliasBlockFile_loop E attrs a s))
  = mUpdateResult s.
Proof.
  revert a s.
  induction attrs as [|[attr value] rest IH]; intros a s; simpl.
  - reflexivity.
  - repeat (break_match; simpl); intros H;
      try (now destruct H as [? H]; discriminate H);
      rewrite ?(IH _ _ H); simpl;
      rewrite ?keep_first_mUpdateResult; reflexivity.
Qed.

Lemma HandlePCMAliasBlockFile_result s :
  keeps_result s (HandlePCMAliasBlockFile E s).
Proof.
  intros hd s' H. unfold HandlePCMAliasBlockFile in H.
  pose proof (HandlePCMAliasBlockFile_loop_result (mAttrs s)
                (mkAlias (mkFileName [] "" "") 0 0 0) s) as Hl.
  destruct (HandlePCMAliasBlockFile_loop E (mAttrs s) _ s) as [[l|] s1];
    invc H. simpl in *. now apply Hl.
Qed.

Lemma dispatch_result s : keeps_result s (dispatch E s).
Proof.
  unfold dispatch.
  repeat match goal with
         | |- keeps_result _ (if ?c then _ else _) => destruct c
         end;
    auto using HandleProject_result, HandleTags_result,
      HandleSequence_result, HandleWaveBlock_result,
      HandleSimpleBlockFile_result, HandleSilentBlockFile_result,
      HandlePCMAliasBlockFile_result.
  all: intros hd s' H.
  all: unfold HandleLabelTrack, HandleNoteTrack, HandleTimeTrack,
         HandleWaveTrack, HandleTag, HandleLabel, HandleWaveClip,
         HandleEnvelope, RightmostOrNewClip, HandleControlPoint in H;
       crunch.
Qed.

(** ** The dispatcher: accepted tags keep [Success], refused tags are
    fatal, and nothing happens after a failure *)

Lemma child_tag_result hd t attrs s b s' :
  child_tag E hd t attrs s = Some (b, s') ->
  mUpdateResult s' = mUpdateResult s /\ mErrorMsg s' = mErrorMsg s
  /\ mLog s' = mLog s /\ mTracks s' = mTracks s.
Proof.
  unfold child_tag. destruct (handler_class s hd); simpl; [|discriminate].
  destruct (child_HandleXMLTag E _ t attrs); intros H; invc H;
    [destruct hd|]; auto.
Qed.

Lemma HandleXMLTag_accepts t attrs s s' :
  HandleXMLTag E t attrs s = Some (true, s') ->
  mUpdateResult s = Success /\ mUpdateResult s' = Success.
Proof.
  unfold HandleXMLTag.
  destruct (mUpdateResult s) eqn:Hs; simpl; try discriminate.
  set (s0 := set_mAttrs attrs _).
  pose proof (dispatch_result s0) as Hd.
  destruct (dispatch E s0) as [[[success hd] s1]|]; simpl; [|discriminate].
  destruct success; simpl; [|discriminate].
  specialize (Hd _ _ eq_refl). unfold s0 in Hd. simpl in Hd. clearbody s0.
  destruct hd as [h0|].
  - destruct (child_tag E h0 t attrs s1) as [[ok s2]|] eqn:Hc;
      [|discriminate].
    apply child_tag_result in Hc. destruct Hc as [Hc _].
    destruct ok; intros H; invc H. split; [reflexivity|].
    unfold push. simpl. rewrite Hc, Hd. exact Hs.
  - intros H; invc H. split; [reflexivity|].
    unfold push. simpl. rewrite Hd. exact Hs.
Qed.

Lemma HandleXMLTag_refuses t attrs s s' :
  mUpdateResult s = Success ->
  HandleXMLTag E t attrs s = Some (false, s') ->
  mUpdateResult s' = Failed /\ mErrorMsg s' <> ""
  /\ exists s1, mLog s' = (mLog s1 ++ [LogError not_recognized])%list.
Proof.
  unfold HandleXMLTag. intros ->. simpl.
  destruct (dispatch E _) as [[[success hd] s1]|]; simpl; [|discriminate].
  assert (Hne : not_recognized <> "") by discriminate.
  destruct success; simpl.
  - destruct hd as [h0|]; [|discriminate].
    destruct (child_tag E h0 t attrs s1) as [[ok s2]|]; [|discriminate].
    destruct ok; intros H; invc H.
    split; [reflexivity|]. split; [now apply keep_first_nonempty|].
    exists s2. apply (SetError_logged not_recognized s2).
  - intros H; invc H.
    split; [reflexivity|]. split; [now apply keep_first_nonempty|].
    exists s1. apply (SetError_logged not_recognized s1).
Qed.

(** Once the result is not [Success] the dispatcher does nothing: it does
    not matter whether the tokenizer stops or goes on. *)
Lemma HandleXMLTag_after_failure t attrs s :
  mUpdateResult s <> Success -> HandleXMLTag E t attrs s = Some (false, s).
Proof.
  unfold HandleXMLTag. destruct (mUpdateResult s); simpl; congruence.
Qed.

Lemma HandleXMLEndTag_after_failure t s :
  mUpdateResult s <> Success -> HandleXMLEndTag t s = Some s.
Proof.
  unfold HandleXMLEndTag. destruct (mUpdateResult s); simpl; congruence.
Qed.

Lemma child_end_result hd t s s' :
  child_end hd t s = Some s' -> mUpdateResult s' = mUpdateResult s.
Proof.
  unfold child_end. destruct (handler_class s hd); simpl; [|discriminate].
  destruct hd; intros H; now invc H.
Qed.

Lemma HandleXMLEndTag_result t s s' :
  HandleXMLEndTag t s = Some s' -> mUpdateResult s' = mUpdateResult s.
Proof.
  unfold HandleXMLEndTag.
  destruct (is_Success (mUpdateResult s)); simpl; [|intros H; now invc H].
  destruct (back s) as [nd|]; simpl; [|discriminate].
  destruct (String.eqb t "waveclip").
  - destruct (as_kind WaveClipK s (handler nd)) as [c|]; simpl;
      [|discriminate].
    destruct (child_end (ObjH c) t _) as [s1|] eqn:Hc; simpl; [|discriminate].
    apply child_end_result in Hc. simpl in Hc.
    destruct (tail (mHandlers s1)); intros H; invc H; exact Hc.
  - destruct (handler nd) as [h0|].
    + destruct (child_end h0 t s) as [s1|] eqn:Hc; simpl; [|discriminate].
      apply child_end_result in Hc.
      destruct (tail (mHandlers s1)); intros H; invc H; exact Hc.
    + simpl. destruct (tail (mHandlers s)); intros H; invc H; reflexivity.
Qed.

Lemma feed_accepts evs s s' :
  mUpdateResult s = Success -> feed E evs s = Some (true, s') ->
  mUpdateResult s' = Success.
Proof.
  revert s. induction evs as [|[t attrs|t] rest IH]; intros s Hs; simpl.
  - intros H; now invc H.
  - destruct (HandleXMLTag E t attrs s) as [[ok s1]|] eqn:Ht; [|discriminate].
    destruct ok; [|discriminate].
    apply HandleXMLTag_accepts in Ht. destruct Ht as [_ Ht]. now apply IH.
  - destruct (HandleXMLEndTag t s) as [s1|] eqn:Ht; [|discriminate].
    apply HandleXMLEndTag_result in Ht. apply IH. now rewrite Ht.
Qed.

Lemma feed_refuses evs s s' :
  mUpdateResult s = Success -> feed E evs s = Some (false, s') ->
  mUpdateResult s' = Failed /\ mErrorMsg s' <> "".
Proof.
  revert s. induction evs as [|[t attrs|t] rest IH]; intros s Hs; simpl.
  - discriminate.
  - destruct (HandleXMLTag E t attrs s) as [[ok s1]|] eqn:Ht; [|discriminate].
    destruct ok.
    + apply HandleXMLTag_accepts in Ht. destruct Ht as [_ Ht]. now apply IH.
    + intros H; invc H.
      destruct (HandleXMLTag_refuses _ _ _ _ Hs Ht) as (H1 & H2 & _). auto.
  - destruct (HandleXMLEndTag t s) as [s1|] eqn:Ht; [|discriminate].
    apply HandleXMLEndTag_result in Ht. apply IH. now rewrite Ht.
Qed.

Lemma feed_app pre rest s s1 :
  feed E pre s = Some (true, s1) ->
  feed E (pre ++ rest) s = feed E rest s1.
Proof.
  revert s. induction pre as [|[t attrs|t] pre IH]; intros s; simpl.
  - intros H; now invc H.
  - destruct (HandleXMLTag E t attrs s) as [[[] s2]|]; try discriminate.
    apply IH.
  - destruct (HandleXMLEndTag t s) as [s2|]; try discriminate. apply IH.
Qed.

(** ** The resolver touches clips and tracks, the log and nothing else *)

Lemma same_frame_refl s : same_frame s s.
Proof. repeat split. Qed.

Lemma same_frame_trans s1 s2 s3 :
  same_frame s1 s2 -> same_frame s2 s3 -> same_frame s1 s3.
Proof.
  unfold same_frame.
  intros (a1 & a2 & a3 & a4 & a5 & a6 & a7 & a8 & a9)
         (b1 & b2 & b3 & b4 & b5 & b6 & b7 & b8 & b9).
  rewrite b1, b2, b3, b4, b5, b6, b7, b8, b9. auto 10.
Qed.

Lemma SetWarning_frame msg s : same_frame s (snd (SetWarning msg s)).
Proof.
  unfold SetWarning, keep_first, log. simpl.
  destruct (String.eqb _ _); repeat split.
Qed.

Lemma InsertSilence_frame p len s s' :
  InsertSilence p len s = Some s' -> same_frame s s'.
Proof.
  unfold InsertSilence. intros H. apply bind_Some in H as (_ & _ & H).
  invc H. repeat split.
Qed.

Lemma AddSilence_frame len s b s' :
  AddSilence len s = Some (b, s') -> b = true /\ same_frame s s'.
Proof.
  unfold AddSilence. intros H.
  destruct (mClip s) as [c|].
  - apply bind_Some in H as (_ & _ & H). apply bind_Some in H as (_ & _ & H).
    apply bind_Some in H as (s1 & Hi & H). invc H.
    split; [reflexivity|]. eapply InsertSilence_frame, Hi.
  - destruct (mWaveTrack s) as [t|].
    + apply bind_Some in H as (_ & _ & H).
      apply bind_Some in H as (s1 & Hi & H). invc H.
      split; [reflexivity|]. eapply InsertSilence_frame, Hi.
    + invc H. split; [reflexivity|apply same_frame_refl].
Qed.

Lemma give_silence_frame msg filename len s b s' :
  give_silence msg filename len s = Some (b, s') ->
  b = true /\ same_frame s s'.
Proof.
  unfold give_silence. intros H. apply AddSilence_frame in H.
  destruct H as [-> H]. split; [reflexivity|].
  eapply same_frame_trans; [apply SetWarning_frame|].
  eapply same_frame_trans; [apply SetWarning_frame|]. exact H.
Qed.

Lemma Append_Flush_frame p format buf s s' :
  Append_Flush p format buf s = Some s' -> same_frame s s'.
Proof.
  unfold Append_Flush. intros H. apply bind_Some in H as (_ & _ & H).
  invc H. repeat split.
Qed.

Lemma Append_to_owner_frame format buf s s' :
  Append_to_owner format buf s = Some s' -> same_frame s s'.
Proof.
  unfold Append_to_owner.
  destruct (mClip s); [apply Append_Flush_frame|].
  destruct (mWaveTrack s); [apply Append_Flush_frame|].
  intros H; invc H. apply same_frame_refl.
Qed.

(** [AddSamples] returns [true] on every path: no failure of a block is
    passed on. *)
Lemma AddSamples_frame filename len origin chan s b s' :
  AddSamples E filename len origin chan s = Some (b, s') ->
  b = true /\ same_frame s s'.
Proof.
  unfold AddSamples. intros H.
  destruct (wxFile_Open E filename); simpl in H;
    [|now apply give_silence_frame in H].
  destruct (sf_open_fd E filename) as [info|];
    [|now apply give_silence_frame in H].
  destruct ((origin >? 0)%Z && _); [now apply give_silence_frame in H|].
  apply bind_Some in H as (format & Hf & H).
  destruct (decode E _ _ _ _ _ _ _) as [| |buf]; [discriminate| |].
  - now apply give_silence_frame in H.
  - apply bind_Some in H as (s1 & Ha & H).
    invc H. split; [reflexivity|]. eapply Append_to_owner_frame, Ha.
Qed.

(** How the loop over the descriptors ends: by [return mUpdateResult] with
    a result that is not [Success] and the local tracks still in place, or
    at its end with the result the parser left (no descriptor) or
    [Success] (the last [Update]). *)
Lemma resolve_loop_frame files i processed s r s' :
  resolve_loop E files i processed s = Some (r, s') ->
  mProject s' = mProject s /\ mTracks s' = mTracks s
  /\ mProjectAttrs s' = mProjectAttrs s
  /\ match r with
     | Some res => res <> Success /\ mUpdateResult s' = res
     | None => mUpdateResult s' = Success \/ (files = [] /\ s' = s)
     end.
Proof.
  revert i processed s.
  induction files as [|fi rest IH]; intros i processed s; simpl.
  - intros H; invc H. auto 10.
  - destruct (is_Success (ProgressUpdate E i processed (mTotalSamples s)))
      eqn:Hu; simpl.
    + set (s0 := set_mUpdateResult _ s).
      assert (Hstep : forall b s1,
                 resolve_one E fi s0 = Some (b, s1) ->
                 same_frame (set_mWaveTrack (track fi)
                               (set_mClip (clip fi) s0)) s1).
      { intros b s1. unfold resolve_one.
        destruct (String.eqb (path fi) ""); intros H;
          [apply AddSilence_frame in H|apply AddSamples_frame in H];
          apply H. }
      destruct (resolve_one E fi s0) as [[b s1]|]; [|discriminate].
      specialize (Hstep _ _ eq_refl).
      destruct Hstep as (h1 & h2 & h3 & _ & _ & h6 & _).
      unfold s0 in h1, h2, h3, h6. simpl in h1, h2, h3, h6. clearbody s0.
      intros H. apply IH in H. destruct H as (k1 & k2 & k3 & k4).
      rewrite k1, k2, k3, h1, h2, h6. repeat split.
      destruct r as [res|]; [exact k4|].
      left. destruct k4 as [k4|[_ ->]]; [exact k4|].
      rewrite h3. destruct (ProgressUpdate E i processed _);
        simpl in Hu; congruence.
    + intros H; invc H. simpl. repeat split.
      destruct (ProgressUpdate E i processed _); simpl in Hu; congruence.
Qed.

(** ** The driver *)

Lemma Parse_parsed d s ok s' :
  mUpdateResult s = Success -> Parse E d s = Some (ok, s') ->
  parsed s' /\ mProject s' = mProject s
  /\ (ok = true -> mUpdateResult s' = Success).
Proof.
  unfold Parse. intros Hs.
  destruct (feed E (doc_events d) s) as [[b s1]|] eqn:Hf; [|discriminate].
  intros H; invc H. split; [|split].
  - destruct b; [left; eapply feed_accepts|right; eapply feed_refuses];
      eassumption.
  - eapply feed_mProject, Hf.
  - intros Hok. destruct b; [|discriminate]. eapply feed_accepts; eassumption.
Qed.

Lemma log_if_parsed (s : State) (c : bool) (e : LogEntry) :
  parsed s -> parsed (if c then log e s else s).
Proof. destruct c; auto. Qed.

(** After [Parse], every return of [Import] but the last two leaves the
    host project as it was; the last two are reached with [Success]. *)
Lemma Import_after_Parse_cases err dirty success s r s' :
  parsed s ->
  Import_after_Parse E err dirty success s = Some (r, s') ->
  (r <> Success /\ mProject s' = mProject s)
  \/ (r = Success /\ mTracks s' = []
      /\ mProjectAttrs s' = mProjectAttrs s
      /\ mProject s'
         = (if dirty then id
            else fun p => foldl (fun p c => call c p) p
                                (attr_calls E (mProjectAttrs s)))
             (set_tracks (tracks (mProject s) ++ map Imported (mTracks s))
                         (mProject s))).
Proof.
  intros Hp. unfold Import_after_Parse.
  destruct success; simpl; [|intros H; invc H; left; split; [discriminate|reflexivity]].
  set (c := negb (String.eqb (mErrorMsg s) "")).
  set (s0 := if c then _ else s).
  assert (H0 : mProject s0 = mProject s /\ mTracks s0 = mTracks s
               /\ mProjectAttrs s0 = mProjectAttrs s
               /\ mUpdateResult s0 = mUpdateResult s
               /\ mErrorMsg s0 = mErrorMsg s).
  { unfold s0. destruct c; repeat split. }
  destruct H0 as (h1 & h2 & h3 & h4 & h5). clearbody s0.
  destruct (c && is_Failed (mUpdateResult s0)) eqn:Hc.
  { intros H; invc H. left. split; [discriminate|exact h1]. }
  destruct (resolve_loop E (mFiles s0) 0 0 s0) as [[[res|] s1]|] eqn:Hl;
    [| |discriminate].
  - apply resolve_loop_frame in Hl. destruct Hl as (k1 & _ & _ & k4 & _).
    intros H; invc H. left. split; [exact k4|]. now rewrite k1.
  - apply resolve_loop_frame in Hl. destruct Hl as (k1 & k2 & k3 & k4).
    assert (Hs : mUpdateResult s1 = Success).
    { destruct k4 as [k4|[_ ->]]; [exact k4|].
      rewrite h4. destruct Hp as [Hp|[Hp Hm]]; [exact Hp|].
      exfalso. rewrite h4, Hp in Hc. simpl in Hc.
      unfold c in Hc. apply andb_false_iff in Hc.
      destruct Hc as [Hc|Hc]; [|discriminate].
      apply negb_false_iff, String.eqb_eq in Hc. contradiction. }
    rewrite Hs. simpl.
    destruct dirty; intros H; invc H; right; unfold apply_attrs, commit_tracks;
      simpl; rewrite ?k1, ?k2, ?k3, ?h1, ?h2, ?h3; auto.
Qed.

Lemma Import_entry_Success tags s :
  mUpdateResult (Import_entry tags s) = Success
  /\ mProject (Import_entry tags s) = mProject s.
Proof. split; reflexivity. Qed.

(** The host project changes only on the successful return. *)
Lemma Import_commits_only_on_Success tags d s r s' :
  Import E tags d s = Some (r, s') -> r <> Success ->
  mProject s' = mProject s.
Proof.
  unfold Import. intros H Hr.
  destruct (Parse E d (Import_entry tags s)) as [[ok s1]|] eqn:Hp;
    [|discriminate].
  apply Parse_parsed in Hp; [|reflexivity]. destruct Hp as (Hp & Hm & _).
  apply Import_after_Parse_cases in H; [|exact Hp].
  destruct H as [[_ H]|[H _]]; [|contradiction].
  rewrite H. exact Hm.
Qed.

(** When the loop over the descriptors is left by [return mUpdateResult],
    [Import] returns that result with the local tracks still in place. *)
Lemma Import_after_Parse_interrupted err dirty s res s1 :
  (negb (String.eqb (mErrorMsg s) "") && is_Failed (mUpdateResult s)) = false ->
  resolve_loop E (mFiles s) 0 0
    (if negb (String.eqb (mErrorMsg s) "")
     then log (MessageBox (mErrorMsg s)) s else s) = Some (Some res, s1) ->
  Import_after_Parse E err dirty true s = Some (res, s1)
  /\ mTracks s1 = mTracks s /\ mProject s1 = mProject s.
Proof.
  intros Hc Hl. unfold Import_after_Parse. simpl.
  set (c := negb (String.eqb (mErrorMsg s) "")) in *.
  assert (Hc' : c && is_Failed (mUpdateResult (if c then log (MessageBox (mErrorMsg s)) s else s)) = false).
  { destruct c; exact Hc. }
  rewrite Hc'.
  assert (Hf : mFiles (if c then log (MessageBox (mErrorMsg s)) s else s)
               = mFiles s) by now destruct c.
  rewrite Hf, Hl. split; [reflexivity|].
  apply resolve_loop_frame in Hl. destruct Hl as (k1 & k2 & _).
  rewrite k1, k2. destruct c; auto.
Qed.

(** After a [Parse] that succeeded, a return of [Failed] or [Cancelled]
    never comes with the local tracks dropped: the block after the loop
    that clears them on these two results is not reached. *)
Lemma no_discard_after_Parse err dirty s r s' :
  parsed s ->
  Import_after_Parse E err dirty true s = Some (r, s') ->
  r = Failed \/ r = Cancelled ->
  mTracks s' = mTracks s.
Proof.
  intros Hp. unfold Import_after_Parse. simpl.
  set (c := negb (String.eqb (mErrorMsg s) "")).
  set (s0 := if c then _ else s).
  assert (H0 : mTracks s0 = mTracks s /\ mUpdateResult s0 = mUpdateResult s).
  { unfold s0. destruct c; split; reflexivity. }
  destruct H0 as (h2 & h4). clearbody s0.
  destruct (c && is_Failed (mUpdateResult s0)) eqn:Hc.
  { intros H _; invc H. exact h2. }
  destruct (resolve_loop E (mFiles s0) 0 0 s0) as [[[res|] s1]|] eqn:Hl;
    [| |discriminate].
  - apply resolve_loop_frame in Hl. destruct Hl as (_ & k2 & _).
    intros H _; invc H. now rewrite k2.
  - apply resolve_loop_frame in Hl. destruct Hl as (_ & _ & _ & k4).
    assert (Hs : mUpdateResult s1 = Success).
    { destruct k4 as [k4|[_ ->]]; [exact k4|].
      rewrite h4. destruct Hp as [Hp|[Hp Hm]]; [exact Hp|].
      exfalso. rewrite h4, Hp in Hc. simpl in Hc.
      unfold c in Hc. apply andb_false_iff in Hc.
      destruct Hc as [Hc|Hc]; [|discriminate].
      apply negb_false_iff, String.eqb_eq in Hc. contradiction. }
    rewrite Hs. simpl.
    destruct dirty; intros H Hr; injection H as <- _;
      destruct Hr as [Hr|Hr]; discriminate Hr.
Qed.

(** ** Claim C9: the project attributes and the host's view state *)

Lemma attr_calls_in_order a : attr_calls E a = flagged (fields_in_order E a).
Proof.
  unfold attr_calls, flagged, fields_in_order, when. simpl.
  repeat match goal with
         | |- context [if ?c then _ else _] =>
             match c with
             | context [if _ then _ else _] => fail 1
             | _ => destruct c; simpl
             end
         end; reflexivity.
Qed.

Lemma view_calls_foldl cs p :
  view_calls (foldl (fun p c => call c p) p cs) = (view_calls p ++ cs)%list.
Proof.
  revert p. induction cs as [|c cs IH]; intros p; simpl.
  - now rewrite app_nil_r.
  - rewrite IH. simpl. now rewrite <- app_assoc.
Qed.

(** Claim C9.  Let [Import] return [r] and leave the handle in [s'].
    If the host project was dirty when [Import] was entered ([isDirty]:
    its history is dirty or its track list is not empty), the view state
    of the host has received no call at all.  If it was not dirty, the
    view state has received, when the import succeeded, exactly the calls
    of the fields whose present-flag is set, in the order rate, snap-to,
    selection format, audio time format, frequency format, bandwidth
    format, vertical position, horizontal position, zoom, selection
    bounds; and no call when the import did not succeed. *)
Theorem view_state_follows_project_attributes tags d s r s' :
  Import E tags d s = Some (r, s') ->
  (isDirty (mProject s) = true ->
     view_calls (mProject s') = view_calls (mProject s))
  /\ (isDirty (mProject s) = false ->
        view_calls (mProject s')
        = (view_calls (mProject s)
           ++ (if is_Success r
               then flagged (fields_in_order E (mProjectAttrs s'))
               else []))%list).
Proof.
  unfold Import. intros H.
  destruct (Parse E d (Import_entry tags s)) as [[ok s1]|] eqn:Hp;
    [|discriminate].
  apply Parse_parsed in Hp; [|reflexivity]. destruct Hp as (Hp & Hm & _).
  simpl in Hm.
  apply Import_after_Parse_cases in H; [|exact Hp].
  destruct H as [[Hr H]|(-> & _ & Ha & H)].
  - rewrite H, Hm. split; [reflexivity|].
    intros _. destruct r; try contradiction; simpl; now rewrite app_nil_r.
  - rewrite H, Ha, Hm. split; intros ->; simpl; [reflexivity|].
    rewrite view_calls_foldl. simpl. now rewrite attr_calls_in_order.
Qed.

(** ** Claim C3: a bypassed time track *)







(** The other side of the guard: while the host project has no Time
    Track, a [timetrack] tag its track accepts is built, whatever this
    import has built before. *)
Lemma timetrack_is_built_when_the_host_has_none s attrs :
  mUpdateResult s = Success ->
  existsb (is_TimeTrack (objs s)) (tracks (mProject s)) = false ->
  child_HandleXMLTag E (Some TimeTrackK) "timetrack" attrs = true ->
  exists s1,
    HandleXMLTag E "timetrack" attrs s = Some (true, s1)
    /\ mTracks s1 = (mTracks s ++ [length (objs s)])%list
    /\ kind_of s1 (length (objs s)) = Some TimeTrackK
    /\ mHandlers s1
       = mkNode (mCurrentTag s) "timetrack" (Some (ObjH (length (objs s))))
         :: mHandlers s.
Proof.
  intros Hs Htt Hc. unfold HandleXMLTag. rewrite Hs.
  change (negb (is_Success Success)) with false. cbv iota zeta.
  set (s0 := set_mAttrs attrs _).
  assert (Hd : dispatch E s0 = HandleTimeTrack s0) by reflexivity.
  rewrite Hd.
  set (c := length (objs s)).
  set (s1 := set_mTracks (mTracks s ++ [c])
               (set_objs (objs s ++ [new_object TimeTrackK None]) s0)).
  assert (Hw : HandleTimeTrack s0 = Some (true, Some (ObjH c), s1)).
  { unfold HandleTimeTrack.
    change (objs s0) with (objs s). change (mProject s0) with (mProject s).
    rewrite Htt. reflexivity. }
  rewrite Hw. simpl mbind. cbv iota beta. simpl negb. cbv iota.
  assert (Hl : objs s1 !! c = Some (new_object TimeTrackK None)).
  { unfold s1, c. simpl. rewrite lookup_app_r by lia.
    now rewrite Nat.sub_diag. }
  unfold child_tag, handler_class. rewrite Hl. simpl mbind.
  change (okind (new_object TimeTrackK None)) with TimeTrackK.
  rewrite Hc. eexists. split; [reflexivity|].
  split; [reflexivity|]. split; [|reflexivity].
  unfold kind_of, push. simpl. fold c.
  change (okind <$> (alter (add_xml ("timetrack", attrs)) c
                       (objs s ++ [new_object TimeTrackK None])%list !! c)
          = Some TimeTrackK).
  unfold c. rewrite alter_app_r_alt by lia. rewrite Nat.sub_diag.
  rewrite lookup_app_r by lia. now rewrite Nat.sub_diag.
Qed.

(** ** Claim C4: tags the dispatcher refuses *)

Lemma dispatch_refused s :
  refused (mCurrentTag s) (mParentTag s) -> dispatch E s = Some (false, None, s).
Proof.
  intros [Hv|[[Ht Hp]|[Ht Hp]]].
  - unfold dispatch.
    repeat match goal with
           | |- context [String.eqb (mCurrentTag s) ?c] =>
               destruct (String.eqb_spec (mCurrentTag s) c) as [He|_];
               [exfalso; apply Hv; rewrite He; unfold vocabulary; simpl; tauto|]
           end.
    reflexivity.
  - unfold dispatch. rewrite Ht. simpl. unfold HandleLabel.
    apply String.eqb_neq in Hp. now rewrite Hp.
  - unfold dispatch. rewrite Ht. simpl. unfold HandleTag.
    apply String.eqb_neq in Hp. now rewrite Hp.
Qed.

Lemma HandleXMLTag_refused t attrs s :
  mUpdateResult s = Success -> refused t (mCurrentTag s) ->
  HandleXMLTag E t attrs s
  = Some (SetError not_recognized
            (set_mAttrs attrs
               (set_mCurrentTag t (set_mParentTag (mCurrentTag s) s)))).
Proof.
  intros Hs Hr. unfold HandleXMLTag. rewrite Hs. simpl.
  rewrite dispatch_refused; [reflexivity|exact Hr].
Qed.

(** After a fatal error [Import] returns [Failed] and the host project is
    as it was, whatever the tokenizer reported. *)
Lemma Import_after_Parse_Failed err dirty success s :
  mUpdateResult s = Failed -> mErrorMsg s <> "" ->
  exists s', Import_after_Parse E err dirty success s = Some (Failed, s')
             /\ mProject s' = mProject s.
Proof.
  intros Hf Hm. unfold Import_after_Parse.
  destruct success; simpl; [|eexists; split; reflexivity].
  apply String.eqb_neq in Hm. rewrite Hm. simpl. rewrite Hf. simpl.
  eexists; split; reflexivity.
Qed.

Lemma Import_refused_tag tags d pre t attrs post s s1 s2 :
  doc_events d = (pre ++ Open t attrs :: post)%list ->
  feed E pre (Import_entry tags s) = Some (true, s1) ->
  HandleXMLTag E t attrs s1 = Some (false, s2) ->
  exists s', Import E tags d s = Some (Failed, s')
             /\ mProject s' = mProject s /\ mTracks s' = [].
Proof.
  intros Hd Hpre Ht. unfold Import, Parse. rewrite Hd.
  rewrite (feed_app _ _ _ _ Hpre). simpl. rewrite Ht. simpl.
  eexists. split; [reflexivity|]. split; [|reflexivity]. simpl.
  apply HandleXMLTag_mProject in Ht. apply feed_mProject in Hpre.
  rewrite Ht, Hpre. reflexivity.
Qed.

(** Claim C4, as amended.  Let the document be accepted up to an open tag
    whose name the dispatcher has no rule for, or which is a [label] not
    under [labeltrack], or a [tag] not under [tags].  Then the dispatcher
    returns failure for it through [SetError]: the result is [Failed], the
    error is logged, no frame is pushed and no track is added; and
    [Import] returns [Failed] with the host project as it was and the
    local tracks dropped. *)
Theorem refused_tag_is_fatal tags d pre t attrs post s s1 :
  doc_events d = (pre ++ Open t attrs :: post)%list ->
  feed E pre (Import_entry tags s) = Some (true, s1) ->
  refused t (mCurrentTag s1) ->
  exists s2 s',
    HandleXMLTag E t attrs s1 = Some (false, s2)
    /\ mUpdateResult s2 = Failed
    /\ mLog s2 = (mLog s1 ++ [LogError not_recognized])%list
    /\ mErrorMsg s2 <> ""
    /\ mHandlers s2 = mHandlers s1 /\ mTracks s2 = mTracks s1
    /\ Import E tags d s = Some (Failed, s')
    /\ mProject s' = mProject s /\ mTracks s' = [].
Proof.
  intros Hd Hpre Hr.
  assert (Hs : mUpdateResult s1 = Success).
  { eapply feed_accepts; [|exact Hpre]. reflexivity. }
  pose proof (HandleXMLTag_refused t attrs s1 Hs Hr) as Ht.
  destruct (Import_refused_tag _ _ _ _ _ _ _ _ _ Hd Hpre Ht)
    as (s' & Hi & Hp & Hk).
  eexists. exists s'. split; [exact Ht|].
  split; [reflexivity|].
  split; [etransitivity; [apply SetError_logged|reflexivity]|].
  split; [apply SetError_message; discriminate|].
  unfold keep_first. simpl.
  destruct (String.eqb (mErrorMsg s1) ""); auto.
Qed.

(** ** Claim C5: the three attributes of the root tag *)

Lemma HandleProject_attr_counts attr value n s :
  (snd (fst (HandleProject_attr E attr value n s))
   <= n + (if is_required attr then 1 else 0))%Z.
Proof.
  unfold HandleProject_attr, is_required.
  destruct (negb (IsGoodString E value)); simpl; [destruct (_ || _); lia|].
  repeat match goal with
         | |- context [if String.eqb attr ?c then _ else _] =>
             destruct (String.eqb_spec attr c) as [->|?]; simpl
         | |- context [if _ && String.eqb attr ?c then _ else _] =>
             destruct (EXPERIMENTAL_SPECTRAL_EDITING E); simpl
         end;
    repeat (break_match; simpl); try lia.
Qed.

Lemma HandleProject_loop_counts attrs n s :
  (snd (fst (HandleProject_loop E attrs n s)) <= n + required attrs)%Z.
Proof.
  revert n s. induction attrs as [|[attr value] rest IH]; intros n s.
  - unfold required. simpl. lia.
  - simpl. pose proof (HandleProject_attr_counts attr value n s) as Hstep.
    destruct (HandleProject_attr E attr value n s) as [[go n'] s'].
    simpl in Hstep.
    assert (Hr : (required ((attr, value) :: rest)
                  = (if is_required attr then 1 else 0) + required rest)%Z).
    { unfold required. simpl. destruct (is_required attr); simpl; lia. }
    destruct go; simpl.
    + specialize (IH n' s'). lia.
    + unfold required in *. lia.
Qed.

Lemma HandleProject_too_few s :
  (required (mAttrs s) < 3)%Z ->
  exists s', HandleProject E s = Some (false, None, s').
Proof.
  intros Hlt. unfold HandleProject.
  pose proof (HandleProject_loop_counts (mAttrs s) 0 s) as Hc.
  destruct (HandleProject_loop E (mAttrs s) 0 s) as [[go n] s1].
  simpl in Hc. destruct go; simpl; [|eexists; reflexivity].
  assert (Hn : (n <? 3)%Z = true) by (apply Z.ltb_lt; lia).
  rewrite Hn. eexists; reflexivity.
Qed.

Lemma required_count names :
  length (List.filter is_required names)
  = (count_occ string_dec names "version"
     + count_occ string_dec names "audacityversion"
     + count_occ string_dec names "projname")%nat.
Proof.
  induction names as [|a names IH]; [reflexivity|].
  cbn [List.filter count_occ]. unfold is_required at 1.
  destruct (String.eqb_spec a "version") as [->|H1].
  { simpl. rewrite IH. lia. }
  destruct (String.eqb_spec a "audacityversion") as [->|H2].
  { simpl. rewrite IH. lia. }
  destruct (String.eqb_spec a "projname") as [->|H3].
  { simpl. rewrite IH. lia. }
  simpl. rewrite IH.
  destruct (string_dec a "version"); [contradiction|].
  destruct (string_dec a "audacityversion"); [contradiction|].
  destruct (string_dec a "projname"); [contradiction|]. reflexivity.
Qed.

Lemma required_of_distinct attrs :
  List.NoDup (map fst attrs) ->
  ~ (In "version" (map fst attrs) /\ In "audacityversion" (map fst attrs)
     /\ In "projname" (map fst attrs)) ->
  (required attrs < 3)%Z.
Proof.
  intros Hnd Hmiss. unfold required. rewrite required_count.
  pose proof (proj1 (List.NoDup_count_occ string_dec _) Hnd) as Hle.
  pose proof (Hle "version"). pose proof (Hle "audacityversion").
  pose proof (Hle "projname").
  destruct (List.in_dec string_dec "version" (map fst attrs)) as [I1|I1];
    [|apply (List.count_occ_not_In string_dec) in I1; lia].
  destruct (List.in_dec string_dec "audacityversion" (map fst attrs))
    as [I2|I2];
    [|apply (List.count_occ_not_In string_dec) in I2; lia].
  destruct (List.in_dec string_dec "projname" (map fst attrs)) as [I3|I3];
    [|apply (List.count_occ_not_In string_dec) in I3; lia].
  exfalso. apply Hmiss. auto.
Qed.

(** Claim C5.  Let the document open with the root tag ([project] or
    [audacityproject]) and let its attribute list, whose names are distinct
    as in every XML tag, lack at least one of [version], [audacityversion]
    and [projname].  Then [HandleXMLTag] returns failure for the root tag
    with the result set to [Failed], whatever the other attributes are, and
    [Import] returns [Failed] leaving the host project as it was. *)
Theorem root_tag_needs_all_three tags d t attrs rest s :
  doc_events d = Open t attrs :: rest ->
  t = "project" \/ t = "audacityproject" ->
  List.NoDup (map fst attrs) ->
  ~ (In "version" (map fst attrs) /\ In "audacityversion" (map fst attrs)
     /\ In "projname" (map fst attrs)) ->
  exists s1 s',
    HandleXMLTag E t attrs (Import_entry tags s) = Some (false, s1)
    /\ mUpdateResult s1 = Failed
    /\ Import E tags d s = Some (Failed, s')
    /\ mProject s' = mProject s.
Proof.
  intros Hd Ht Hnd Hmiss.
  pose proof (required_of_distinct _ Hnd Hmiss) as Hlt.
  set (s0 := set_mAttrs attrs
               (set_mCurrentTag t
                  (set_mParentTag (mCurrentTag (Import_entry tags s))
                                  (Import_entry tags s)))).
  destruct (HandleProject_too_few s0 Hlt) as (s1 & H1).
  assert (Hx : HandleXMLTag E t attrs (Import_entry tags s)
               = Some (SetError not_recognized s1)).
  { unfold HandleXMLTag.
    change (negb (is_Success (mUpdateResult (Import_entry tags s))))
      with false.
    cbv iota zeta. fold s0. unfold dispatch. cbv zeta.
    assert (Hc : String.eqb (mCurrentTag s0) "project"
                 || String.eqb (mCurrentTag s0) "audacityproject" = true).
    { unfold s0. simpl. destruct Ht as [->| ->]; reflexivity. }
    rewrite Hc, H1. reflexivity. }
  destruct (Import_refused_tag tags d [] t attrs rest s _ _ Hd eq_refl Hx)
    as (s' & Hi & Hp & _).
  eexists. exists s'. split; [exact Hx|]. split; [reflexivity|]. auto.
Qed.

(** ** Claim C6: the bounds of [maxsamples] *)

Lemma HandleSequence_loop_app pre post s s1 :
  HandleSequence_loop E pre s = (true, s1) ->
  HandleSequence_loop E (pre ++ post)%list s = HandleSequence_loop E post s1.
Proof.
  revert s. induction pre as [|[attr value] pre IH]; intros s; simpl.
  - intros H; now invc H.
  - destruct (HandleSequence_attr E attr value s) as [[] s2];
      [apply IH|discriminate].
Qed.

(** Claim C6.  In the attribute list of a [sequence] tag, let the
    attributes before [maxsamples] be accepted and let the value of
    [maxsamples] be a well-formed integer [n >= 0].  The value is accepted,
    and the loop goes on to the remaining attributes, if and only if
    [1024 <= n <= 67108864]; otherwise the loop ends in the fatal error
    "Invalid sequence 'maxsamples' attribute.".  So 1023 and 67108865 are
    fatal, 1024 and 67108864 are accepted. *)
Theorem maxsamples_bounds pre v n post s s1 :
  HandleSequence_loop E pre s = (true, s1) ->
  good_longlong E v = Some n -> (0 <= n)%Z ->
  (fst (HandleSequence_attr E "maxsamples" v s1) = true
   <-> (1024 <= n <= 67108864)%Z)
  /\ ((1024 <= n <= 67108864)%Z ->
      HandleSequence_loop E (pre ++ ("maxsamples", v) :: post)%list s
      = HandleSequence_loop E post s1)
  /\ (~ (1024 <= n <= 67108864)%Z ->
      HandleSequence_loop E (pre ++ ("maxsamples", v) :: post)%list s
      = SetError "Invalid sequence 'maxsamples' attribute." s1)
  /\ (n = 1023%Z \/ n = 67108865%Z ->
      mUpdateResult
        (snd (HandleSequence_loop E (pre ++ ("maxsamples", v) :: post)%list s))
      = Failed)
  /\ (n = 1024%Z \/ n = 67108864%Z ->
      HandleSequence_attr E "maxsamples" v s1 = (true, s1)).
Proof.
  intros Hpre Hv Hn.
  assert (Hstep : HandleSequence_attr E "maxsamples" v s1
                  = if ((n <? 1024) || (n >? 64 * 1024 * 1024))%Z
                    then SetError "Invalid sequence 'maxsamples' attribute." s1
                    else (true, s1)).
  { unfold HandleSequence_attr. simpl. rewrite Hv.
    assert (Hneg : (n <? 0)%Z = false) by (apply Z.ltb_ge; lia).
    now rewrite Hneg. }
  assert (Hin : (1024 <= n <= 67108864)%Z ->
                ((n <? 1024) || (n >? 64 * 1024 * 1024))%Z = false).
  { intros [Ha Hb]. apply orb_false_iff. split; [apply Z.ltb_ge; lia|].
    rewrite Z.gtb_ltb. apply Z.ltb_ge. lia. }
  assert (Hout : ~ (1024 <= n <= 67108864)%Z ->
                 ((n <? 1024) || (n >? 64 * 1024 * 1024))%Z = true).
  { intros Hno. apply orb_true_iff.
    destruct (Z.ltb_spec n 1024) as [|Hge]; [now left|right].
    rewrite Z.gtb_ltb. apply Z.ltb_lt. lia. }
  assert (Hloop : HandleSequence_loop E (pre ++ ("maxsamples", v) :: post)%list s
                  = (let '(go, s2) := HandleSequence_attr E "maxsamples" v s1
                     in if go then HandleSequence_loop E post s2
                        else (false, s2))).
  { rewrite (HandleSequence_loop_app _ _ _ _ Hpre). reflexivity. }
  split; [|split; [|split; [|split]]].
  - split.
    + intros Hacc. rewrite Hstep in Hacc.
      destruct (Z.le_gt_cases 1024 n) as [Ha|Ha];
        [destruct (Z.le_gt_cases n 67108864) as [Hb|Hb]; [lia|]|];
        rewrite Hout in Hacc by lia; discriminate Hacc.
    + intros Hr. rewrite Hstep, (Hin Hr). reflexivity.
  - intros Hr. rewrite Hloop, Hstep, (Hin Hr). reflexivity.
  - intros Hr. rewrite Hloop, Hstep, (Hout Hr). reflexivity.
  - intros Hr. rewrite Hloop, Hstep, Hout by lia. reflexivity.
  - intros Hr. rewrite Hstep, Hin by lia. reflexivity.
Qed.

(** ** Claim C7: the length of a block file *)

(** A length attribute that is present and not positive is fatal, in each
    of the three block-file rules and wherever it stands in the list. *)
Lemma silent_len_not_positive_is_fatal attrs v n :
  In ("len", v) attrs -> good_longlong E v = Some n -> (n <= 0)%Z ->
  forall len s,
    fst (HandleSilentBlockFile_loop E attrs len s) = None
    /\ mUpdateResult (snd (HandleSilentBlockFile_loop E attrs len s)) = Failed.
Proof.
  intros Hin Hv Hn.
  assert (Hgt : negb (n >? 0)%Z = true).
  { rewrite Z.gtb_ltb. apply negb_true_iff, Z.ltb_ge. lia. }
  induction attrs as [|[attr value] rest IH]; [contradiction|].
  intros len s. destruct Hin as [Heq|Hin].
  - invc Heq. simpl. rewrite Hv, Hgt. split; reflexivity.
  - simpl. repeat (break_match; simpl; auto).
Qed.

Lemma simple_len_not_positive_is_fatal attrs v n :
  In ("len", v) attrs -> good_longlong E v = Some n -> (n <= 0)%Z ->
  forall filename len s,
    fst (HandleSimpleBlockFile_loop E attrs filename len s) = None
    /\ mUpdateResult
         (snd (HandleSimpleBlockFile_loop E attrs filename len s)) = Failed.
Proof.
  intros Hin Hv Hn.
  assert (Hle : (n <=? 0)%Z = true) by (apply Z.leb_le; lia).
  induction attrs as [|[attr value] rest IH]; [contradiction|].
  intros filename len s. destruct Hin as [Heq|Hin].
  - invc Heq. simpl. rewrite Hv, Hle. split; reflexivity.
  - simpl. repeat (break_match; simpl; auto).
Qed.

Lemma alias_len_not_positive_is_fatal attrs v n :
  In ("aliaslen", v) attrs -> good_longlong E v = Some n -> (n <= 0)%Z ->
  forall a s,
    fst (HandlePCMAliasBlockFile_loop E attrs a s) = None
    /\ mUpdateResult (snd (HandlePCMAliasBlockFile_loop E attrs a s))
       = Failed.
Proof.
  intros Hin Hv Hn.
  assert (Hle : (n <=? 0)%Z = true) by (apply Z.leb_le; lia).
  induction attrs as [|[attr value] rest IH]; [contradiction|].
  intros a s. destruct Hin as [Heq|Hin].
  - invc Heq. simpl. rewrite Hv, Hle. split; reflexivity.
  - simpl. repeat (break_match; simpl; auto).
Qed.

(** A block-file tag without a length attribute queues a descriptor of
    length zero. *)
Lemma silent_without_len_queues_zero s :
  HandleSilentBlockFile E (set_mAttrs [] s)
  = Some (true, None, AddFile 0 "" 0 0 (set_mAttrs [] s)).
Proof. reflexivity. Qed.

(** ** Claims C2 and C10: what a descriptor leaves in its owner *)

Lemma runs_of_alter r p s :
  runs_of (set_objs (alter (add_run r) p (objs s)) s) p
  = (fun l => l ++ [r])%list <$> runs_of s p.
Proof.
  unfold runs_of. simpl. rewrite list_lookup_alter_eq.
  destruct (objs s !! p); reflexivity.
Qed.

Lemma runs_of_alter_flush r p s :
  runs_of (set_objs (alter (fun o => flush (add_run r o)) p (objs s)) s) p
  = (fun l => l ++ [r])%list <$> runs_of s p.
Proof.
  unfold runs_of. simpl. rewrite list_lookup_alter_eq.
  destruct (objs s !! p); reflexivity.
Qed.

Lemma kind_of_is_Some s p k :
  has_kind s p k = true -> is_Some (objs s !! p).
Proof.
  unfold has_kind, kind_of. destruct (objs s !! p); [eauto|discriminate].
Qed.

Lemma as_kind_of s p k :
  has_kind s p k = true -> as_kind k s (Some (ObjH p)) = Some p.
Proof.
  unfold as_kind, has_kind. destruct (kind_of s p); [|discriminate].
  now intros ->.
Qed.

(** With the owner in place, [AddSilence] puts one silence run of the
    length asked for after the runs of the owner and changes nothing
    else. *)
Lemma AddSilence_appends fi n s :
  well_owned fi s = true -> mClip s = clip fi -> mWaveTrack s = track fi ->
  exists p,
    owner fi = Some p /\ is_Some (objs s !! p)
    /\ AddSilence n s
       = Some (true, set_objs (alter (add_run (SilenceRun n)) p (objs s)) s).
Proof.
  unfold well_owned, owner, AddSilence. intros Hw Hc Ht.
  apply andb_true_iff in Hw. destruct Hw as [Hw1 Hw2].
  rewrite Hc, Ht.
  destruct (track fi) as [t|]; [|discriminate].
  destruct (clip fi) as [c|].
  - exists c.
    split; [reflexivity|]. split; [eapply kind_of_is_Some, Hw2|].
    change (ObjH <$> Some t) with (Some (ObjH t)).
    rewrite (as_kind_of _ _ _ Hw1), (as_kind_of _ _ _ Hw2). simpl.
    unfold InsertSilence.
    destruct (kind_of_is_Some _ _ _ Hw2) as [o ->]. reflexivity.
  - exists t. split; [reflexivity|]. split; [eapply kind_of_is_Some, Hw1|].
    rewrite (as_kind_of _ _ _ Hw1). simpl. unfold InsertSilence.
    destruct (kind_of_is_Some _ _ _ Hw1) as [o ->]. reflexivity.
Qed.

Lemma Append_to_owner_appends fi format buf s :
  well_owned fi s = true -> mClip s = clip fi -> mWaveTrack s = track fi ->
  exists p,
    owner fi = Some p
    /\ Append_to_owner format buf s
       = Some (set_objs (alter (fun o => flush (add_run (SampleRun format buf) o))
                               p (objs s)) s).
Proof.
  unfold well_owned, owner, Append_to_owner. intros Hw Hc Ht.
  apply andb_true_iff in Hw. destruct Hw as [Hw1 Hw2].
  rewrite Hc, Ht.
  destruct (track fi) as [t|]; [|discriminate].
  destruct (clip fi) as [c|].
  - exists c. split; [reflexivity|].
    unfold Append_Flush.
    destruct (kind_of_is_Some _ _ _ Hw2) as [o ->]. reflexivity.
  - exists t. split; [reflexivity|]. unfold Append_Flush.
    destruct (kind_of_is_Some _ _ _ Hw1) as [o ->]. reflexivity.
Qed.

Lemma well_owned_frame fi s s' :
  objs s' = objs s -> well_owned fi s' = well_owned fi s.
Proof. unfold well_owned, has_kind, kind_of. now intros ->. Qed.

Lemma SetWarning_objs msg s : objs (snd (SetWarning msg s)) = objs s
  /\ mClip (snd (SetWarning msg s)) = mClip s
  /\ mWaveTrack (snd (SetWarning msg s)) = mWaveTrack s.
Proof.
  unfold SetWarning, keep_first, log. simpl.
  destruct (String.eqb _ _); repeat split.
Qed.

(** A failed step of [AddSamples]: two warnings, then the silence. *)
Lemma give_silence_appends fi msg s :
  well_owned fi s = true -> mClip s = clip fi -> mWaveTrack s = track fi ->
  exists p s',
    owner fi = Some p
    /\ give_silence msg (path fi) (len fi) s = Some (true, s')
    /\ runs_of s' p
       = (fun l => l ++ [SilenceRun (len fi)])%list <$> runs_of s p
    /\ mLog s'
       = (mLog s ++ [LogWarning msg;
                     LogWarning (error_while_processing (path fi))])%list
    /\ mUpdateResult s' = mUpdateResult s.
Proof.
  intros Hw Hc Ht. unfold give_silence.
  set (s1 := snd (SetWarning msg s)).
  set (s2 := snd (SetWarning _ s1)).
  destruct (SetWarning_objs msg s) as (a1 & a2 & a3). fold s1 in a1, a2, a3.
  destruct (SetWarning_objs (error_while_processing (path fi)) s1)
    as (b1 & b2 & b3). fold s2 in b1, b2, b3.
  assert (Hw2 : well_owned fi s2 = true).
  { rewrite (well_owned_frame fi s1 s2 b1), (well_owned_frame fi s s1 a1).
    exact Hw. }
  destruct (AddSilence_appends fi (len fi) s2 Hw2) as (p & Hp & _ & Ha).
  { now rewrite b2, a2. } { now rewrite b3, a3. }
  exists p. eexists. split; [exact Hp|]. split; [exact Ha|].
  split; [|split].
  - rewrite runs_of_alter. unfold runs_of. now rewrite b1, a1.
  - simpl. unfold s2. rewrite SetWarning_logged. unfold s1.
    rewrite SetWarning_logged. now rewrite <- app_assoc.
  - simpl. unfold s2. rewrite SetWarning_result. unfold s1.
    now rewrite SetWarning_result.
Qed.

Lemma length_fresh_buffer n : length (fresh_buffer E n) = n.
Proof. unfold fresh_buffer. now rewrite length_map, length_seq. Qed.

Lemma length_read_into n data : length (read_into E n data) = n.
Proof.
  unfold read_into.
  rewrite length_take, length_app, length_drop, length_fresh_buffer. lia.
Qed.

Lemma decode_short_read p filename pos cnt chan format info :
  p <> MonoShort ->
  frames_read cnt (channels info) (delivered E p filename pos cnt) <> cnt ->
  decode E p filename pos cnt chan format info = ShortRead.
Proof.
  intros Hp Hf. apply Z.eqb_neq in Hf. unfold decode.
  destruct p; [contradiction| | |]; now rewrite Hf.
Qed.

Lemma decode_MonoShort filename pos cnt chan format info :
  decode E MonoShort filename pos cnt chan format info
  = Buffer (read_into E (Z.to_nat cnt) (sf_readf_short E filename pos cnt)).
Proof. reflexivity. Qed.

(** Claim C2, as amended.  Let a queued descriptor point at its owner.
    If its path is empty, resolving it puts a silence run of exactly its
    length after the runs of the owner and logs nothing.  If its path is
    not empty and the file cannot be opened, or cannot be sought, or the
    read of the 24-bit, the 16-bit channel-select or the float branch
    delivers fewer frames than asked for, resolving it logs two warnings
    and puts a silence run of exactly its length after the runs of the
    owner.  In both cases the resolution returns [true] and leaves the
    result of the import alone. *)
Theorem unresolvable_block_becomes_silence fi s :
  well_owned fi s = true ->
  (path fi = "" \/ cannot_open E fi \/ cannot_seek E fi
   \/ exists p, p <> MonoShort /\ short_read E fi s p) ->
  exists p s',
    owner fi = Some p /\ resolve_one E fi s = Some (true, s')
    /\ runs_of s' p
       = (fun l => l ++ [SilenceRun (len fi)])%list <$> runs_of s p
    /\ mUpdateResult s' = mUpdateResult s
    /\ (if String.eqb (path fi) "" then mLog s' = mLog s
        else exists w,
            mLog s'
            = (mLog s
               ++ [LogWarning w;
                   LogWarning (error_while_processing (path fi))])%list).
Proof.
  intros Hw Hcase. unfold resolve_one.
  set (s0 := set_mWaveTrack (track fi) (set_mClip (clip fi) s)).
  assert (Hw0 : well_owned fi s0 = true) by exact Hw.
  destruct (String.eqb_spec (path fi) "") as [He|Hne].
  - destruct (AddSilence_appends fi (len fi) s0 Hw0 eq_refl eq_refl)
      as (p & Hp & _ & Ha).
    exists p. eexists. split; [exact Hp|]. split; [exact Ha|].
    split; [apply (runs_of_alter _ p s0)|]. split; reflexivity.
  - assert (Hgive : forall msg,
               exists p s',
                 owner fi = Some p
                 /\ give_silence msg (path fi) (len fi) s0 = Some (true, s')
                 /\ runs_of s' p
                    = (fun l => l ++ [SilenceRun (len fi)])%list
                        <$> runs_of s p
                 /\ mUpdateResult s' = mUpdateResult s
                 /\ exists w,
                     mLog s'
                     = (mLog s
                        ++ [LogWarning w;
                            LogWarning (error_while_processing (path fi))])%list).
    { intros msg.
      destruct (give_silence_appends fi msg s0 Hw0 eq_refl eq_refl)
        as (p & s' & Hp & Hg & Hr & Hl & Hu).
      exists p, s'. repeat split; auto. now exists msg. }
    unfold AddSamples.
    destruct Hcase as [He|[[Ho|Ho]|[Hseek|Hshort]]].
    + contradiction.
    + rewrite Ho. simpl. apply Hgive.
    + destruct (wxFile_Open E (path fi)); simpl; [|apply Hgive].
      rewrite Ho. apply Hgive.
    + destruct Hseek as (Ho & (info & Hi) & Hpos & Hneg).
      rewrite Ho, Hi. simpl.
      assert (Hc : ((origin fi >? 0)%Z
                    && (sf_seek E (path fi) (origin fi) <? 0)%Z) = true).
      { apply andb_true_iff. split; [rewrite Z.gtb_ltb|];
          apply Z.ltb_lt; lia. }
      rewrite Hc. apply Hgive.
    + destruct Hshort as (p & Hp & Ho & Hc & info & format & Hi & Hf & Hsel
                          & Hfr).
      rewrite Ho, Hi. simpl. rewrite Hc.
      change (mFormat s0) with (mFormat s). rewrite Hf. simpl.
      rewrite Hsel, (decode_short_read _ _ _ _ _ _ _ Hp Hfr). apply Hgive.
Qed.

(** Claim C10.  Let a queued descriptor point at its owner and have a
    path, and let its file open as a single-channel file of an integer
    subtype while the format of the import is 16-bit integer, the seek (if
    any) succeeding.  Then, whatever the read delivers, resolving the
    descriptor returns [true], puts a run of exactly [len] 16-bit samples
    after the runs of the owner (the buffer as the read left it), and logs
    nothing: no warning, no change of the message or of the result. *)
Theorem mono_int16_path_ignores_frame_count fi s info :
  well_owned fi s = true ->
  path fi <> "" ->
  wxFile_Open E (path fi) = true ->
  sf_open_fd E (path fi) = Some info ->
  channels info = 1%Z -> subtype_is_integer info = true ->
  mFormat s = Some int16Sample ->
  ((origin fi >? 0)%Z && (sf_seek E (path fi) (origin fi) <? 0)%Z) = false ->
  exists p s' buf,
    owner fi = Some p /\ resolve_one E fi s = Some (true, s')
    /\ buf = read_into E (Z.to_nat (len fi))
               (sf_readf_short E (path fi) (Z.max 0 (origin fi)) (len fi))
    /\ runs_of s' p
       = (fun l => l ++ [SampleRun int16Sample buf])%list <$> runs_of s p
    /\ length buf = Z.to_nat (len fi)
    /\ mLog s' = mLog s /\ mErrorMsg s' = mErrorMsg s
    /\ mUpdateResult s' = mUpdateResult s.
Proof.
  intros Hw Hne Ho Hi Hch Hint Hf Hseek. unfold resolve_one.
  set (s0 := set_mWaveTrack (track fi) (set_mClip (clip fi) s)).
  assert (Hw0 : well_owned fi s0 = true) by exact Hw.
  apply String.eqb_neq in Hne. rewrite Hne.
  unfold AddSamples. rewrite Ho, Hi. cbn [negb]. rewrite Hseek.
  change (mFormat s0) with (mFormat s). rewrite Hf.
  change (Some int16Sample ≫= ?f) with (f int16Sample). cbv beta.
  assert (Hsel : select_path int16Sample info = MonoShort).
  { unfold select_path. now rewrite Hch, Hint. }
  rewrite Hsel, decode_MonoShort.
  set (buf := read_into E _ _).
  destruct (Append_to_owner_appends fi int16Sample buf s0 Hw0 eq_refl eq_refl)
    as (p & Hp & Ha).
  rewrite Ha. simpl.
  exists p. eexists. exists buf. split; [exact Hp|]. split; [reflexivity|].
  split; [reflexivity|].
  split; [apply (runs_of_alter_flush _ p s0)|].
  split; [apply length_read_into|]. repeat split.
Qed.

(** ** Claim C8: the branches compared *)

Lemma strided_unit (l : list Z) : strided l 1 0 (length l) = Some l.
Proof.
  unfold strided. apply mapM_Some.
  apply Forall2_same_length_lookup. split.
  - now rewrite length_seq.
  - intros i x y Hx Hy. apply lookup_seq in Hx. destruct Hx as [-> _].
    simpl. assert (H0 : (1 * Z.of_nat i + 0 <? 0)%Z = false)
      by (apply Z.ltb_ge; lia).
    rewrite H0. replace (Z.to_nat (1 * Z.of_nat i + 0)) with i by lia.
    exact Hy.
Qed.

(** On a single-channel file whose read delivers all the frames asked
    for, the 16-bit passthrough and the 16-bit read with channel select
    fill the buffer with the same samples. *)
Lemma mono_short_paths_agree filename pos cnt format info :
  channels info = 1%Z -> (0 <= cnt)%Z ->
  frames_read cnt 1 (sf_readf_short E filename pos cnt) = cnt ->
  decode E DirectShort filename pos cnt 0 format info
  = decode E MonoShort filename pos cnt 0 format info.
Proof.
  intros Hch Hcnt Hfull. unfold decode. simpl. rewrite Hch, Hfull.
  rewrite Z.eqb_refl. simpl. rewrite Z.mul_1_r.
  set (b := read_into E _ _).
  assert (Hl : length b = Z.to_nat cnt) by apply length_read_into.
  rewrite <- Hl at 1. now rewrite strided_unit.
Qed.

(** On a short read the two differ: the passthrough hands over its
    buffer, the channel-select branch reports the short read. *)
Lemma mono_short_paths_differ filename pos cnt format info :
  frames_read cnt (channels info) (sf_readf_short E filename pos cnt) <> cnt ->
  decode E DirectShort filename pos cnt 0 format info = ShortRead
  /\ exists b, decode E MonoShort filename pos cnt 0 format info = Buffer b.
Proof.
  intros Hshort. split.
  - apply decode_short_read; [discriminate|exact Hshort].
  - eexists. reflexivity.
Qed.

(** * Further properties *)

(** ** The attribute loops leave the cursor, the queue and the active
    track and clip alone *)

Lemma keep_first_view msg s : parse_view (keep_first msg s) = parse_view s.
Proof. unfold keep_first. now destruct (String.eqb _ _). Qed.

Lemma SetError_view msg s : parse_view (snd (SetError msg s)) = parse_view s.
Proof. unfold SetError. simpl. unfold parse_view. simpl.
  unfold keep_first. now destruct (String.eqb _ _). Qed.

Lemma SetWarning_view msg s :
  parse_view (snd (SetWarning msg s)) = parse_view s.
Proof. unfold SetWarning. simpl. unfold parse_view. simpl.
  unfold keep_first. now destruct (String.eqb _ _). Qed.

Lemma failed_view msg e s :
  parse_view (set_mUpdateResult Failed (keep_first msg (log e s)))
  = parse_view s.
Proof. unfold keep_first. now destruct (String.eqb _ _). Qed.

Lemma warned_view msg e s : parse_view (keep_first msg (log e s)) = parse_view s.
Proof. unfold keep_first. now destruct (String.eqb _ _). Qed.

Lemma HandleProject_attr_view attr value n s :
  parse_view (snd (HandleProject_attr E attr value n s)) = parse_view s.
Proof.
  unfold HandleProject_attr, set_attr, HandleProject_projname.
  repeat (break_match; simpl; rewrite ?failed_view; try reflexivity);
    crunch; rewrite ?failed_view; try reflexivity.
Qed.

Lemma HandleProject_loop_view attrs n s :
  parse_view (snd (HandleProject_loop E attrs n s)) = parse_view s.
Proof.
  revert n s. induction attrs as [|[attr value] rest IH]; intros n s; simpl.
  - reflexivity.
  - pose proof (HandleProject_attr_view attr value n s) as Hstep.
    destruct (HandleProject_attr E attr value n s) as [[go n'] s'].
    simpl in Hstep. destruct go; simpl; [rewrite IH|]; exact Hstep.
Qed.

Lemma HandleTags_loop_view attrs s :
  parse_view (snd (HandleTags_loop E attrs s)) = parse_view s.
Proof.
  revert s. induction attrs as [|[attr value] rest IH]; intros s; simpl.
  - reflexivity.
  - repeat (break_match; simpl; rewrite ?IH; try reflexivity).
Qed.

Lemma HandleSequence_loop_view attrs s :
  parse_view (snd (HandleSequence_loop E attrs s)) = parse_view s.
Proof.
  revert s. induction attrs as [|[attr value] rest IH]; intros s; simpl.
  - reflexivity.
  - assert (Hstep : parse_view (snd (HandleSequence_attr E attr value s))
                    = parse_view s).
    { unfold HandleSequence_attr.
      repeat (break_match; rewrite ?SetError_view, ?failed_view;
              try reflexivity). }
    destruct (HandleSequence_attr E attr value s) as [go s1].
    simpl in Hstep. destruct go; simpl; [rewrite IH|]; exact Hstep.
Qed.

Lemma HandleWaveBlock_loop_view attrs s :
  parse_view (snd (HandleWaveBlock_loop E attrs s)) = parse_view s.
Proof.
  revert s. induction attrs as [|[attr value] rest IH]; intros s; simpl.
  - reflexivity.
  - repeat (break_match; rewrite ?IH, ?SetError_view, ?failed_view; try reflexivity).
Qed.

Lemma HandleSimpleBlockFile_loop_view attrs filename n s :
  parse_view (snd (HandleSimpleBlockFile_loop E attrs filename n s))
  = parse_view s.
Proof.
  revert filename n s.
  induction attrs as [|[attr value] rest IH]; intros filename n s; simpl.
  - reflexivity.
  - repeat (break_match; cbn [snd];
            rewrite ?IH, ?SetError_view, ?SetWarning_view, ?failed_view,
              ?warned_view; try reflexivity).
Qed.

Lemma HandleSilentBlockFile_loop_view attrs n s :
  parse_view (snd (HandleSilentBlockFile_loop E attrs n s)) = parse_view s.
Proof.
  revert n s. induction attrs as [|[attr value] rest IH]; intros n s; simpl.
  - reflexivity.
  - repeat (break_match; cbn [snd];
            rewrite ?IH, ?SetError_view, ?failed_view; try reflexivity).
Qed.

Lemma HandlePCMAliasBlockFile_loop_view attrs a s :
  parse_view (snd (HandlePCMAliasBlockFile_loop E attrs a s)) = parse_view s.
Proof.
  revert a s. induction attrs as [|[attr value] rest IH]; intros a s; simpl.
  - reflexivity.
  - repeat (break_match; cbn [snd];
            rewrite ?IH, ?SetError_view, ?SetWarning_view, ?failed_view,
              ?warned_view; try reflexivity).
Qed.

(** ** What each tag rule does to the cursor and the queue *)

Lemma view_core s s' :
  parse_view s' = parse_view s ->
  mHandlers s' = mHandlers s /\ mCurrentTag s' = mCurrentTag s
  /\ mParentTag s' = mParentTag s /\ mFiles s' = mFiles s
  /\ mTotalSamples s' = mTotalSamples s
  /\ mWaveTrack s' = mWaveTrack s /\ mClip s' = mClip s.
Proof. unfold parse_view. intros H. injection H. auto 10. Qed.

Lemma kept_effect t (b : bool) s s' :
  is_block_tag t = false ->
  mHandlers s' = mHandlers s -> mCurrentTag s' = mCurrentTag s ->
  mParentTag s' = mParentTag s -> mFiles s' = mFiles s ->
  mTotalSamples s' = mTotalSamples s ->
  mHandlers s' = mHandlers s /\ mCurrentTag s' = mCurrentTag s
  /\ mParentTag s' = mParentTag s
  /\ (if b then queue_step t s s' else queue_kept s s').
Proof.
  intros Hnb h1 h2 h3 h4 h5. repeat split; auto.
  unfold queue_step. rewrite Hnb. destruct b; split; auto.
Qed.

Ltac kept :=
  repeat match goal with |- _ /\ _ => split end;
  try reflexivity; try assumption;
  try (unfold queue_step;
       match goal with H : is_block_tag _ = false |- _ => rewrite H end);
  try (split; (reflexivity || assumption)).

Lemma HandleProject_effect t s :
  is_block_tag t = false -> tag_effect t s (HandleProject E s).
Proof.
  intros Hnb b hd s' H. unfold HandleProject in H.
  pose proof (HandleProject_loop_view (mAttrs s) 0 s) as Hl.
  destruct (HandleProject_loop E (mAttrs s) 0 s) as [[go n] s1].
  simpl in Hl. apply view_core in Hl.
  destruct Hl as (h1 & h2 & h3 & h4 & h5 & _).
  unfold reject, accept in H.
  destruct go; simpl in H; [destruct (n <? 3)%Z|]; invc H;
    kept.
Qed.

Lemma HandleTags_effect t s :
  is_block_tag t = false -> tag_effect t s (HandleTags E s).
Proof.
  intros Hnb b hd s' H. unfold HandleTags in H.
  pose proof (HandleTags_loop_view (mAttrs s) s) as Hl.
  destruct (HandleTags_loop E (mAttrs s) s) as [ok s1].
  simpl in Hl. apply view_core in Hl.
  destruct Hl as (h1 & h2 & h3 & h4 & h5 & _).
  unfold reject, accept in H. destruct ok; invc H; kept.
Qed.

Lemma HandleSequence_effect t s :
  is_block_tag t = false -> tag_effect t s (HandleSequence E s).
Proof.
  intros Hnb b hd s' H. unfold HandleSequence in H.
  apply bind_Some in H as (nd & _ & H).
  pose proof (HandleSequence_loop_view (mAttrs s) s) as Hl.
  destruct (HandleSequence_loop E (mAttrs s) s) as [ok s1].
  simpl in Hl. apply view_core in Hl.
  destruct Hl as (h1 & h2 & h3 & h4 & h5 & _).
  unfold reject, accept in H. destruct ok; invc H; kept.
Qed.

Lemma HandleWaveBlock_effect t s :
  is_block_tag t = false -> tag_effect t s (HandleWaveBlock E s).
Proof.
  intros Hnb b hd s' H. unfold HandleWaveBlock in H.
  pose proof (HandleWaveBlock_loop_view (mAttrs s) s) as Hl.
  destruct (HandleWaveBlock_loop E (mAttrs s) s) as [ok s1].
  simpl in Hl. apply view_core in Hl.
  destruct Hl as (h1 & h2 & h3 & h4 & h5 & _).
  unfold reject, accept in H. destruct ok; invc H; kept.
Qed.

Lemma simple_rules_effect t s :
  is_block_tag t = false ->
  tag_effect t s (HandleLabelTrack s) /\ tag_effect t s (HandleNoteTrack E s)
  /\ tag_effect t s (HandleTimeTrack s) /\ tag_effect t s (HandleWaveTrack s)
  /\ tag_effect t s (HandleTag E s) /\ tag_effect t s (HandleLabel s)
  /\ tag_effect t s (HandleControlPoint s).
Proof.
  intros Hnb. repeat match goal with |- _ /\ _ => split end;
    intros b hd s' H;
    unfold HandleLabelTrack, HandleNoteTrack, HandleTimeTrack,
      HandleWaveTrack, HandleTag, HandleLabel, HandleControlPoint in H;
    crunch; kept.
Qed.

Lemma HandleWaveClip_effect t s :
  is_block_tag t = false -> tag_effect t s (HandleWaveClip s).
Proof.
  intros Hnb b hd s' H. unfold HandleWaveClip in H.
  apply bind_Some in H as (nd & _ & H).
  destruct (String.eqb (mParentTag s) "wavetrack").
  { apply bind_Some in H as (p & _ & H). crunch. kept. }
  destruct (String.eqb (mParentTag s) "waveclip").
  { apply bind_Some in H as (p & _ & H). crunch. kept. }
  crunch. kept.
Qed.

Lemma HandleEnvelope_effect t s :
  is_block_tag t = false -> tag_effect t s (HandleEnvelope E s).
Proof.
  intros Hnb b hd s' H. unfold HandleEnvelope, RightmostOrNewClip in H.
  apply bind_Some in H as (nd & _ & H).
  destruct (String.eqb (mParentTag s) "timetrack").
  { destruct (handler nd) as [h0|]; [|crunch; kept].
    apply bind_Some in H as (p & _ & H). crunch. kept. }
  destruct (String.eqb (mParentTag s) "wavetrack").
  { apply bind_Some in H as (p & _ & H).
    destruct (clips_of s p); crunch; kept. }
  destruct (String.eqb (mParentTag s) "waveclip").
  { apply bind_Some in H as (p & _ & H). crunch. kept. }
  crunch. kept.
Qed.

(** The lengths and origins the block-file loops hand on are never
    negative. *)
Lemma HandleSimpleBlockFile_loop_len attrs filename n s f l :
  (0 <= n)%Z ->
  fst (HandleSimpleBlockFile_loop E attrs filename n s) = Some (f, l) ->
  (0 <= l)%Z.
Proof.
  revert filename n s.
  induction attrs as [|[attr value] rest IH]; intros filename n s Hn; simpl.
  - intros H; invc H. exact Hn.
  - repeat (break_match; simpl; try discriminate); eauto.
    apply IH. apply Z.leb_gt in Heqb1. lia.
Qed.

Lemma HandleSilentBlockFile_loop_len attrs n s l :
  (0 <= n)%Z ->
  fst (HandleSilentBlockFile_loop E attrs n s) = Some l -> (0 <= l)%Z.
Proof.
  revert n s.
  induction attrs as [|[attr value] rest IH]; intros n s Hn; simpl.
  - intros H; invc H. exact Hn.
  - repeat (break_match; simpl; try discriminate); eauto.
    apply IH. apply negb_false_iff in Heqb0. rewrite Z.gtb_ltb in Heqb0.
    apply Z.ltb_lt in Heqb0. lia.
Qed.

Lemma HandlePCMAliasBlockFile_loop_len attrs a s a' :
  (0 <= al_len a)%Z -> (0 <= al_start a)%Z ->
  fst (HandlePCMAliasBlockFile_loop E attrs a s) = Some a' ->
  (0 <= al_len a')%Z /\ (0 <= al_start a')%Z.
Proof.
  revert a s.
  induction attrs as [|[attr value] rest IH]; intros a s Hl Hs; simpl.
  - intros H; invc H. auto.
  - repeat (break_match; simpl; try discriminate); eauto;
      apply IH; simpl; auto;
      repeat match goal with
             | H : (_ <? _)%Z = false |- _ => apply Z.ltb_ge in H
             | H : (_ <=? _)%Z = false |- _ => apply Z.leb_gt in H
             end; lia.
Qed.

Lemma AddFile_queued n filename o c s0 s :
  parse_view s = parse_view s0 -> (0 <= n)%Z -> (0 <= o)%Z ->
  queued_one s0 (AddFile n filename o c s)
             (mkFileinfo (mWaveTrack s0) (mClip s0) filename n o c).
Proof.
  intros Hv Hn Ho. apply view_core in Hv.
  destruct Hv as (_ & _ & _ & h4 & h5 & h6 & h7).
  unfold queued_one, AddFile. simpl. rewrite h4, h5, h6, h7. auto 10.
Qed.

Lemma AddFile_cursor n filename o c s0 s (b : bool) P :
  parse_view s = parse_view s0 -> P ->
  mHandlers (AddFile n filename o c s) = mHandlers s0
  /\ mCurrentTag (AddFile n filename o c s) = mCurrentTag s0
  /\ mParentTag (AddFile n filename o c s) = mParentTag s0 /\ P.
Proof.
  intros Hv HP. apply view_core in Hv.
  destruct Hv as (h1 & h2 & h3 & _). unfold AddFile. simpl. auto.
Qed.

Lemma HandleSilentBlockFile_effect s :
  tag_effect "silentblockfile" s (HandleSilentBlockFile E s).
Proof.
  intros b hd s' H. unfold HandleSilentBlockFile in H.
  pose proof (HandleSilentBlockFile_loop_view (mAttrs s) 0 s) as Hl.
  pose proof (HandleSilentBlockFile_loop_len (mAttrs s) 0 s) as Hlen.
  destruct (HandleSilentBlockFile_loop E (mAttrs s) 0 s) as [[l|] s1];
    simpl in Hl, Hlen; unfold accept, reject in H; invc H.
  - apply (AddFile_cursor _ _ _ _ _ _ true); [exact Hl|].
    eexists. apply AddFile_queued; [exact Hl| |lia].
    apply (Hlen l); [lia|reflexivity].
  - apply view_core in Hl. destruct Hl as (h1 & h2 & h3 & h4 & h5 & _).
    repeat split; auto.
Qed.

Lemma HandleSimpleBlockFile_effect s :
  tag_effect "simpleblockfile" s (HandleSimpleBlockFile E s).
Proof.
  intros b hd s' H. unfold HandleSimpleBlockFile in H.
  pose proof (HandleSimpleBlockFile_loop_view (mAttrs s) "" 0 s) as Hl.
  pose proof (HandleSimpleBlockFile_loop_len (mAttrs s) "" 0 s) as Hlen.
  destruct (HandleSimpleBlockFile_loop E (mAttrs s) "" 0 s)
    as [[[f l]|] s1];
    simpl in Hl, Hlen; unfold accept, reject in H; invc H.
  - apply (AddFile_cursor _ _ _ _ _ _ true); [exact Hl|].
    eexists. apply AddFile_queued; [exact Hl| |lia].
    apply (Hlen f l); [lia|reflexivity].
  - apply view_core in Hl. destruct Hl as (h1 & h2 & h3 & h4 & h5 & _).
    repeat split; auto.
Qed.

Lemma HandlePCMAliasBlockFile_effect s :
  tag_effect "pcmaliasblockfile" s (HandlePCMAliasBlockFile E s).
Proof.
  intros b hd s' H. unfold HandlePCMAliasBlockFile in H.
  pose proof (HandlePCMAliasBlockFile_loop_view (mAttrs s)
                (mkAlias (mkFileName [] "" "") 0 0 0) s) as Hl.
  pose proof (HandlePCMAliasBlockFile_loop_len (mAttrs s)
                (mkAlias (mkFileName [] "" "") 0 0 0) s) as Hlen.
  destruct (HandlePCMAliasBlockFile_loop E (mAttrs s) _ s) as [[a|] s1];
    simpl in Hl, Hlen; unfold accept, reject in H; invc H.
  - destruct (Hlen a) as [Ha Hb]; [lia|lia|reflexivity|].
    apply (AddFile_cursor _ _ _ _ _ _ true); [exact Hl|].
    eexists. apply AddFile_queued; [exact Hl|exact Ha|exact Hb].
  - apply view_core in Hl. destruct Hl as (h1 & h2 & h3 & h4 & h5 & _).
    repeat split; auto.
Qed.

Lemma dispatch_effect s : tag_effect (mCurrentTag s) s (dispatch E s).
Proof.
  unfold dispatch. cbv zeta.
  assert (Ht : mCurrentTag s = mCurrentTag s) by reflexivity.
  revert Ht. generalize (mCurrentTag s) at 2 as t. intros t Ht.
  rewrite Ht.
  destruct (String.eqb_spec t "project") as [->|?];
    [apply HandleProject_effect; reflexivity|].
  destruct (String.eqb_spec t "audacityproject") as [->|?];
    [apply HandleProject_effect; reflexivity|]. cbn [orb].
  repeat match goal with
         | |- tag_effect _ _ (if String.eqb t ?c then _ else _) =>
             destruct (String.eqb_spec t c) as [->|?]
         end.
  all: try (apply simple_rules_effect; reflexivity).
  all: try (apply HandleTags_effect; reflexivity).
  all: try (apply HandleWaveClip_effect; reflexivity).
  all: try (apply HandleSequence_effect; reflexivity).
  all: try (apply HandleWaveBlock_effect; reflexivity).
  all: try (apply HandleEnvelope_effect; reflexivity).
  all: try apply HandleSimpleBlockFile_effect.
  all: try apply HandleSilentBlockFile_effect.
  all: try apply HandlePCMAliasBlockFile_effect.
  intros b hd s' H. unfold reject in H. invc H.
  repeat split.
Qed.

(** ** The dispatcher, the stack and the queue *)

Lemma child_tag_view hd t attrs s b s' :
  child_tag E hd t attrs s = Some (b, s') -> parse_view s' = parse_view s.
Proof.
  unfold child_tag. intros H. apply bind_Some in H as (k & _ & H).
  destruct (child_HandleXMLTag E k t attrs); invc H; [destruct hd|];
    reflexivity.
Qed.

Lemma child_end_view hd t s s' :
  child_end hd t s = Some s' -> parse_view s' = parse_view s.
Proof.
  unfold child_end. intros H. apply bind_Some in H as (k & _ & H).
  destruct hd; invc H; reflexivity.
Qed.

Lemma queue_step_frame t s0 s s1 s2 :
  mFiles s0 = mFiles s -> mTotalSamples s0 = mTotalSamples s ->
  mWaveTrack s0 = mWaveTrack s -> mClip s0 = mClip s ->
  mFiles s2 = mFiles s1 -> mTotalSamples s2 = mTotalSamples s1 ->
  queue_step t s0 s1 -> queue_step t s s2.
Proof.
  intros a4 a5 a6 a7 b4 b5.
  unfold queue_step, queued_one, queue_kept.
  destruct (is_block_tag t).
  - intros (fi & c1 & c2 & c3 & c4 & c5 & c6). exists fi.
    rewrite b4, b5, c1, c2, c3, c4, a4, a5, a6, a7. auto 10.
  - intros (c1 & c2). rewrite b4, b5, c1, c2, a4, a5. auto.
Qed.

(** An accepted tag pushes one frame that names it and its parent, and
    queues one descriptor if it is a block-file tag and none otherwise; a
    refused tag pushes no frame. *)
Lemma HandleXMLTag_effect t attrs s b s' :
  HandleXMLTag E t attrs s = Some (b, s') ->
  if b then
    (exists hd, mHandlers s' = mkNode (mCurrentTag s) t hd :: mHandlers s)
    /\ mCurrentTag s' = t /\ mParentTag s' = mCurrentTag s
    /\ queue_step t s s'
  else mHandlers s' = mHandlers s
       /\ (queue_kept s s' \/ queue_step t s s').
Proof.
  unfold HandleXMLTag.
  destruct (is_Success (mUpdateResult s)); simpl;
    [|intros H; injection H as <- <-; split; [reflexivity|left; split; reflexivity]].
  pose proof (dispatch_effect
                (set_mAttrs attrs
                   (set_mCurrentTag t (set_mParentTag (mCurrentTag s) s))))
    as Hd.
  destruct (dispatch E _) as [[[success hd] s1]|]; simpl; [|discriminate].
  specialize (Hd _ _ _ eq_refl).
  destruct Hd as (d1 & d2 & d3 & d4). simpl in d1, d2, d3.
  assert (Hq : forall s2, mFiles s2 = mFiles s1 ->
                          mTotalSamples s2 = mTotalSamples s1 ->
                          if success then queue_step t s s2
                          else queue_kept s s2).
  { intros s2 b4 b5. destruct success.
    - eapply queue_step_frame; [| | | |exact b4|exact b5|exact d4];
        reflexivity.
    - destruct d4 as [c1 c2]. split; [rewrite b4|rewrite b5]; assumption. }
  destruct success; simpl.
  - destruct hd as [h0|].
    + destruct (child_tag E h0 t attrs s1) as [[ok s2]|] eqn:Hc;
        [|discriminate].
      apply child_tag_view, view_core in Hc.
      destruct Hc as (e1 & e2 & e3 & e4 & e5 & _).
      destruct ok; intros H; injection H as <- <-.
      * unfold push. simpl. rewrite e1, e2, e3, d1, d2, d3.
        split; [eexists; reflexivity|]. auto.
      * split.
        -- simpl. unfold keep_first.
           destruct (String.eqb _ _); simpl; now rewrite e1, d1.
        -- right. apply Hq; simpl; unfold keep_first;
             destruct (String.eqb _ _); simpl; assumption.
    + intros H; injection H as <- <-. unfold push. simpl. rewrite d1, d2, d3.
      split; [eexists; reflexivity|]. auto.
  - intros H; injection H as <- <-. split.
    + simpl. unfold keep_first. destruct (String.eqb _ _); simpl; exact d1.
    + left. apply Hq; simpl; unfold keep_first;
        destruct (String.eqb _ _); reflexivity.
Qed.

(** A close tag pops one frame, puts the cursor on the frame below and
    leaves the queue alone. *)
Lemma HandleXMLEndTag_effect t s s' :
  mUpdateResult s = Success -> HandleXMLEndTag t s = Some s' ->
  (exists nd, mHandlers s = nd :: mHandlers s')
  /\ cursor_on_top s' /\ queue_kept s s'.
Proof.
  unfold HandleXMLEndTag. intros ->. simpl. intros H.
  apply bind_Some in H as (nd & Hb & H).
  apply bind_Some in H as (s1 & H1 & H).
  assert (Hv : mHandlers s1 = mHandlers s /\ mFiles s1 = mFiles s
               /\ mTotalSamples s1 = mTotalSamples s).
  { destruct (String.eqb t "waveclip").
    - apply bind_Some in H1 as (c & _ & H1).
      apply child_end_view, view_core in H1. simpl in H1.
      destruct H1 as (e1 & _ & _ & e4 & e5 & _). auto.
    - destruct (handler nd).
      + apply child_end_view, view_core in H1.
        destruct H1 as (e1 & _ & _ & e4 & e5 & _). auto.
      + injection H1 as <-. auto. }
  destruct Hv as (e1 & e4 & e5).
  unfold back in Hb. rewrite e1 in H.
  destruct (mHandlers s) as [|nd0 rest] eqn:Hs; [discriminate|].
  simpl in H. unfold cursor_on_top, queue_kept.
  destruct rest as [|nd1 rest]; injection H as <-; simpl;
    (split; [eexists; reflexivity|]); auto.
Qed.

Lemma sum_len_app l fi : sum_len (l ++ [fi]) = (sum_len l + len fi)%Z.
Proof.
  unfold sum_len. induction l as [|a l IH]; simpl; [lia|].
  rewrite IH. lia.
Qed.

Lemma opens_closes_cons e evs :
  opens (e :: evs)
  = ((match e with Open _ _ => 1 | Close _ => 0 end) + opens evs)%nat
  /\ closes (e :: evs)
     = ((match e with Open _ _ => 0 | Close _ => 1 end) + closes evs)%nat.
Proof. unfold opens, closes. destruct e; simpl; auto. Qed.

Lemma tracks_foldl cs p :
  tracks (foldl (fun p c => call c p) p cs) = tracks p.
Proof.
  revert p. induction cs as [|c cs IH]; intros p; simpl; [reflexivity|].
  now rewrite IH.
Qed.

(** Property X1.  While a document is parsed the host project is read
    and never written: whatever events are fed to the dispatcher, and
    whether it accepts them all or refuses one, the host project is
    afterwards what it was before. *)
Theorem parsing_leaves_the_host_alone evs s b s' :
  feed E evs s = Some (b, s') -> mProject s' = mProject s.
Proof. apply feed_mProject. Qed.

(** Property X2.  [Import] changes the host project on its successful
    return only: when it returns [Failed], [Cancelled] or [Stopped] the
    host project (tracks, history flag and view state) is what it was when
    [Import] was entered. *)
Theorem import_without_success_leaves_the_host_alone tags d s r s' :
  Import E tags d s = Some (r, s') -> r <> Success ->
  mProject s' = mProject s.
Proof. apply Import_commits_only_on_Success. Qed.

(** Property X3.  When [Import] returns [Success], the parser accepted the
    whole document, the host's track list is its old list followed by all
    the tracks the parser built, in the order they were built, and the
    local list of tracks is empty. *)
Theorem import_success_hands_over_all_tracks tags d s s' :
  Import E tags d s = Some (Success, s') ->
  exists s1,
    Parse E d (Import_entry tags s) = Some (true, s1)
    /\ tracks (mProject s')
       = (tracks (mProject s) ++ map Imported (mTracks s1))%list
    /\ mTracks s' = [].
Proof.
  unfold Import. intros H.
  destruct (Parse E d (Import_entry tags s)) as [[ok s1]|] eqn:Hp;
    [|discriminate].
  pose proof Hp as Hp'.
  apply Parse_parsed in Hp; [|reflexivity]. destruct Hp as (Hp & Hm & _).
  simpl in Hm.
  assert (Hok : ok = true).
  { destruct ok; [reflexivity|]. unfold Import_after_Parse in H.
    simpl in H. discriminate H. }
  subst ok. exists s1. split; [reflexivity|].
  apply Import_after_Parse_cases in H; [|exact Hp].
  destruct H as [[Hr _]|(_ & Ht & _ & Hj)]; [contradiction|].
  split; [|exact Ht]. rewrite Hj.
  destruct (isDirty (mProject s)); simpl; rewrite ?tracks_foldl; simpl;
    now rewrite Hm.
Qed.

(** Property X4.  What the parser returns and what it leaves in the
    result agree: if it accepts every tag the result is still [Success];
    if it refuses a tag the result is [Failed] and a message is kept for
    the user. *)
Theorem parser_verdict_matches_the_result evs s b s' :
  mUpdateResult s = Success -> feed E evs s = Some (b, s') ->
  if b then mUpdateResult s' = Success
  else mUpdateResult s' = Failed /\ mErrorMsg s' <> "".
Proof.
  intros Hs H. destruct b.
  - eapply feed_accepts; eassumption.
  - eapply feed_refuses; eassumption.
Qed.

(** Property X5.  After a fatal error nothing is parsed any more: with a
    result other than [Success], whatever events still arrive leave the
    handle exactly as it is. *)
Theorem no_parsing_after_a_failure evs s :
  mUpdateResult s <> Success -> exists b, feed E evs s = Some (b, s).
Proof.
  intros Hs. induction evs as [|[t attrs|t] rest IH]; simpl.
  - now exists true.
  - rewrite HandleXMLTag_after_failure by exact Hs. now exists false.
  - rewrite HandleXMLEndTag_after_failure by exact Hs. exact IH.
Qed.

(** Property X6.  The stack of handlers follows the nesting of the
    document.  When the parser accepts a run of events, the depth of the
    stack has grown by the open tags and shrunk by the close tags of the
    run, and the cursor ([mCurrentTag], [mParentTag]) names the frame on
    top of the stack, if there is one. *)
Theorem stack_follows_the_nesting evs s s' :
  mUpdateResult s = Success -> cursor_on_top s ->
  feed E evs s = Some (true, s') ->
  (length (mHandlers s') + closes evs = length (mHandlers s) + opens evs)%nat
  /\ cursor_on_top s'.
Proof.
  revert s. induction evs as [|e rest IH]; intros s Hs Hc.
  - simpl. intros H; invc H. split; [reflexivity|exact Hc].
  - destruct (opens_closes_cons e rest) as [-> ->].
    destruct e as [t attrs|t]; simpl.
    + destruct (HandleXMLTag E t attrs s) as [[[] s1]|] eqn:Ht;
        try discriminate.
      pose proof (HandleXMLTag_accepts _ _ _ _ Ht) as [_ Hs1].
      apply HandleXMLTag_effect in Ht.
      destruct Ht as ((hd & h1) & h2 & h3 & _).
      intros H. apply IH in H; [| exact Hs1 |].
      * destruct H as [H1 H2]. split; [|exact H2].
        rewrite h1 in H1. simpl in H1. lia.
      * unfold cursor_on_top. rewrite h1. simpl. auto.
    + destruct (HandleXMLEndTag t s) as [s1|] eqn:Ht; [|discriminate].
      pose proof (HandleXMLEndTag_result _ _ _ Ht) as Hs1.
      apply HandleXMLEndTag_effect in Ht; [|exact Hs].
      destruct Ht as ((nd & h1) & h2 & _).
      intros H. apply IH in H; [|now rewrite Hs1|exact h2].
      destruct H as [H1 H2]. split; [|exact H2].
      rewrite h1. simpl. lia.
Qed.

(** Property X7.  An accepted [simpleblockfile], [silentblockfile] or
    [pcmaliasblockfile] tag queues exactly one descriptor, bound to the
    track and the clip that are active when the tag is met, and adds its
    length to the total with the wrap-around of the 64-bit [sampleCount];
    every other accepted tag leaves the queue and the total as they
    are. *)
Theorem block_tag_queues_one_descriptor t attrs s s' :
  HandleXMLTag E t attrs s = Some (true, s') ->
  if is_block_tag t then
    exists fi,
      mFiles s' = (mFiles s ++ [fi])%list
      /\ track fi = mWaveTrack s /\ clip fi = mClip s
      /\ mTotalSamples s' = to_int64 (mTotalSamples s + len fi)
  else mFiles s' = mFiles s /\ mTotalSamples s' = mTotalSamples s.
Proof.
  intros H. apply HandleXMLTag_effect in H. destruct H as (_ & _ & _ & H).
  unfold queue_step in H. destruct (is_block_tag t); [|exact H].
  destruct H as (fi & c1 & c2 & c3 & c4 & _). exists fi. auto.
Qed.

Lemma to_int64_small z :
  (- 2 ^ 63 <= z < 2 ^ 63)%Z -> to_int64 z = z.
Proof.
  intros Hz. unfold to_int64. rewrite Z.mod_small by lia. lia.
Qed.

Lemma to_int64_add a b : to_int64 (to_int64 a + b) = to_int64 (a + b).
Proof.
  unfold to_int64.
  replace ((a + 2 ^ 63) mod 2 ^ 64 - 2 ^ 63 + b + 2 ^ 63)%Z
    with ((a + 2 ^ 63) mod 2 ^ 64 + b)%Z by lia.
  rewrite Zplus_mod_idemp_l. f_equal. f_equal. lia.
Qed.

Lemma sum_len_nonneg files :
  Forall (fun fi => (0 <= len fi)%Z /\ (0 <= origin fi)%Z) files ->
  (0 <= sum_len files)%Z.
Proof.
  unfold sum_len. induction 1 as [|fi l [Hl _] _ IH]; simpl; lia.
Qed.

(** Property X8.  The total the progress dialog is given is the sum of
    the queued lengths, taken in the 64 bits of a [sampleCount].  If it
    is so before some events are parsed (as in a fresh handle, where both
    are zero) it is so after them, whether the parser accepts them or
    fails: the total is the sum itself as long as the sum stays below
    2^63, and its wrap-around beyond.  The queue has only grown at its
    end, and no queued length or origin is negative. *)
Theorem total_is_the_sum_of_the_queue evs s b s' :
  feed E evs s = Some (b, s') ->
  mTotalSamples s = to_int64 (sum_len (mFiles s)) ->
  Forall (fun fi => (0 <= len fi)%Z /\ (0 <= origin fi)%Z) (mFiles s) ->
  mTotalSamples s' = to_int64 (sum_len (mFiles s'))
  /\ ((sum_len (mFiles s') < 2 ^ 63)%Z ->
      mTotalSamples s' = sum_len (mFiles s'))
  /\ Forall (fun fi => (0 <= len fi)%Z /\ (0 <= origin fi)%Z) (mFiles s')
  /\ exists added, mFiles s' = (mFiles s ++ added)%list.
Proof.
  assert (Hstep : forall t s0 s1,
             (queue_kept s0 s1 \/ queue_step t s0 s1) ->
             mTotalSamples s0 = to_int64 (sum_len (mFiles s0)) ->
             Forall (fun fi => (0 <= len fi)%Z /\ (0 <= origin fi)%Z)
                    (mFiles s0) ->
             mTotalSamples s1 = to_int64 (sum_len (mFiles s1))
             /\ Forall (fun fi => (0 <= len fi)%Z /\ (0 <= origin fi)%Z)
                       (mFiles s1)
             /\ exists added, mFiles s1 = (mFiles s0 ++ added)%list).
  { intros t s0 s1 Hq Hsum Hall.
    assert (Hk : queue_kept s0 s1 \/ exists fi, queued_one s0 s1 fi).
    { destruct Hq as [Hq|Hq]; [now left|]. unfold queue_step in Hq.
      destruct (is_block_tag t); [now right|now left]. }
    destruct Hk as [[c1 c2]|(fi & c1 & c2 & _ & _ & c5 & c6)].
    - rewrite c1, c2. split; [exact Hsum|]. split; [exact Hall|].
      exists []. now rewrite app_nil_r.
    - rewrite c1, c2, sum_len_app, Hsum, to_int64_add.
      split; [reflexivity|].
      split; [|now exists [fi]].
      apply Forall_app. split; [exact Hall|]. constructor; auto. }
  assert (Hmain : forall evs s b s',
             feed E evs s = Some (b, s') ->
             mTotalSamples s = to_int64 (sum_len (mFiles s)) ->
             Forall (fun fi => (0 <= len fi)%Z /\ (0 <= origin fi)%Z)
                    (mFiles s) ->
             mTotalSamples s' = to_int64 (sum_len (mFiles s'))
             /\ Forall (fun fi => (0 <= len fi)%Z /\ (0 <= origin fi)%Z)
                       (mFiles s')
             /\ exists added, mFiles s' = (mFiles s ++ added)%list).
  { clear evs s b s'.
    induction evs as [|[t attrs|t] rest IH]; intros s b s'; simpl.
    - intros H Hsum Hall. invc H. split; [exact Hsum|]. split; [exact Hall|].
      exists []. now rewrite app_nil_r.
    - destruct (HandleXMLTag E t attrs s) as [[ok s1]|] eqn:Ht;
        [|discriminate].
      apply HandleXMLTag_effect in Ht.
      assert (Hq : queue_kept s s1 \/ queue_step t s s1).
      { destruct ok; [right; apply Ht|apply Ht]. }
      intros H Hsum Hall.
      destruct (Hstep t s s1 Hq Hsum Hall) as (k1 & k2 & added & k3).
      destruct ok.
      + destruct (IH _ _ _ H k1 k2) as (j1 & j2 & added' & j3).
        split; [exact j1|]. split; [exact j2|].
        exists (added ++ added')%list. now rewrite j3, k3, app_assoc.
      + invc H. split; [exact k1|]. split; [exact k2|]. now exists added.
    - destruct (HandleXMLEndTag t s) as [s1|] eqn:Ht; [|discriminate].
      assert (Hq : queue_kept s s1).
      { destruct (mUpdateResult s) eqn:Hs.
        2: { apply HandleXMLEndTag_effect in Ht; [apply Ht|exact Hs]. }
        all: rewrite HandleXMLEndTag_after_failure in Ht
            by (rewrite Hs; discriminate);
          injection Ht as <-; split; reflexivity. }
      intros H Hsum Hall.
      destruct (Hstep t s s1 (or_introl Hq) Hsum Hall)
        as (k1 & k2 & added & k3).
      destruct (IH _ _ _ H k1 k2) as (j1 & j2 & added' & j3).
      split; [exact j1|]. split; [exact j2|].
      exists (added ++ added')%list. now rewrite j3, k3, app_assoc. }
  intros H Hsum Hall.
  destruct (Hmain _ _ _ _ H Hsum Hall) as (j1 & j2 & j3).
  split; [exact j1|]. split; [|split; [exact j2|exact j3]].
  intros Hlt. rewrite j1. apply to_int64_small.
  pose proof (sum_len_nonneg _ j2). lia.
Qed.

(** ** The resolver: one run per descriptor *)

Lemma strided_length src stride offset n b :
  strided src stride offset n = Some b -> length b = n.
Proof.
  unfold strided. intros H. apply length_mapM in H.
  now rewrite length_seq in H.
Qed.

Lemma decode_Buffer_length p filename pos cnt chan format info b :
  decode E p filename pos cnt chan format info = Buffer b ->
  length b = Z.to_nat cnt.
Proof.
  unfold decode. destruct p.
  - intros H; invc H. apply length_read_into.
  - destruct (negb _); [discriminate|]. intros H; invc H.
    rewrite length_map. apply length_read_into.
  - destruct (negb _); [discriminate|].
    destruct (strided _ _ _ _) as [b'|] eqn:Hs; [|discriminate].
    intros H; invc H. eapply strided_length, Hs.
  - destruct (negb _); [discriminate|].
    destruct (strided _ _ _ _) as [b'|] eqn:Hs; [|discriminate].
    intros H; invc H. apply length_read_into.
Qed.

Lemma got_run_silence p n s :
  got_run p (SilenceRun n) s
          (set_objs (alter (add_run (SilenceRun n)) p (objs s)) s).
Proof. exists (add_run (SilenceRun n)). split; [reflexivity|]. now intros o. Qed.

Lemma got_run_frame p r s0 s s' s1 :
  objs s0 = objs s -> objs s1 = objs s' ->
  got_run p r s0 s' -> got_run p r s s1.
Proof.
  intros H0 H1 (g & Hg & Hk). exists g. split; [|exact Hk].
  now rewrite H1, Hg, H0.
Qed.

Lemma give_silence_got_run fi msg s b s' :
  well_owned fi s = true -> mClip s = clip fi -> mWaveTrack s = track fi ->
  give_silence msg (path fi) (len fi) s = Some (b, s') ->
  exists p, owner fi = Some p /\ is_Some (objs s !! p)
            /\ got_run p (SilenceRun (len fi)) s s'.
Proof.
  intros Hw Hc Ht. unfold give_silence.
  set (s1 := snd (SetWarning msg s)).
  set (s2 := snd (SetWarning _ s1)).
  destruct (SetWarning_objs msg s) as (a1 & a2 & a3). fold s1 in a1, a2, a3.
  destruct (SetWarning_objs (error_while_processing (path fi)) s1)
    as (b1 & b2 & b3). fold s2 in b1, b2, b3.
  assert (Hw2 : well_owned fi s2 = true).
  { rewrite (well_owned_frame fi s1 s2 b1), (well_owned_frame fi s s1 a1).
    exact Hw. }
  destruct (AddSilence_appends fi (len fi) s2 Hw2) as (p & Hp & Hsome & Ha).
  { now rewrite b2, a2. } { now rewrite b3, a3. }
  rewrite Ha. intros H; invc H. exists p. split; [exact Hp|].
  split; [now rewrite <- a1, <- b1|].
  eapply got_run_frame; [| |apply got_run_silence]; [|reflexivity].
  now rewrite b1, a1.
Qed.

(** Resolving a descriptor that points at its owner gives the owner one
    run of the length of the descriptor, whichever branch is taken. *)
Lemma resolve_one_got_run fi s b s' :
  well_owned fi s = true -> (0 <= len fi)%Z ->
  resolve_one E fi s = Some (b, s') ->
  exists p r, owner fi = Some p /\ is_Some (objs s !! p)
              /\ run_length r = len fi /\ got_run p r s s'.
Proof.
  intros Hw Hlen. unfold resolve_one.
  set (s0 := set_mWaveTrack (track fi) (set_mClip (clip fi) s)).
  assert (Hw0 : well_owned fi s0 = true) by exact Hw.
  assert (Hsil : forall msg,
             give_silence msg (path fi) (len fi) s0 = Some (b, s') ->
             exists p r, owner fi = Some p /\ is_Some (objs s !! p)
                         /\ run_length r = len fi /\ got_run p r s s').
  { intros msg H.
    destruct (give_silence_got_run fi msg s0 b s' Hw0 eq_refl eq_refl H)
      as (p & Hp & Hsome & Hg).
    exists p, (SilenceRun (len fi)). repeat split; auto. }
  destruct (String.eqb (path fi) "").
  - destruct (AddSilence_appends fi (len fi) s0 Hw0 eq_refl eq_refl)
      as (p & Hp & Hsome & Ha).
    rewrite Ha. intros H; invc H.
    exists p, (SilenceRun (len fi)). repeat split; auto.
    apply (got_run_silence p (len fi) s0).
  - unfold AddSamples.
    destruct (wxFile_Open E (path fi)); simpl; [|apply Hsil].
    destruct (sf_open_fd E (path fi)) as [info|]; [|apply Hsil].
    destruct ((origin fi >? 0)%Z && _); [apply Hsil|].
    intros H. apply bind_Some in H as (format & Hf & H).
    destruct (decode E _ _ _ _ _ _ _) as [| |buf] eqn:Hd;
      [discriminate|revert H; apply Hsil|].
    apply bind_Some in H as (s1 & Ha & H). invc H.
    destruct (Append_to_owner_appends fi format buf s0 Hw0 eq_refl eq_refl)
      as (p & Hp & Ha').
    assert (Heq : Some s'
                  = Some (set_objs
                            (alter (fun o => flush (add_run (SampleRun format
                                                                buf) o))
                                   p (objs s0)) s0))
      by (rewrite <- Ha; exact Ha').
    injection Heq as ->.
    exists p, (SampleRun format buf). split; [exact Hp|].
    assert (Hsome : is_Some (objs s !! p)).
    { unfold well_owned in Hw. apply andb_true_iff in Hw.
      destruct Hw as [H1 H2]. unfold owner in Hp.
      destruct (clip fi) as [c|]; [|destruct (track fi) as [t|]];
        invc Hp; eapply kind_of_is_Some; eassumption. }
    split; [exact Hsome|]. split.
    + simpl. apply decode_Buffer_length in Hd. rewrite Hd. lia.
    + exists (fun o => flush (add_run (SampleRun format buf) o)).
      split; [reflexivity|]. now intros o.
Qed.

Lemma got_run_runs p r s s' :
  got_run p r s s' ->
  runs_of s' p = (fun l => l ++ [r])%list <$> runs_of s p
  /\ forall q, q <> p -> objs s' !! q = objs s !! q.
Proof.
  intros (g & Hg & Hk). unfold runs_of. rewrite Hg. split.
  - rewrite list_lookup_alter_eq. destruct (objs s !! p) as [o|]; simpl;
      [|reflexivity]. now rewrite (proj2 (Hk o)).
  - intros q Hq. now rewrite list_lookup_alter_ne.
Qed.






Lemma resolve_one_frame fi s b s' :
  resolve_one E fi s = Some (b, s') ->
  b = true
  /\ same_frame (set_mWaveTrack (track fi) (set_mClip (clip fi) s)) s'.
Proof.
  unfold resolve_one. destruct (String.eqb (path fi) ""); intros H;
    [apply AddSilence_frame in H|apply AddSamples_frame in H]; exact H.
Qed.

(** Property X9.  No descriptor fails the import.  Whatever happens to
    its file (it does not open, the seek fails, the read comes short, or
    all goes well), resolving a descriptor returns [true] and leaves the
    result of the import, the host project, the local tracks and the
    queue as they were. *)
Theorem no_block_fails_the_import fi s b s' :
  resolve_one E fi s = Some (b, s') ->
  b = true /\ mUpdateResult s' = mUpdateResult s
  /\ mProject s' = mProject s /\ mTracks s' = mTracks s
  /\ mFiles s' = mFiles s /\ mTotalSamples s' = mTotalSamples s.
Proof.
  intros H. apply resolve_one_frame in H.
  destruct H as (Hb & h1 & h2 & h3 & h4 & h5 & _). simpl in *. auto 10.
Qed.

(** Property X10.  Every descriptor becomes one run of exactly its
    length.  If a descriptor of length [len >= 0] points at its owner,
    resolving it (to silence, to decoded samples, or to silence after a
    failure) puts exactly one run after the runs of the owner, the run is
    [len] samples long, and no other clip or track changes. *)
Theorem every_descriptor_gives_one_run fi s b s' :
  well_owned fi s = true -> (0 <= len fi)%Z ->
  resolve_one E fi s = Some (b, s') ->
  exists p r,
    owner fi = Some p /\ run_length r = len fi
    /\ runs_of s' p = (fun l => l ++ [r])%list <$> runs_of s p
    /\ forall q, q <> p -> objs s' !! q = objs s !! q.
Proof.
  intros Hw Hlen H.
  destruct (resolve_one_got_run fi s b s' Hw Hlen H)
    as (p & r & Hp & _ & Hr & Hg).
  destruct (got_run_runs p r s s' Hg) as [H1 H2].
  exists p, r. auto.
Qed.


Lemma resolve_loop_interrupted_by_Update files i processed s res s' :
  resolve_loop E files i processed s = Some (Some res, s') ->
  exists j q t, ProgressUpdate E j q t = res.
Proof.
  revert i processed s.
  induction files as [|fi rest IH]; intros i processed s; simpl.
  - discriminate.
  - destruct (is_Success (ProgressUpdate E i processed (mTotalSamples s)));
      simpl.
    + destruct (resolve_one E fi _) as [[b s1]|]; [|discriminate].
      apply IH.
    + intros H; invc H. eauto.
Qed.

(** Property X12.  An import that parses and that nobody interrupts
    succeeds.  If the parser accepts the document and the progress check
    answers [Success] whenever it is asked, then [Import], when it
    returns, returns [Success]. *)
Theorem accepted_and_uninterrupted_import_succeeds tags d s s1 r s' :
  (forall j q t, ProgressUpdate E j q t = Success) ->
  Parse E d (Import_entry tags s) = Some (true, s1) ->
  Import E tags d s = Some (r, s') ->
  r = Success.
Proof.
  intros Hup Hp. unfold Import. rewrite Hp.
  apply Parse_parsed in Hp; [|reflexivity].
  destruct Hp as (_ & _ & Hs). specialize (Hs eq_refl).
  unfold Import_after_Parse. simpl.
  set (c := negb (String.eqb (mErrorMsg s1) "")).
  set (s0 := if c then _ else s1).
  assert (H0 : mUpdateResult s0 = Success) by (unfold s0; now destruct c).
  clearbody s0. rewrite H0. simpl. rewrite andb_false_r.
  destruct (resolve_loop E (mFiles s0) 0 0 s0) as [[[res|] s2]|] eqn:Hl;
    [| |discriminate].
  - pose proof (resolve_loop_interrupted_by_Update _ _ _ _ _ _ Hl)
      as (j & q & t & Hres).
    apply resolve_loop_frame in Hl. destruct Hl as (_ & _ & _ & Hne & _).
    rewrite Hup in Hres. subst res. contradiction.
  - apply resolve_loop_frame in Hl. destruct Hl as (_ & _ & _ & k4).
    assert (Hs2 : mUpdateResult s2 = Success).
    { destruct k4 as [k4|[_ ->]]; assumption. }
    rewrite Hs2. simpl.
    destruct (isDirty (mProject s)); intros H; injection H as <- _;
      reflexivity.
Qed.

(** ** Tags, root attributes and the file index *)

Lemma upper_ascii_idempotent c : upper_ascii (upper_ascii c) = upper_ascii c.
Proof. destruct c as [[] [] [] [] [] [] [] []]; reflexivity. Qed.

Lemma MakeUpper_idempotent n : MakeUpper (MakeUpper n) = MakeUpper n.
Proof.
  unfold MakeUpper. induction n as [|c n IH]; simpl; [reflexivity|].
  now rewrite upper_ascii_idempotent, IH.
Qed.

Lemma tag_key_upper attr : MakeUpper (tag_key attr) = tag_key attr.
Proof.
  unfold tag_key. destruct (String.eqb attr "track");
    [reflexivity|apply MakeUpper_idempotent].
Qed.

Lemma HandleTags_loop_stores attrs s :
  exists pre,
    mTags (snd (HandleTags_loop E attrs s))
    = (mTags s ++ map as_tag (List.filter kept_as_tag pre))%list
    /\ Forall (fun av => bad_string E av = false) pre
    /\ if fst (HandleTags_loop E attrs s) then pre = attrs
       else exists av post,
           attrs = (pre ++ av :: post)%list /\ bad_string E av = true.
Proof.
  revert s. induction attrs as [|[attr value] rest IH]; intros s.
  - exists []. simpl. split; [now rewrite app_nil_r|]. split; [constructor|].
    reflexivity.
  - assert (Hskip : kept_as_tag (attr, value) = false ->
                    bad_string E (attr, value) = false ->
                    exists pre,
                      mTags (snd (HandleTags_loop E rest s))
                      = (mTags s ++ map as_tag (List.filter kept_as_tag pre))
                          %list
                      /\ Forall (fun av => bad_string E av = false) pre
                      /\ if fst (HandleTags_loop E rest s)
                         then pre = (attr, value) :: rest
                         else exists av post,
                             (attr, value) :: rest = (pre ++ av :: post)%list
                             /\ bad_string E av = true).
    { intros Hk Hb. destruct (IH s) as (pre & H1 & H2 & H3).
      exists ((attr, value) :: pre). cbn [List.filter]. rewrite Hk.
      split; [exact H1|]. split; [now constructor|].
      destruct (fst (HandleTags_loop E rest s)).
      - now rewrite H3.
      - destruct H3 as (av & post & -> & Hav). now exists av, post. }
    cbn [HandleTags_loop].
    destruct (String.eqb value "") eqn:Hv.
    { apply Hskip; unfold kept_as_tag, bad_string; simpl; now rewrite Hv. }
    destruct (negb (IsGoodString E attr) || negb (IsGoodString E value))
      eqn:Hg.
    { exists []. simpl. split; [now rewrite app_nil_r|].
      split; [constructor|]. exists (attr, value), rest.
      split; [reflexivity|]. unfold bad_string. simpl. now rewrite Hv, Hg. }
    destruct (String.eqb attr "id3v2") eqn:Ha.
    { apply Hskip; unfold kept_as_tag, bad_string; simpl;
        rewrite Hv, ?Ha, ?Hg; reflexivity. }
    fold (tag_key attr).
    destruct (IH (SetTag (tag_key attr) value s)) as (pre & H1 & H2 & H3).
    exists ((attr, value) :: pre). cbn [List.filter].
    assert (Hk : kept_as_tag (attr, value) = true).
    { unfold kept_as_tag. simpl. now rewrite Hv, Ha. }
    rewrite Hk. split.
    + rewrite H1. unfold SetTag. simpl. now rewrite <- app_assoc.
    + split.
      * constructor; [|exact H2]. unfold bad_string. simpl.
        now rewrite Hv, Hg.
      * revert H3.
        destruct (fst (HandleTags_loop E rest (SetTag (tag_key attr) value s)));
          intros H3.
        -- now rewrite H3.
        -- destruct H3 as (av & post & -> & Hav). now exists av, post.
Qed.

(** Property X13.  [HandleTags] stores the legacy attributes of [tags]
    under normalised keys, and stores all of them.  It always returns,
    with no handler.  When it accepts, no attribute that has a value
    fails the string check, and the tags are those set before followed,
    in the order of the attribute list, by one tag for every attribute
    that has a value and is not [id3v2]: its value under the key
    [TRACKNUMBER] for the attribute [track] and under the upper-cased
    attribute name otherwise.  When it refuses, the same holds of the
    attributes before the first one that has a value and fails the string
    check.  Every key it stores is in upper case. *)
Theorem legacy_tags_are_normalised s :
  exists ok s' pre,
    HandleTags E s = Some (ok, None, s')
    /\ mTags s'
       = (mTags s ++ map as_tag (List.filter kept_as_tag pre))%list
    /\ Forall (fun av => bad_string E av = false) pre
    /\ (if ok then pre = mAttrs s
        else exists av post,
            mAttrs s = (pre ++ av :: post)%list /\ bad_string E av = true)
    /\ Forall (fun kv => MakeUpper (fst kv) = fst kv)
              (map as_tag (List.filter kept_as_tag pre)).
Proof.
  unfold HandleTags.
  destruct (HandleTags_loop_stores (mAttrs s) s) as (pre & H1 & H2 & H3).
  destruct (HandleTags_loop E (mAttrs s) s) as [ok s1]. simpl in H1, H3.
  exists ok, s1, pre. split; [now destruct ok|].
  split; [exact H1|]. split; [exact H2|]. split; [exact H3|].
  apply Forall_map. apply Forall_forall. intros av _. apply tag_key_upper.
Qed.

Lemma SetError_attrs msg s :
  mProjectAttrs (snd (SetError msg s)) = mProjectAttrs s.
Proof. unfold SetError, keep_first. now destruct (String.eqb _ _). Qed.

Lemma keep_first_attrs msg s :
  mProjectAttrs (keep_first msg s) = mProjectAttrs s.
Proof. unfold keep_first. now destruct (String.eqb _ _). Qed.

Lemma HandleProject_projname_attrs value s :
  mProjectAttrs (snd (HandleProject_projname E value s)) = mProjectAttrs s.
Proof.
  unfold HandleProject_projname. repeat (break_match; simpl); reflexivity.
Qed.

Ltac field_kept :=
  unfold field_view; simpl;
  repeat match goal with
         | |- context [String.eqb ?n ?c] =>
             destruct (String.eqb_spec n c); [subst; try congruence|]
         end;
  try reflexivity.

Lemma HandleProject_attr_field attr value n s name :
  attr <> name ->
  field_view (mProjectAttrs (snd (HandleProject_attr E attr value n s))) name
  = field_view (mProjectAttrs s) name.
Proof.
  intros Hne. unfold HandleProject_attr, set_attr.
  pose proof (HandleProject_projname_attrs value s) as Hp.
  destruct (HandleProject_projname E value s) as [found sp]. simpl in Hp.
  repeat match goal with
         | |- context [if ?b then _ else _] =>
             match b with
             | String.eqb attr ?c =>
                 destruct (String.eqb_spec attr c); [subst attr|]
             | _ && _ => destruct b eqn:?
             | _ => destruct b
             end
         | |- context [match ?x with Some _ => _ | None => _ end] =>
             destruct x
         end;
    simpl; rewrite ?SetError_attrs, ?keep_first_attrs, ?Hp; simpl;
    try reflexivity;
    repeat match goal with
           | H : _ && _ = true |- _ =>
               apply andb_true_iff in H; destruct H as [_ H];
               apply String.eqb_eq in H; subst attr
           end;
    try (clear - Hne; field_kept).
Qed.

(** Property X14.  The attribute loop of the root rule touches the field
    of an attribute only when it meets that attribute.  For every
    attribute name that does not occur in the list, the present-flag and
    the value of its field are after the loop what they were before,
    whether the loop ran to its end or returned early. *)
Theorem absent_root_attribute_keeps_its_field attrs n s name :
  ~ In name (map fst attrs) ->
  field_view (mProjectAttrs (snd (HandleProject_loop E attrs n s))) name
  = field_view (mProjectAttrs s) name.
Proof.
  revert n s. induction attrs as [|[attr value] rest IH]; intros n s Hin;
    simpl in *; [reflexivity|].
  assert (Ha : attr <> name) by tauto.
  pose proof (HandleProject_attr_field attr value n s name Ha) as Hstep.
  destruct (HandleProject_attr E attr value n s) as [[go n'] s1].
  simpl in Hstep. destruct go; simpl; [rewrite IH by tauto|]; exact Hstep.
Qed.

Lemma HandleProject_attr_bad attr value n s :
  bad_number E attr value ->
  fst (fst (HandleProject_attr E attr value n s)) = false.
Proof.
  unfold bad_number, HandleProject_attr.
  intros [[-> Hl]|[Hin Hd]].
  - destruct (negb (IsGoodString E value)); [reflexivity|]. simpl.
    destruct (good_long E value) as [l|]; [|reflexivity].
    apply Z.ltb_lt in Hl. now rewrite Hl.
  - destruct (negb (IsGoodString E value)); [reflexivity|].
    simpl in Hin.
    destruct Hin as [<-|[<-|[<-|[<-|[<-|[]]]]]]; simpl;
      rewrite ?andb_false_r, Hd; reflexivity.
Qed.

Lemma HandleProject_loop_bad attrs attr value n s :
  In (attr, value) attrs -> bad_number E attr value ->
  fst (fst (HandleProject_loop E attrs n s)) = false.
Proof.
  revert n s. induction attrs as [|[a v] rest IH]; intros n s Hin Hbad;
    simpl in *; [contradiction|].
  destruct (HandleProject_attr E a v n s) as [[go n'] s1] eqn:Hstep.
  destruct go; [|reflexivity].
  destruct Hin as [Heq|Hin]; [|now apply IH].
  injection Heq as -> ->.
  pose proof (HandleProject_attr_bad attr value n s Hbad) as Hf.
  rewrite Hstep in Hf. discriminate Hf.
Qed.

Lemma HandleXMLTag_root t attrs s :
  mUpdateResult s = Success ->
  t = "project" \/ t = "audacityproject" ->
  HandleXMLTag E t attrs s
  = '(success, hd, s1) ← HandleProject E
        (set_mAttrs attrs
           (set_mCurrentTag t (set_mParentTag (mCurrentTag s) s)));
    if negb success then Some (SetError not_recognized s1)
    else
      match hd with
      | None => Some (true, push None s1)
      | Some h =>
          match child_tag E h t attrs s1 with
          | Some (true, s2) => Some (true, push hd s2)
          | Some (false, s2) => Some (SetError not_recognized s2)
          | None => None
          end
      end.
Proof.
  intros Hs Ht. unfold HandleXMLTag. rewrite Hs. cbv iota zeta.
  change (negb (is_Success Success)) with false. cbv iota.
  unfold dispatch. cbv zeta.
  set (s0 := set_mAttrs attrs _).
  assert (Hc : String.eqb (mCurrentTag s0) "project"
               || String.eqb (mCurrentTag s0) "audacityproject" = true).
  { unfold s0. simpl. destruct Ht as [->| ->]; reflexivity. }
  now rewrite Hc.
Qed.

(** Property X15.  A root attribute that is a refused number ends the
    import wherever it stands in the list: a [vpos] that is no integer or
    is negative, or an [h], [zoom], [sel0], [sel1] or [rate] that is no
    number or is negative.  [HandleXMLTag] returns failure for the root
    tag, the result is [Failed], a message is kept, and the stack of open
    tags and the queue of block files are as they were. *)
Theorem bad_root_number_is_fatal t attrs attr value s :
  mUpdateResult s = Success ->
  t = "project" \/ t = "audacityproject" ->
  In (attr, value) attrs ->
  bad_number E attr value ->
  exists s',
    HandleXMLTag E t attrs s = Some (false, s')
    /\ mUpdateResult s' = Failed
    /\ mErrorMsg s' <> ""
    /\ mHandlers s' = mHandlers s
    /\ mFiles s' = mFiles s.
Proof.
  intros Hs Ht Hin Hbad. rewrite (HandleXMLTag_root _ _ _ Hs Ht).
  set (s0 := set_mAttrs attrs _). unfold HandleProject.
  change (mAttrs s0) with attrs.
  pose proof (HandleProject_loop_bad attrs attr value 0%Z s0 Hin Hbad) as Hf.
  pose proof (HandleProject_loop_view attrs 0%Z s0) as Hv.
  destruct (HandleProject_loop E attrs 0 s0) as [[go n] s1].
  simpl in Hf, Hv. subst go. simpl.
  eexists. split; [reflexivity|].
  split; [reflexivity|].
  split; [apply keep_first_nonempty; discriminate|].
  pose proof (failed_view not_recognized (LogError not_recognized) s1)
    as Hv2.
  simpl in Hv2. unfold parse_view in Hv, Hv2.
  injection Hv2 as Ha _ _ Hb _ _ _. injection Hv as Hc _ _ Hd _ _ _.
  split; [exact (eq_trans Ha Hc)|exact (eq_trans Hb Hd)].
Qed.

Lemma HandleProject_attr_bad_message attr value n s :
  IsGoodString E value = true ->
  bad_number E attr value ->
  HandleProject_attr E attr value n s
  = (false, n, snd (SetError (invalid_project_attribute attr) s)).
Proof.
  unfold bad_number, HandleProject_attr. intros Hg [[-> Hl]|[Hin Hd]];
    rewrite Hg; cbv zeta; simpl negb; cbv iota.
  - change (String.eqb "vpos" "vpos") with true. cbv iota.
    destruct (good_long E value) as [l|]; [|reflexivity].
    apply Z.ltb_lt in Hl. now rewrite Hl.
  - simpl in Hin.
    destruct Hin as [<-|[<-|[<-|[<-|[<-|[]]]]]]; simpl;
      rewrite ?andb_false_r, Hd; reflexivity.
Qed.

(** Property X16.  When the first attribute of the root tag is a refused
    number that passed the string check, the message kept for the user
    names the attribute, except that a refused [rate] is reported under
    the name [selLow]; the log holds that message followed by the message
    of [HandleXMLTag], which does not replace it. *)
Theorem refused_rate_is_reported_as_selLow t attr value rest s :
  mUpdateResult s = Success ->
  mErrorMsg s = "" ->
  t = "project" \/ t = "audacityproject" ->
  IsGoodString E value = true ->
  bad_number E attr value ->
  exists s',
    HandleXMLTag E t ((attr, value) :: rest) s = Some (false, s')
    /\ mErrorMsg s' = invalid_project_attribute attr
    /\ mLog s' = (mLog s ++ [LogError (invalid_project_attribute attr);
                             LogError not_recognized])%list.
Proof.
  intros Hs He Ht Hg Hbad. rewrite (HandleXMLTag_root _ _ _ Hs Ht).
  set (s0 := set_mAttrs _ _). unfold HandleProject.
  change (mAttrs s0) with ((attr, value) :: rest).
  cbn [HandleProject_loop].
  rewrite (HandleProject_attr_bad_message attr value 0%Z s0 Hg Hbad).
  cbv iota beta. simpl negb. cbv iota. unfold reject. simpl mbind.
  eexists. split; [reflexivity|].
  assert (Hm : invalid_project_attribute attr <> "").
  { unfold invalid_project_attribute. discriminate. }
  split.
  - unfold SetError, keep_first, log. simpl.
    change (mErrorMsg s0) with (mErrorMsg s). rewrite He. simpl.
    destruct (String.eqb_spec (invalid_project_attribute attr) "");
      [contradiction|reflexivity].
  - pose proof (SetError_logged not_recognized
                  (snd (SetError (invalid_project_attribute attr) s0))) as L1.
    rewrite (SetError_logged (invalid_project_attribute attr) s0) in L1.
    rewrite <- app_assoc in L1. exact L1.
Qed.

(** ** Where a simple block file gets its path *)

Lemma SetWarning_filemap msg s :
  mFileMap (snd (SetWarning msg s)) = mFileMap s.
Proof. unfold SetWarning, keep_first. now destruct (String.eqb _ _). Qed.

Lemma HandleSimpleBlockFile_loop_path attrs f0 l0 s f l s1 :
  HandleSimpleBlockFile_loop E attrs f0 l0 s = (Some (f, l), s1) ->
  f = f0
  \/ exists attr value,
       In (attr, value) attrs /\ wxStricmp_eq attr "filename" = true
       /\ IsGoodFileString E value = true
       /\ mFileMap s !! value = Some f.
Proof.
  revert f0 l0 s. induction attrs as [|[attr value] rest IH];
    intros f0 l0 s H; simpl in H.
  - injection H as -> _ _. now left.
  - assert (Hlift : forall f1 l1 s2,
               mFileMap s2 = mFileMap s ->
               HandleSimpleBlockFile_loop E rest f1 l1 s2 = (Some (f, l), s1) ->
               f = f1
               \/ exists attr0 value0,
                    In (attr0, value0) ((attr, value) :: rest)
                    /\ wxStricmp_eq attr0 "filename" = true
                    /\ IsGoodFileString E value0 = true
                    /\ mFileMap s !! value0 = Some f).
    { intros f1 l1 s2 Hm H2. apply IH in H2.
      destruct H2 as [->|(a & v & h1 & h2 & h3 & h4)]; [now left|].
      right. exists a, v. rewrite <- Hm. simpl. auto. }
    destruct (wxStricmp_eq attr "filename") eqn:Ha.
    + destruct (IsGoodFileString E value) eqn:Hg.
      * destruct (mFileMap s !! value) as [fn|] eqn:Hfn.
        -- apply Hlift in H; [|reflexivity].
           destruct H as [->|H]; [|now right].
           right. exists attr, value. simpl. auto.
        -- apply Hlift in H; [exact H|apply SetWarning_filemap].
      * apply Hlift in H; [exact H|reflexivity].
    + destruct (String.eqb attr "len").
      * destruct (good_longlong E value) as [n|]; [|discriminate H].
        destruct (n <=? 0)%Z; [discriminate H|].
        apply Hlift in H; [exact H|reflexivity].
      * apply Hlift in H; [exact H|reflexivity].
Qed.

(** Property X17.  The path of a queued simple block file is taken from
    the file index, never from the text of the tag.  When [HandleXMLTag]
    accepts a [simpleblockfile], the descriptor it appends has origin and
    channel zero, and its path is either empty or the entry the index
    holds for the value of an attribute named [filename] (in any letter
    case) that passed the file-string check. *)
Theorem simple_block_path_comes_from_the_index attrs s s' :
  HandleXMLTag E "simpleblockfile" attrs s = Some (true, s') ->
  exists fi,
    mFiles s' = (mFiles s ++ [fi])%list
    /\ origin fi = 0%Z /\ channel fi = 0%Z
    /\ (path fi = ""
        \/ exists attr value,
             In (attr, value) attrs /\ wxStricmp_eq attr "filename" = true
             /\ IsGoodFileString E value = true
             /\ mFileMap s !! value = Some (path fi)).
Proof.
  unfold HandleXMLTag. destruct (negb (is_Success (mUpdateResult s)));
    [discriminate|]. cbv zeta.
  set (s0 := set_mAttrs attrs _). unfold dispatch. cbv zeta.
  change (mCurrentTag s0) with "simpleblockfile". cbv iota beta.
  change (String.eqb "simpleblockfile" "project"
          || String.eqb "simpleblockfile" "audacityproject") with false.
  cbv iota.
  repeat match goal with
         | |- context [String.eqb "simpleblockfile" ?c] =>
             let b := eval vm_compute in (String.eqb "simpleblockfile" c) in
             change (String.eqb "simpleblockfile" c) with b; cbv iota
         end.
  unfold HandleSimpleBlockFile. change (mAttrs s0) with attrs.
  pose proof (HandleSimpleBlockFile_loop_view attrs "" 0%Z s0) as Hv.
  destruct (HandleSimpleBlockFile_loop E attrs "" 0 s0)
    as [[[f l]|] s1] eqn:Hloop; unfold accept, reject; simpl mbind;
    cbv iota beta; simpl negb; cbv iota; [|intros H; discriminate H].
  intros H. injection H as <-.
  apply HandleSimpleBlockFile_loop_path in Hloop.
  exists (mkFileinfo (mWaveTrack s1) (mClip s1) f l 0 0).
  split.
  - simpl. unfold parse_view in Hv. simpl in Hv.
    injection Hv as _ _ _ Hf _ _ _. now rewrite Hf.
  - split; [reflexivity|]. split; [reflexivity|]. simpl.
    destruct Hloop as [->|Hex]; [now left|right; exact Hex].
Qed.

(** ** The file index *)

Lemma index_of_the_listing files :
  forall (m : gmap string string) k,
    foldl (fun m fn => <[wxFileNameFromPath E fn := fn]> m) m files !! k
    = match last_named E k files with
      | Some fn => Some fn
      | None => m !! k
      end.
Proof.
  unfold last_named. induction files as [|x files IH]; intros m k; simpl.
  - reflexivity.
  - rewrite IH. destruct (String.eqb_spec (wxFileNameFromPath E x) k) as [Hk|Hk].
    + destruct (List.filter _ files) as [|y l] eqn:Hf.
      * simpl. subst k. now rewrite lookup_insert_eq.
      * change (last (x :: y :: l)) with (last (y :: l)).
        destruct (last (y :: l)) eqn:Hl; [reflexivity|].
        apply last_None in Hl. discriminate Hl.
    + destruct (last (List.filter _ files)); [reflexivity|].
      now rewrite lookup_insert_ne.
Qed.

(** Property X18.  The [projname] branch of the root rule files every
    file of the data directory under its base name, a later file
    replacing an earlier one of the same base name.  When the directory
    is found, looking a name up in the index gives the last listed file
    with that base name, and what the index held before when no listed
    file has it. *)
Theorem index_holds_the_last_file_of_each_name value s s' k :
  HandleProject_projname E value s = (true, s') ->
  mFileMap s' !! k
  = match last_named E k (GetAllFiles E (mProjDir s')) with
    | Some fn => Some fn
    | None => mFileMap s !! k
    end.
Proof.
  unfold HandleProject_projname.
  cbv zeta.
  destruct (if negb (String.eqb value "") then _ else _) as [p1 d1].
  destruct (if String.eqb p1 "" then _ else _) as [p2 d2].
  destruct (String.eqb p2 ""); intros H; [discriminate H|].
  injection H as <-. simpl. apply index_of_the_listing.
Qed.

(** ** Only the first message is kept *)

Lemma message_kept_refl s : message_kept s s.
Proof. intros _. reflexivity. Qed.

Lemma message_kept_trans s1 s2 s3 :
  message_kept s1 s2 -> message_kept s2 s3 -> message_kept s1 s3.
Proof.
  unfold message_kept. intros H12 H23 Hne.
  rewrite <- (H12 Hne). apply H23. now rewrite (H12 Hne).
Qed.

Lemma message_kept_same s s1 s2 :
  mErrorMsg s2 = mErrorMsg s1 -> message_kept s s1 -> message_kept s s2.
Proof. unfold message_kept. intros He H Hne. rewrite He. now apply H. Qed.

Lemma keep_first_kept msg s : message_kept s (keep_first msg s).
Proof.
  unfold message_kept, keep_first. intros Hne.
  destruct (String.eqb_spec (mErrorMsg s) ""); [contradiction|reflexivity].
Qed.

Lemma SetError_kept msg s : message_kept s (snd (SetError msg s)).
Proof.
  unfold SetError. simpl.
  apply (message_kept_same _ (keep_first msg (log (LogError msg) s)));
    [reflexivity|].
  apply (message_kept_trans _ (log (LogError msg) s));
    [intros _; reflexivity|apply keep_first_kept].
Qed.

Lemma SetWarning_kept msg s : message_kept s (snd (SetWarning msg s)).
Proof.
  unfold SetWarning. simpl.
  apply (message_kept_trans _ (log (LogWarning msg) s));
    [intros _; reflexivity|apply keep_first_kept].
Qed.

Ltac mk :=
  first
    [ apply message_kept_refl
    | apply SetError_kept
    | apply SetWarning_kept
    | assumption
    | (eapply message_kept_same; [|eassumption]; reflexivity)
    | (eapply message_kept_trans; [eassumption|];
       first [apply SetError_kept|apply SetWarning_kept])
    | (intros ?; reflexivity) ].

Lemma HandleProject_projname_kept value s :
  message_kept s (snd (HandleProject_projname E value s)).
Proof.
  unfold HandleProject_projname. cbv zeta.
  destruct (if negb (String.eqb value "") then _ else _) as [p1 d1].
  destruct (if String.eqb p1 "" then _ else _) as [p2 d2].
  destruct (String.eqb p2 ""); intros ?; reflexivity.
Qed.

Lemma HandleProject_attr_kept attr value n s :
  message_kept s (snd (HandleProject_attr E attr value n s)).
Proof.
  unfold HandleProject_attr, set_attr.
  pose proof (HandleProject_projname_kept value s) as Hp.
  destruct (HandleProject_projname E value s) as [found sp]. simpl in Hp.
  repeat match goal with
         | |- context [if ?b then _ else _] => destruct b
         | |- context [match ?x with Some _ => _ | None => _ end] =>
             destruct x
         end;
    cbn [snd]; mk.
Qed.

Lemma HandleProject_loop_kept attrs n s :
  message_kept s (snd (HandleProject_loop E attrs n s)).
Proof.
  revert n s. induction attrs as [|[attr value] rest IH]; intros n s; simpl.
  - mk.
  - pose proof (HandleProject_attr_kept attr value n s) as Hstep.
    destruct (HandleProject_attr E attr value n s) as [[go n'] s1].
    simpl in Hstep. destruct go; simpl; [|exact Hstep].
    eapply message_kept_trans; [exact Hstep|apply IH].
Qed.

Lemma HandleTags_loop_kept attrs s :
  message_kept s (snd (HandleTags_loop E attrs s)).
Proof.
  revert s. induction attrs as [|[attr value] rest IH]; intros s; simpl.
  - mk.
  - repeat match goal with
           | |- context [if ?b then _ else _] =>
               lazymatch b with
               | String.eqb attr "track" => fail
               | _ => destruct b
               end
           end; cbn [snd]; try mk; try apply IH.
    eapply message_kept_trans; [|apply IH]. intros ?; reflexivity.
Qed.

Lemma HandleSequence_attr_kept attr value s :
  message_kept s (snd (HandleSequence_attr E attr value s)).
Proof.
  unfold HandleSequence_attr.
  repeat match goal with
         | |- context [if ?b then _ else _] => destruct b
         | |- context [match ?x with Some _ => _ | None => _ end] =>
             destruct x
         end;
    cbn [snd]; mk.
Qed.

Lemma HandleSequence_loop_kept attrs s :
  message_kept s (snd (HandleSequence_loop E attrs s)).
Proof.
  revert s. induction attrs as [|[attr value] rest IH]; intros s; simpl.
  - mk.
  - pose proof (HandleSequence_attr_kept attr value s) as Hstep.
    destruct (HandleSequence_attr E attr value s) as [go s1].
    simpl in Hstep. destruct go; simpl; [|exact Hstep].
    eapply message_kept_trans; [exact Hstep|apply IH].
Qed.

Ltac loop_kept IH :=
  repeat match goal with
         | |- context [if ?b then _ else _] => destruct b
         | |- context [match ?x with Some _ => _ | None => _ end] =>
             destruct x
         end;
  first [ apply IH
        | apply SetError_kept
        | (eapply message_kept_trans; [|apply IH]; apply SetWarning_kept)
        | apply message_kept_refl ].

Lemma HandleWaveBlock_loop_kept attrs s :
  message_kept s (snd (HandleWaveBlock_loop E attrs s)).
Proof.
  revert s. induction attrs as [|[attr value] rest IH]; intros s; simpl.
  - mk.
  - loop_kept IH.
Qed.

Lemma HandleSimpleBlockFile_loop_kept attrs filename len s :
  message_kept s (snd (HandleSimpleBlockFile_loop E attrs filename len s)).
Proof.
  revert filename len s.
  induction attrs as [|[attr value] rest IH]; intros filename len s; simpl.
  - mk.
  - loop_kept IH.
Qed.

Lemma HandleSilentBlockFile_loop_kept attrs len s :
  message_kept s (snd (HandleSilentBlockFile_loop E attrs len s)).
Proof.
  revert len s.
  induction attrs as [|[attr value] rest IH]; intros len s; simpl.
  - mk.
  - loop_kept IH.
Qed.

Lemma HandlePCMAliasBlockFile_loop_kept attrs a s :
  message_kept s (snd (HandlePCMAliasBlockFile_loop E attrs a s)).
Proof.
  revert a s.
  induction attrs as [|[attr value] rest IH]; intros a s; simpl.
  - mk.
  - loop_kept IH.
Qed.

Ltac rule_kept :=
  crunch;
  try match goal with
      | |- message_kept _ _ =>
          first [ assumption
                | (intros ?; reflexivity)
                | (eapply message_kept_same; [|eassumption]; reflexivity) ]
      end.

Lemma HandleProject_kept s : keeps_message s (HandleProject E s).
Proof.
  intros b hd s' H. unfold HandleProject in H.
  pose proof (HandleProject_loop_kept (mAttrs s) 0 s) as Hl.
  destruct (HandleProject_loop E (mAttrs s) 0 s) as [[go n] s1].
  simpl in Hl. unfold reject, accept in H. rule_kept.
Qed.

Lemma HandleLabelTrack_kept s : keeps_message s (HandleLabelTrack s).
Proof. intros b hd s' H. unfold HandleLabelTrack in H. rule_kept. Qed.

Lemma HandleNoteTrack_kept s : keeps_message s (HandleNoteTrack E s).
Proof. intros b hd s' H. unfold HandleNoteTrack in H. rule_kept. Qed.

Lemma HandleTimeTrack_kept s : keeps_message s (HandleTimeTrack s).
Proof. intros b hd s' H. unfold HandleTimeTrack in H. rule_kept. Qed.

Lemma HandleWaveTrack_kept s : keeps_message s (HandleWaveTrack s).
Proof. intros b hd s' H. unfold HandleWaveTrack in H. rule_kept. Qed.

Lemma HandleTags_kept s : keeps_message s (HandleTags E s).
Proof.
  intros b hd s' H. unfold HandleTags in H.
  pose proof (HandleTags_loop_kept (mAttrs s) s) as Hl.
  destruct (HandleTags_loop E (mAttrs s) s) as [ok s1]. simpl in Hl.
  unfold reject, accept in H. rule_kept.
Qed.

Lemma HandleTag_kept s : keeps_message s (HandleTag E s).
Proof. intros b hd s' H. unfold HandleTag, reject, accept in H. rule_kept. Qed.

Lemma HandleLabel_kept s : keeps_message s (HandleLabel s).
Proof.
  intros b hd s' H. unfold HandleLabel, reject, accept in H.
  destruct (back s); rule_kept.
Qed.

Lemma HandleWaveClip_kept s : keeps_message s (HandleWaveClip s).
Proof.
  intros b hd s' H. unfold HandleWaveClip, reject, accept in H.
  destruct (back s) as [nd|]; simpl in H; [|discriminate].
  destruct (String.eqb (mParentTag s) "wavetrack").
  - destruct (as_kind WaveTrackK s (handler nd)); simpl in H; rule_kept.
  - destruct (String.eqb (mParentTag s) "waveclip").
    + destruct (as_kind WaveClipK s (handler nd)); simpl in H; rule_kept.
    + rule_kept.
Qed.

Lemma HandleEnvelope_kept s : keeps_message s (HandleEnvelope E s).
Proof.
  intros b hd s' H. unfold HandleEnvelope, RightmostOrNewClip in H.
  destruct (back s) as [nd|]; simpl in H; [|discriminate].
  destruct (String.eqb (mParentTag s) "timetrack").
  { destruct (handler nd) as [h0|]; [|rule_kept].
    destruct (as_kind TimeTrackK s (Some h0)); simpl in H; rule_kept. }
  destruct (String.eqb (mParentTag s) "wavetrack").
  { destruct (as_kind WaveTrackK s (ObjH <$> mWaveTrack s)) as [t|];
      simpl in H; [|discriminate].
    destruct (clips_of s t); rule_kept. }
  destruct (String.eqb (mParentTag s) "waveclip").
  { destruct (as_kind WaveClipK s (handler nd)); simpl in H; rule_kept. }
  rule_kept.
Qed.

Lemma HandleControlPoint_kept s : keeps_message s (HandleControlPoint s).
Proof.
  intros b hd s' H. unfold HandleControlPoint in H.
  destruct (back s) as [nd|]; simpl in H; [|discriminate]. rule_kept.
Qed.

Lemma HandleSequence_kept s : keeps_message s (HandleSequence E s).
Proof.
  intros b hd s' H. unfold HandleSequence in H.
  destruct (back s); simpl in H; [|discriminate].
  pose proof (HandleSequence_loop_kept (mAttrs s) s) as Hl.
  destruct (HandleSequence_loop E (mAttrs s) s) as [ok s1]. simpl in Hl.
  rule_kept.
Qed.

Lemma HandleWaveBlock_kept s : keeps_message s (HandleWaveBlock E s).
Proof.
  intros b hd s' H. unfold HandleWaveBlock in H.
  pose proof (HandleWaveBlock_loop_kept (mAttrs s) s) as Hl.
  destruct (HandleWaveBlock_loop E (mAttrs s) s) as [ok s1]. simpl in Hl.
  rule_kept.
Qed.

Lemma HandleSimpleBlockFile_kept s :
  keeps_message s (HandleSimpleBlockFile E s).
Proof.
  intros b hd s' H. unfold HandleSimpleBlockFile in H.
  pose proof (HandleSimpleBlockFile_loop_kept (mAttrs s) "" 0 s) as Hl.
  destruct (HandleSimpleBlockFile_loop E (mAttrs s) "" 0 s) as [r s1].
  simpl in Hl. unfold AddFile in H. rule_kept.
Qed.

Lemma HandleSilentBlockFile_kept s :
  keeps_message s (HandleSilentBlockFile E s).
Proof.
  intros b hd s' H. unfold HandleSilentBlockFile in H.
  pose proof (HandleSilentBlockFile_loop_kept (mAttrs s) 0 s) as Hl.
  destruct (HandleSilentBlockFile_loop E (mAttrs s) 0 s) as [r s1].
  simpl in Hl. unfold AddFile in H. rule_kept.
Qed.

Lemma HandlePCMAliasBlockFile_kept s :
  keeps_message s (HandlePCMAliasBlockFile E s).
Proof.
  intros b hd s' H. unfold HandlePCMAliasBlockFile in H.
  pose proof (HandlePCMAliasBlockFile_loop_kept (mAttrs s)
                (mkAlias (mkFileName [] "" "") 0 0 0) s) as Hl.
  destruct (HandlePCMAliasBlockFile_loop E (mAttrs s) _ s) as [r s1].
  simpl in Hl. unfold AddFile in H. rule_kept.
Qed.

Lemma dispatch_kept s : keeps_message s (dispatch E s).
Proof.
  unfold dispatch.
  repeat match goal with
         | |- keeps_message _ (if ?c then _ else _) => destruct c
         end;
    auto using HandleProject_kept, HandleLabelTrack_kept,
      HandleNoteTrack_kept, HandleTimeTrack_kept, HandleWaveTrack_kept,
      HandleTags_kept, HandleTag_kept, HandleLabel_kept, HandleWaveClip_kept,
      HandleSequence_kept, HandleWaveBlock_kept, HandleEnvelope_kept,
      HandleControlPoint_kept, HandleSimpleBlockFile_kept,
      HandleSilentBlockFile_kept, HandlePCMAliasBlockFile_kept.
  intros b hd s' H. rule_kept.
Qed.

Lemma child_tag_kept hd t attrs s b s' :
  child_tag E hd t attrs s = Some (b, s') -> message_kept s s'.
Proof.
  unfold child_tag. destruct (handler_class s hd); simpl; [|discriminate].
  destruct (child_HandleXMLTag E _ t attrs); intros H; invc H;
    [destruct hd|]; intros ?; reflexivity.
Qed.

Lemma HandleXMLTag_kept t attrs s b s' :
  HandleXMLTag E t attrs s = Some (b, s') -> message_kept s s'.
Proof.
  unfold HandleXMLTag.
  destruct (is_Success (mUpdateResult s)); simpl;
    [|intros H; invc H; apply message_kept_refl].
  set (s0 := set_mAttrs attrs _).
  pose proof (dispatch_kept s0) as Hd.
  destruct (dispatch E s0) as [[[success hd] s1]|]; simpl; [|discriminate].
  specialize (Hd _ _ _ eq_refl).
  assert (H0 : message_kept s s1).
  { intros Hne. apply Hd. exact Hne. }
  clear Hd. clearbody s0.
  destruct success; simpl.
  - destruct hd as [h0|].
    + destruct (child_tag E h0 t attrs s1) as [[ok s2]|] eqn:Hc;
        [|discriminate].
      apply child_tag_kept in Hc.
      pose proof (message_kept_trans _ _ _ H0 Hc) as H2.
      destruct ok; intros H; injection H as <- <-.
      * eapply message_kept_same; [|exact H2]. reflexivity.
      * eapply message_kept_trans; [exact H2|].
        apply (SetError_kept not_recognized s2).
    + intros H; injection H as <- <-.
      eapply message_kept_same; [|exact H0]. reflexivity.
  - intros H; injection H as <- <-.
    eapply message_kept_trans; [exact H0|].
    apply (SetError_kept not_recognized s1).
Qed.

Lemma child_end_kept hd t s s' :
  child_end hd t s = Some s' -> message_kept s s'.
Proof.
  unfold child_end. destruct (handler_class s hd); simpl; [|discriminate].
  destruct hd; intros H; invc H; intros ?; reflexivity.
Qed.

Lemma HandleXMLEndTag_kept t s s' :
  HandleXMLEndTag t s = Some s' -> message_kept s s'.
Proof.
  unfold HandleXMLEndTag.
  destruct (is_Success (mUpdateResult s)); simpl;
    [|intros H; invc H; apply message_kept_refl].
  destruct (back s) as [nd|]; simpl; [|discriminate].
  destruct (String.eqb t "waveclip").
  - destruct (as_kind WaveClipK s (handler nd)) as [c|]; simpl;
      [|discriminate].
    destruct (child_end (ObjH c) t _) as [s1|] eqn:Hc; simpl; [|discriminate].
    apply child_end_kept in Hc.
    assert (H0 : message_kept s s1) by (intros Hne; apply Hc; exact Hne).
    destruct (tail (mHandlers s1)); intros H; injection H as <-;
      (eapply message_kept_same; [|exact H0]; reflexivity).
  - destruct (handler nd) as [h0|].
    + destruct (child_end h0 t s) as [s1|] eqn:Hc; simpl; [|discriminate].
      apply child_end_kept in Hc.
      destruct (tail (mHandlers s1)); intros H; injection H as <-;
        (eapply message_kept_same; [|exact Hc]; reflexivity).
    + simpl. destruct (tail (mHandlers s)); intros H; injection H as <-;
        intros ?; reflexivity.
Qed.

Lemma feed_kept evs s b s' :
  feed E evs s = Some (b, s') -> message_kept s s'.
Proof.
  revert s. induction evs as [|[t attrs|t] rest IH]; intros s; simpl.
  - intros H; invc H. apply message_kept_refl.
  - destruct (HandleXMLTag E t attrs s) as [[ok s1]|] eqn:Ht; [|discriminate].
    apply HandleXMLTag_kept in Ht.
    destruct ok; [intros H; apply IH in H|intros H; injection H as <- <-].
    + eapply message_kept_trans; eassumption.
    + exact Ht.
  - destruct (HandleXMLEndTag t s) as [s1|] eqn:Ht; [|discriminate].
    apply HandleXMLEndTag_kept in Ht.
    intros H; apply IH in H. eapply message_kept_trans; eassumption.
Qed.

(** ** What resolving the blocks tells the user *)

Lemma InsertSilence_diag p len s s' :
  InsertSilence p len s = Some s' ->
  mErrorMsg s' = mErrorMsg s /\ mLog s' = mLog s.
Proof.
  unfold InsertSilence. destruct (objs s !! p); simpl; [|discriminate].
  intros H; injection H as <-. split; reflexivity.
Qed.

Lemma Append_Flush_diag p format buf s s' :
  Append_Flush p format buf s = Some s' ->
  mErrorMsg s' = mErrorMsg s /\ mLog s' = mLog s.
Proof.
  unfold Append_Flush. destruct (objs s !! p); simpl; [|discriminate].
  intros H; injection H as <-. split; reflexivity.
Qed.

Lemma AddSilence_diag len s b s' :
  AddSilence len s = Some (b, s') ->
  mErrorMsg s' = mErrorMsg s /\ mLog s' = mLog s.
Proof.
  unfold AddSilence. intros H. destruct (mClip s) as [c|].
  - apply bind_Some in H as (? & _ & H).
    apply bind_Some in H as (? & _ & H).
    apply bind_Some in H as (s1 & Hi & H).
    injection H as <- <-. now apply InsertSilence_diag in Hi.
  - destruct (mWaveTrack s) as [t|].
    + apply bind_Some in H as (? & _ & H).
      apply bind_Some in H as (s1 & Hi & H).
      injection H as <- <-. now apply InsertSilence_diag in Hi.
    + injection H as <- <-. split; reflexivity.
Qed.

Lemma Append_to_owner_diag format buf s s' :
  Append_to_owner format buf s = Some s' ->
  mErrorMsg s' = mErrorMsg s /\ mLog s' = mLog s.
Proof.
  unfold Append_to_owner. destruct (mClip s) as [c|].
  - apply Append_Flush_diag.
  - destruct (mWaveTrack s) as [t|]; [apply Append_Flush_diag|].
    intros H; injection H as <-. split; reflexivity.
Qed.

Lemma give_silence_diag msg filename len s b s' :
  give_silence msg filename len s = Some (b, s') ->
  message_kept s s'
  /\ mLog s' = (mLog s ++ [LogWarning msg;
                           LogWarning (error_while_processing filename)])%list.
Proof.
  unfold give_silence. cbv zeta. intros H.
  apply AddSilence_diag in H. destruct H as [Hm Hl]. split.
  - eapply message_kept_same; [exact Hm|].
    eapply message_kept_trans; [apply SetWarning_kept|apply SetWarning_kept].
  - rewrite Hl, SetWarning_logged, SetWarning_logged.
    now rewrite <- app_assoc.
Qed.

Lemma AddSamples_diag filename len origin chan s b s' :
  AddSamples E filename len origin chan s = Some (b, s') ->
  message_kept s s'
  /\ (mLog s' = mLog s
      \/ exists msg,
           mLog s' = (mLog s ++ [LogWarning msg;
                                 LogWarning (error_while_processing filename)])
                       %list).
Proof.
  assert (Hg : forall msg,
             give_silence msg filename len s = Some (b, s') ->
             message_kept s s'
             /\ (mLog s' = mLog s
                 \/ exists msg0,
                      mLog s' = (mLog s ++ [LogWarning msg0;
                                   LogWarning (error_while_processing filename)])
                                  %list)).
  { intros msg H. apply give_silence_diag in H. destruct H as [H1 H2].
    split; [exact H1|]. right. now exists msg. }
  unfold AddSamples.
  destruct (negb (wxFile_Open E filename)); [apply Hg|].
  destruct (sf_open_fd E filename) as [info|]; [|apply Hg].
  destruct ((origin >? 0)%Z && (sf_seek E filename origin <? 0)%Z);
    [apply Hg|].
  destruct (mFormat s) as [format|]; simpl; [|discriminate].
  destruct (decode E _ _ _ _ _ _ _) as [| |buf]; [discriminate|apply Hg|].
  destruct (Append_to_owner format buf s) as [s1|] eqn:Ha; simpl;
    [|discriminate].
  intros H; injection H as <- <-. apply Append_to_owner_diag in Ha.
  destruct Ha as [Hm Hl]. split; [|now left].
  intros _. exact Hm.
Qed.

Lemma resolve_one_diag fi s b s' :
  resolve_one E fi s = Some (b, s') ->
  message_kept s s'
  /\ (mLog s' = mLog s
      \/ exists msg,
           mLog s' = (mLog s ++ [LogWarning msg;
                                 LogWarning (error_while_processing (path fi))])
                       %list).
Proof.
  unfold resolve_one. cbv zeta.
  destruct (String.eqb (path fi) "").
  - intros H. apply AddSilence_diag in H. destruct H as [Hm Hl].
    split; [intros _; exact Hm|left; exact Hl].
  - intros H. apply AddSamples_diag in H. exact H.
Qed.

Lemma only_warnings_refl s s' : mLog s' = mLog s -> only_warnings s s'.
Proof. intros H. exists []. now rewrite app_nil_r. Qed.

Lemma only_warnings_trans s1 s2 s3 :
  only_warnings s1 s2 -> only_warnings s2 s3 -> only_warnings s1 s3.
Proof.
  intros (a & Ha & Fa) (c & Hc & Fc). exists (a ++ c)%list. split.
  - now rewrite Hc, Ha, <- app_assoc.
  - now rewrite forallb_app, Fa, Fc.
Qed.

Lemma resolve_loop_diag files i processed s r s' :
  resolve_loop E files i processed s = Some (r, s') ->
  message_kept s s' /\ only_warnings s s'.
Proof.
  revert i processed s. induction files as [|fi rest IH];
    intros i processed s; simpl.
  - intros H; injection H as _ <-.
    split; [apply message_kept_refl|now apply only_warnings_refl].
  - destruct (is_Success (ProgressUpdate E i processed (mTotalSamples s)));
      simpl.
    + destruct (resolve_one E fi _) as [[b s1]|] eqn:H1; [|discriminate].
      apply resolve_one_diag in H1. destruct H1 as [Hm Hl].
      intros H. apply IH in H. destruct H as [Hm2 Hl2]. split.
      * eapply message_kept_trans; [|exact Hm2].
        intros Hne. apply Hm. exact Hne.
      * eapply only_warnings_trans; [|exact Hl2].
        destruct Hl as [Hl|[msg Hl]].
        -- now apply only_warnings_refl.
        -- exists [LogWarning msg;
                   LogWarning (error_while_processing (path fi))].
           split; [exact Hl|reflexivity].
    + intros H; injection H as _ <-.
      split; [intros _; reflexivity|now apply only_warnings_refl].
Qed.

(** Property X19.  Only the first message is kept for the user.  A handle
    that holds a message when [Import] is entered holds the same message
    when [Import] returns: neither the tag rules nor the block resolver
    replace a message that is there, however many errors and warnings
    they raise. *)
Theorem first_message_is_never_replaced tags d s r s' :
  mErrorMsg s <> "" ->
  Import E tags d s = Some (r, s') ->
  mErrorMsg s' = mErrorMsg s.
Proof.
  intros Hne. unfold Import, Parse. cbv zeta.
  destruct (feed E (doc_events d) (Import_entry tags s)) as [[ok s1]|] eqn:Hf;
    [|discriminate].
  apply feed_kept in Hf.
  assert (H1 : mErrorMsg s1 = mErrorMsg s) by (apply Hf; exact Hne).
  unfold Import_after_Parse.
  destruct (negb (ok && doc_wellformed d)).
  { intros H; injection H as _ <-. exact H1. }
  cbv zeta.
  set (s2 := if negb (String.eqb (mErrorMsg s1) "") then _ else s1).
  assert (H2 : mErrorMsg s2 = mErrorMsg s).
  { unfold s2. destruct (negb (String.eqb (mErrorMsg s1) "")); exact H1. }
  clearbody s2.
  destruct (negb (String.eqb (mErrorMsg s1) "") && is_Failed (mUpdateResult s2)).
  { intros H; injection H as _ <-. exact H2. }
  destruct (resolve_loop E (mFiles s2) 0 0 s2) as [[[r0|] s3]|] eqn:Hr;
    [| |discriminate];
    apply resolve_loop_diag in Hr; destruct Hr as [Hm _];
    assert (H3 : mErrorMsg s3 = mErrorMsg s)
      by (rewrite <- H2; apply Hm; rewrite H2; exact Hne).
  - intros H; injection H as _ <-. exact H3.
  - destruct (is_Failed_or_Cancelled (mUpdateResult s3)).
    + intros H; injection H as _ <-. exact H3.
    + destruct (isDirty (mProject s)); intros H; injection H as _ <-;
        exact H3.
Qed.

(** Property X20.  Resolving the queue never raises a message box and
    never records an error: whatever the loop over the queued block files
    returns, the log has grown by warnings only, and a message kept
    before the loop is the message kept after it. *)
Theorem resolving_blocks_only_warns files i processed s r s' :
  resolve_loop E files i processed s = Some (r, s') ->
  only_warnings s s' /\ message_kept s s'.
Proof.
  intros H. apply resolve_loop_diag in H. destruct H as [H1 H2].
  split; assumption.
Qed.

(** ** Clips and cut lines *)

Lemma dispatch_waveclip s :
  mCurrentTag s = "waveclip" -> dispatch E s = HandleWaveClip s.
Proof. intros H. unfold dispatch. cbv zeta. rewrite H. reflexivity. Qed.

(** Property X21.  A [waveclip] tag creates a clip owned by the object of
    the enclosing tag: by the wave track when it stands in a [wavetrack],
    by the open clip when it stands in a [waveclip] (a cut line).  When
    the child accepts the tag, [HandleXMLTag] accepts it, the new clip is
    the next object of the arena, it holds the tag as its first XML, it
    becomes the active clip and the handler of the new frame, and every
    older object is what it was. *)
Theorem waveclip_is_owned_by_the_enclosing_object attrs s nd rest p :
  mUpdateResult s = Success ->
  mHandlers s = nd :: rest ->
  handler nd = Some (ObjH p) ->
  (mCurrentTag s = "wavetrack" /\ kind_of s p = Some WaveTrackK)
  \/ (mCurrentTag s = "waveclip" /\ kind_of s p = Some WaveClipK) ->
  child_HandleXMLTag E (Some WaveClipK) "waveclip" attrs = true ->
  exists s',
    HandleXMLTag E "waveclip" attrs s = Some (true, s')
    /\ mClip s' = Some (length (objs s))
    /\ objs s'
       = (objs s
          ++ [mkObject WaveClipK (Some p) [("waveclip", attrs)] [] [] [] 0])%list
    /\ mHandlers s'
       = mkNode (mCurrentTag s) "waveclip" (Some (ObjH (length (objs s))))
         :: mHandlers s.
Proof.
  intros Hs Hh Hnd Hk Hc. unfold HandleXMLTag. rewrite Hs.
  change (negb (is_Success Success)) with false. cbv iota zeta.
  set (s0 := set_mAttrs attrs _).
  rewrite (dispatch_waveclip s0 eq_refl).
  set (c := length (objs s)).
  set (s1 := set_mClip (Some c)
               (set_objs (objs s ++ [new_object WaveClipK (Some p)]) s0)).
  assert (Hw : HandleWaveClip s0 = Some (true, Some (ObjH c), s1)).
  { unfold HandleWaveClip, back. change (mHandlers s0) with (mHandlers s).
    rewrite Hh. simpl head. simpl mbind.
    change (mParentTag s0) with (mCurrentTag s). rewrite Hnd.
    unfold as_kind. change (kind_of s0 p) with (kind_of s p).
    destruct Hk as [[-> ->]|[-> ->]]; reflexivity. }
  rewrite Hw. simpl mbind. cbv iota beta. simpl negb. cbv iota.
  assert (Hl : objs s1 !! c = Some (new_object WaveClipK (Some p))).
  { unfold s1, c. simpl. rewrite lookup_app_r by lia.
    now rewrite Nat.sub_diag. }
  unfold child_tag, handler_class. rewrite Hl. simpl mbind.
  change (okind (new_object WaveClipK (Some p))) with WaveClipK.
  rewrite Hc. eexists. split; [reflexivity|].
  split; [reflexivity|]. split; [|reflexivity].
  unfold push. simpl. fold c.
  change (alter (add_xml ("waveclip", attrs)) c
            (objs s ++ [new_object WaveClipK (Some p)])%list
          = (objs s ++ [mkObject WaveClipK (Some p) [("waveclip", attrs)]
                          [] [] [] 0])%list).
  unfold c. rewrite alter_app_r_alt by lia. now rewrite Nat.sub_diag.
Qed.

(** Property X22.  A [waveclip] tag that stands in neither a [wavetrack]
    nor a [waveclip] is accepted without a clip: no object is created,
    there is no active clip afterwards, and the frame pushed for it has
    no handler.  Its closing tag then calls [HandleXMLEndTag] through
    that null handler, which is undefined: the model gives it no
    result. *)
Theorem misplaced_waveclip_cannot_be_closed attrs s :
  mUpdateResult s = Success ->
  mHandlers s <> [] ->
  mCurrentTag s <> "wavetrack" ->
  mCurrentTag s <> "waveclip" ->
  exists s',
    HandleXMLTag E "waveclip" attrs s = Some (true, s')
    /\ mClip s' = None
    /\ objs s' = objs s
    /\ mUpdateResult s' = Success
    /\ HandleXMLEndTag "waveclip" s' = None.
Proof.
  intros Hs Hh H1 H2. unfold HandleXMLTag. rewrite Hs.
  change (negb (is_Success Success)) with false. cbv iota zeta.
  set (s0 := set_mAttrs attrs _).
  rewrite (dispatch_waveclip s0 eq_refl).
  assert (Hw : HandleWaveClip s0 = Some (true, None, set_mClip None s0)).
  { unfold HandleWaveClip, back. change (mHandlers s0) with (mHandlers s).
    destruct (mHandlers s) as [|nd rest]; [contradiction|].
    simpl head. simpl mbind. change (mParentTag s0) with (mCurrentTag s).
    destruct (String.eqb_spec (mCurrentTag s) "wavetrack"); [contradiction|].
    destruct (String.eqb_spec (mCurrentTag s) "waveclip"); [contradiction|].
    reflexivity. }
  rewrite Hw. simpl mbind. cbv iota beta. simpl negb. cbv iota.
  eexists. split; [reflexivity|]. split; [reflexivity|].
  split; [reflexivity|]. split; [exact Hs|].
  unfold HandleXMLEndTag.
  change (mUpdateResult (push None (set_mClip None s0)))
    with (mUpdateResult s).
  rewrite Hs. reflexivity.
Qed.

(** ** Sniffing the file *)

Lemma read_into_length n data : length (read_into E n data) = n.
Proof.
  unfold read_into, fresh_buffer.
  rewrite length_take, length_app, length_drop, length_map, length_seq. lia.
Qed.

Lemma read_into_take k n data :
  (k <= length data)%nat -> (k <= n)%nat ->
  take k (read_into E n data) = take k data.
Proof.
  intros Hk Hn. unfold read_into.
  rewrite take_take, Nat.min_l by lia. now rewrite take_app_le by lia.
Qed.

Lemma sniffed_take k ff :
  (k <= length (ff_bytes ff))%nat -> (k <= 255)%nat ->
  take k (sniffed E ff) = take k (ff_bytes ff).
Proof.
  intros Hk Hn. unfold sniffed. rewrite take_insert_ge by lia.
  rewrite read_into_take; [|rewrite length_take; lia|lia].
  rewrite take_take, Nat.min_l by lia. reflexivity.
Qed.

Lemma sniffed_long ff :
  (255 <= length (ff_bytes ff))%nat ->
  sniffed E ff = (take 255 (ff_bytes ff) ++ [0%Z])%list.
Proof.
  intros Hl. rewrite <- (sniffed_take 255 ff Hl) by lia.
  unfold sniffed. set (l := read_into E 256 _).
  assert (Hlen : length l = 256%nat) by apply read_into_length.
  rewrite take_insert_ge by lia.
  rewrite <- (take_drop 255 l) at 1.
  rewrite insert_app_r_alt by (rewrite length_take; lia).
  rewrite length_take, Nat.min_l, Nat.sub_diag by lia.
  f_equal.
  pose proof (length_drop l 255) as Hd. rewrite Hlen in Hd.
  destruct (drop 255 l) as [|x [|y r]]; simpl in Hd; try lia. reflexivity.
Qed.

Lemma c_str_terminated l : exists r, l = (c_str (l ++ [0%Z]) ++ r)%list.
Proof.
  induction l as [|c l [r IH]]; simpl.
  - now exists [].
  - destruct (c =? 0)%Z.
    + now exists (c :: l).
    + exists r. simpl. now rewrite <- IH.
Qed.

Lemma take_of_prefix {A} k (a r : list A) w :
  length w = k -> take k a = w -> take k (a ++ r) = w.
Proof.
  intros Hw Ht. rewrite take_app_le; [exact Ht|].
  rewrite <- Ht in Hw. rewrite length_take in Hw. lia.
Qed.

Lemma wxStrstr_found_occurs hay needle :
  wxStrstr_found hay needle = true ->
  exists i, take (length (chars needle)) (drop i hay) = chars needle.
Proof.
  unfold wxStrstr_found. intros H. apply existsb_exists in H.
  destruct H as (i & _ & H). apply bool_decide_eq_true in H. now exists i.
Qed.

Lemma occurs_in_the_first bytes cs r needle i n :
  (0 < length (chars needle))%nat ->
  take n bytes = (cs ++ r)%list ->
  take (length (chars needle)) (drop i cs) = chars needle ->
  occurs_at needle i bytes /\ (i + length (chars needle) <= n)%nat.
Proof.
  intros Hpos Hp Ho. unfold occurs_at.
  assert (Hlen : (length (chars needle) <= length (drop i cs))%nat).
  { rewrite <- Ho at 1. rewrite length_take. lia. }
  rewrite length_drop in Hlen.
  assert (Hn : (length cs <= n)%nat).
  { apply (f_equal length) in Hp.
    rewrite length_take, length_app in Hp. lia. }
  split; [|lia].
  assert (Hd : drop i (take n bytes) = (drop i cs ++ r)%list).
  { rewrite Hp. rewrite drop_app_le by lia. reflexivity. }
  assert (Ht : take (length (chars needle)) (drop i (take n bytes))
               = chars needle).
  { rewrite Hd. rewrite take_app_le by (rewrite length_drop; lia). exact Ho. }
  etransitivity; [|exact Ht]. rewrite !take_drop_commute.
  rewrite take_take, Nat.min_l by lia. reflexivity.
Qed.

(** Property X23.  A project of version 1.0 or earlier is refused with a
    message box.  Whenever the file opens and starts with the fifteen
    characters [AudacityProject], [Open] returns [false] and shows the
    message about the old format, whatever follows in the file. *)
Theorem legacy_project_is_refused ff s :
  IsOpened ff = true ->
  occurs_at "AudacityProject" 0 (ff_bytes ff) ->
  AUPImportFileHandle_Open E ff s
  = (false, log (MessageBox legacy_project) s).
Proof.
  unfold occurs_at. rewrite drop_0. intros Ho Hp.
  assert (Hl : (15 <= length (ff_bytes ff))%nat).
  { apply (f_equal length) in Hp. rewrite length_take in Hp.
    change (length (chars "AudacityProject")) with 15%nat in Hp. lia. }
  unfold AUPImportFileHandle_Open. rewrite Ho. cbv zeta.
  assert (Hb : sniffed E ff
               = (chars "AudacityProject" ++ drop 15 (sniffed E ff))%list).
  { rewrite <- Hp.
    change (length (chars "AudacityProject")) with 15%nat.
    rewrite <- (sniffed_take 15 ff) by lia. now rewrite take_drop. }
  assert (Hc : wxStrncmp_eq (c_str (sniffed E ff)) "AudacityProject" 15
               = true).
  { unfold wxStrncmp_eq. apply bool_decide_eq_true. rewrite Hb.
    reflexivity. }
  now rewrite Hc.
Qed.

(** Property X24.  A file that [Open] accepts is XML with its root tag
    near the start.  For a file of 255 bytes or more, acceptance means
    that the file opened, that it starts with [<?xml], and that
    [<audacityproject] or [<project] stands wholly within its first 255
    bytes; nothing is shown and the handle is left as it was. *)
Theorem accepted_file_has_its_root_tag_early ff s s' :
  (255 <= length (ff_bytes ff))%nat ->
  AUPImportFileHandle_Open E ff s = (true, s') ->
  s' = s
  /\ IsOpened ff = true
  /\ occurs_at "<?xml" 0 (ff_bytes ff)
  /\ exists i,
       (occurs_at "<audacityproject" i (ff_bytes ff) /\ (i + 16 <= 255)%nat)
       \/ (occurs_at "<project" i (ff_bytes ff) /\ (i + 8 <= 255)%nat).
Proof.
  intros Hl. unfold AUPImportFileHandle_Open.
  destruct (IsOpened ff); [|discriminate]. cbv zeta.
  rewrite (sniffed_long ff Hl).
  destruct (c_str_terminated (take 255 (ff_bytes ff))) as [r Hr].
  set (cs := c_str (take 255 (ff_bytes ff) ++ [0%Z])) in *.
  destruct (wxStrncmp_eq cs "AudacityProject" 15); [discriminate|].
  destruct (wxStrncmp_eq cs "<?xml" 5) eqn:Hx; [|discriminate].
  destruct (wxStrstr_found cs "<audacityproject"
            || wxStrstr_found cs "<project") eqn:Hroot; [|discriminate].
  simpl. intros H. injection H as <-.
  split; [reflexivity|]. split; [reflexivity|]. split.
  - unfold wxStrncmp_eq in Hx. apply bool_decide_eq_true in Hx.
    change (take 5 (chars "<?xml")) with (chars "<?xml") in Hx.
    apply (occurs_in_the_first _ cs r "<?xml" 0 255);
      [simpl; lia|exact Hr|]. rewrite drop_0. exact Hx.
  - apply orb_true_iff in Hroot. destruct Hroot as [Hf|Hf];
      apply wxStrstr_found_occurs in Hf; destruct Hf as [i Hi]; exists i.
    + left. apply (occurs_in_the_first _ cs r "<audacityproject" i 255);
        [simpl; lia|exact Hr|exact Hi].
    + right. apply (occurs_in_the_first _ cs r "<project" i 255);
        [simpl; lia|exact Hr|exact Hi].
Qed.

(** Property X25.  [Open] looks at the first 255 bytes only: the 256th
    byte it reads is overwritten by the terminator.  Two files of 255
    bytes or more that agree on their first 255 bytes get the same
    answer. *)
Theorem open_looks_at_255_bytes ff ff' s :
  (255 <= length (ff_bytes ff))%nat ->
  (255 <= length (ff_bytes ff'))%nat ->
  IsOpened ff = IsOpened ff' ->
  take 255 (ff_bytes ff) = take 255 (ff_bytes ff') ->
  AUPImportFileHandle_Open E ff s = AUPImportFileHandle_Open E ff' s.
Proof.
  intros Hl Hl' Ho Ht. unfold AUPImportFileHandle_Open.
  now rewrite Ho, (sniffed_long ff Hl), (sniffed_long ff' Hl'), Ht.
Qed.

End Properties.

(** * The importer at work *)

Module Runs.

Import Fixture.

(** ** Claim C1 *)

(** The document imports: the track goes to the host, the local list is
    emptied and the rate is applied. *)
Example import_commits :
  summary (Import E0 [] one_track (handle empty_project))
  = Some (Success, [], [Imported 0], [SetRate 0x40E5888000000000]).
Proof. vm_compute. reflexivity. Qed.

(** Claim C1, at the input where the code departs from it.  The progress
    check answers [Cancelled] before the first descriptor: [Import] returns
    [Cancelled] and the host has no track, but the track the parser built
    is still in [mTracks]; the return inside the loop skips the
    [mTracks.clear ()] that follows the loop. *)
Theorem cancelled_import_keeps_local_tracks :
  summary (Import (env (always Cancelled)) [] one_track (handle empty_project))
  = Some (Cancelled, [0%nat], [], []).
Proof. vm_compute. reflexivity. Qed.

(** ** Claim C2 *)

(** Claim C2 as stated fails for a silent block: it is resolved to silence
    of its length, and no warning is recorded. *)
Lemma silent_block_records_no_warning :
  ~ silence_with_warning E0 silent_block track_state.
Proof.
  intros H. destruct H as (p & s' & _ & Hr & _ & Hlt & _);
    [left; reflexivity|].
  vm_compute in Hr. injection Hr as <-. vm_compute in Hlt. lia.
Qed.

Example silent_block_resolved :
  resolved (resolve_one E0 silent_block track_state) 0
  = Some (true, Some [SilenceRun 3], []).
Proof. vm_compute. reflexivity. Qed.

Lemma missing_block_becomes_silence :
  exists p s',
    owner missing_block = Some p
    /\ resolve_one E0 missing_block track_state = Some (true, s')
    /\ runs_of s' p
       = (fun l => l ++ [SilenceRun (len missing_block)])%list
           <$> runs_of track_state p
    /\ mUpdateResult s' = mUpdateResult track_state
    /\ (if String.eqb (path missing_block) "" then mLog s' = mLog track_state
        else exists w,
            mLog s'
            = (mLog track_state
               ++ [LogWarning w;
                   LogWarning (error_while_processing (path missing_block))])%list).
Proof.
  apply (unresolvable_block_becomes_silence E0 missing_block track_state).
  - reflexivity.
  - right. left. left. reflexivity.
Defined.

(** ** Claim C3 *)


(** Two time tracks in one document, the host having none: both are
    built, for the guard looks at the host's track list only. *)
Example two_timetracks_in_one_document :
  mTracks (state_after empty_project
             [Open "project" root_attrs; Open "timetrack" [];
              Close "timetrack"; Open "timetrack" []])
  = [0%nat; 1%nat].
Proof. vm_compute. reflexivity. Qed.


(** An envelope under that second time track has a live owner. *)
Example envelope_under_the_second_timetrack :
  handler
    <$> head (mHandlers
                (state_after empty_project
                   [Open "project" root_attrs; Open "timetrack" [];
                    Close "timetrack"; Open "timetrack" [];
                    Open "envelope" []]))
  = Some (Some (EnvH 1)).
Proof. vm_compute. reflexivity. Qed.

(** ** Claim C4 *)

(** Claim C4 as stated fails for a control point under a wave track: the
    tag is accepted, with a null owner. *)
Lemma controlpoint_outside_envelope_is_accepted :
  ~ misplaced_tag_is_fatal E0 "controlpoint" []
      (state_after empty_project
         [Open "project" root_attrs; Open "wavetrack" []]).
Proof.
  intros H. destruct H as (s' & Hr & _).
  - reflexivity.
  - right. split; [reflexivity|]. vm_compute. discriminate.
  - vm_compute in Hr. discriminate Hr.
Qed.

Example controlpoint_outside_envelope :
  (fun r => (fst r, handler <$> head (mHandlers (snd r))))
    <$> HandleXMLTag E0 "controlpoint" []
          (state_after empty_project
             [Open "project" root_attrs; Open "wavetrack" []])
  = Some (true, Some None).
Proof. vm_compute. reflexivity. Qed.

Lemma unknown_tag_is_fatal :
  exists s2 s',
    HandleXMLTag E0 "reverb" [("mix", "1")]
      (state_after empty_project
         [Open "project" root_attrs; Open "wavetrack" []])
    = Some (false, s2)
    /\ mUpdateResult s2 = Failed
    /\ mLog s2
       = (mLog (state_after empty_project
                  [Open "project" root_attrs; Open "wavetrack" []])
          ++ [LogError not_recognized])%list
    /\ mErrorMsg s2 <> ""
    /\ mHandlers s2
       = mHandlers (state_after empty_project
                      [Open "project" root_attrs; Open "wavetrack" []])
    /\ mTracks s2
       = mTracks (state_after empty_project
                    [Open "project" root_attrs; Open "wavetrack" []])
    /\ Import E0 [] unknown_tag (handle empty_project) = Some (Failed, s')
    /\ mProject s' = mProject (handle empty_project) /\ mTracks s' = [].
Proof.
  apply (refused_tag_is_fatal E0 [] unknown_tag
           [Open "project" root_attrs; Open "wavetrack" []]
           "reverb" [("mix", "1")] [Close "reverb"; Close "wavetrack";
                                    Close "project"]
           (handle empty_project)).
  - reflexivity.
  - vm_compute. reflexivity.
  - left. vm_compute. intuition discriminate.
Defined.

(** ** Claim C5 *)

Lemma root_with_two_of_three_fails :
  exists s1 s',
    HandleXMLTag E0 "project" two_of_three
                 (Import_entry [] (handle empty_project))
    = Some (false, s1)
    /\ mUpdateResult s1 = Failed
    /\ Import E0 [] (mkDocument [Open "project" two_of_three;
                                 Open "wavetrack" []; Close "wavetrack";
                                 Close "project"] true "")
                (handle empty_project)
       = Some (Failed, s')
    /\ mProject s' = mProject (handle empty_project).
Proof.
  apply (root_tag_needs_all_three E0 []
           (mkDocument [Open "project" two_of_three; Open "wavetrack" [];
                        Close "wavetrack"; Close "project"] true "")
           "project" two_of_three
           [Open "wavetrack" []; Close "wavetrack"; Close "project"]
           (handle empty_project)).
  - reflexivity.
  - left. reflexivity.
  - apply NoDup_ListNoDup. vm_compute. repeat constructor;
      rewrite ?list_elem_of_In; simpl; intuition discriminate.
  - simpl. intuition discriminate.
Defined.

(** ** Claim C6 *)

Lemma maxsamples_1024 :
  (fst (HandleSequence_attr E0 "maxsamples" "1024" track_state) = true
   <-> (1024 <= 1024 <= 67108864)%Z)
  /\ ((1024 <= 1024 <= 67108864)%Z ->
      HandleSequence_loop E0 ([] ++ [("maxsamples", "1024")])%list track_state
      = HandleSequence_loop E0 [] track_state)
  /\ (~ (1024 <= 1024 <= 67108864)%Z ->
      HandleSequence_loop E0 ([] ++ [("maxsamples", "1024")])%list track_state
      = SetError "Invalid sequence 'maxsamples' attribute." track_state)
  /\ (1024%Z = 1023%Z \/ 1024%Z = 67108865%Z ->
      mUpdateResult
        (snd (HandleSequence_loop E0 ([] ++ [("maxsamples", "1024")])%list
                track_state))
      = Failed)
  /\ (1024%Z = 1024%Z \/ 1024%Z = 67108864%Z ->
      HandleSequence_attr E0 "maxsamples" "1024" track_state
      = (true, track_state)).
Proof.
  apply (maxsamples_bounds E0 [] "1024" 1024 [] track_state track_state).
  - reflexivity.
  - vm_compute. reflexivity.
  - lia.
Defined.

Example maxsamples_1023_rejected :
  sequence_with "1023" = Some (false, Failed).
Proof. vm_compute. reflexivity. Qed.

Example maxsamples_1024_accepted :
  sequence_with "1024" = Some (true, Success).
Proof. vm_compute. reflexivity. Qed.

Example maxsamples_67108864_accepted :
  sequence_with "67108864" = Some (true, Success).
Proof. vm_compute. reflexivity. Qed.

Example maxsamples_67108865_rejected :
  sequence_with "67108865" = Some (false, Failed).
Proof. vm_compute. reflexivity. Qed.

(** ** Claim C7 *)

(** A length of zero that is written out is fatal. *)
Example silent_block_of_length_zero :
  (fun r => (fst r, mUpdateResult (snd r), mFiles (snd r)))
    <$> HandleXMLTag E0 "silentblockfile" [("len", "0")] track_state
  = Some (false, Failed, []).
Proof. vm_compute. reflexivity. Qed.

(** Claim C7, at the input where the code departs from it.  A block-file
    tag without a length attribute is accepted and queues a descriptor of
    length zero: the rules test the attribute when they meet it and never
    test that they met it, though their message reads "Missing or
    invalid". *)
Theorem block_without_len_queues_length_zero :
  (fun r => (fst r, mUpdateResult (snd r), len <$> mFiles (snd r)))
    <$> HandleXMLTag E0 "silentblockfile" [] track_state
  = Some (true, Success, [0%Z])
  /\ (fun r => (fst r, mUpdateResult (snd r), len <$> mFiles (snd r)))
       <$> HandleXMLTag E0 "simpleblockfile" [("filename", "b1.au")]
             track_state
     = Some (true, Success, [0%Z])
  /\ (fun r => (fst r, mUpdateResult (snd r), len <$> mFiles (snd r)))
       <$> HandleXMLTag E0 "pcmaliasblockfile"
             [("aliasfile", "/p/song_data/b1.au"); ("aliasstart", "0")]
             track_state
     = Some (true, Success, [0%Z]).
Proof. repeat split; vm_compute; reflexivity. Qed.

(** ** Claim C8 *)

(** Claim C8, at the input where the code departs from it.  Two
    single-channel files hold the same four 16-bit frames and six are
    asked for.  The file of an integer subtype goes through the 16-bit
    passthrough: six samples are appended, the last two being what the
    buffer held before the read, and nothing is logged.  The other file
    goes through the 16-bit read with channel select: the short read is
    noticed, two warnings are logged and six samples of silence are
    inserted. *)
Theorem short_read_tells_the_paths_apart :
  resolved (resolve_one E0 short_integer_block track_state) 0
  = Some (true,
          Some [SampleRun int16Sample [11; 22; 33; 44; 0x5A5A; 0x5A5A]%Z],
          [])
  /\ resolved (resolve_one E0 short_other_block track_state) 0
     = Some (true, Some [SilenceRun 6],
             [LogWarning "Unable to read 6 samples from /p/song_data/b2.au";
              LogWarning (error_while_processing "/p/song_data/b2.au")]).
Proof. split; vm_compute; reflexivity. Qed.

(** With all frames there the two files give the same samples. *)
Example full_read_same_samples :
  resolved (resolve_one E0 (mkFileinfo (Some 0%nat) None
                              "/p/song_data/b1.au" 4 0 0) track_state) 0
  = resolved (resolve_one E0 (mkFileinfo (Some 0%nat) None
                                "/p/song_data/b2.au" 4 0 0) track_state) 0.
Proof. vm_compute. reflexivity. Qed.

(** ** Claim C9 *)

Lemma view_state_of_the_run :
  (isDirty (mProject (handle empty_project)) = true ->
     view_calls (mProject state_after_import)
     = view_calls (mProject (handle empty_project)))
  /\ (isDirty (mProject (handle empty_project)) = false ->
        view_calls (mProject state_after_import)
        = (view_calls (mProject (handle empty_project))
           ++ (if is_Success Success
               then flagged (fields_in_order E0
                               (mProjectAttrs state_after_import))
               else []))%list).
Proof.
  apply (view_state_follows_project_attributes E0 [] one_track
           (handle empty_project) Success state_after_import).
  vm_compute. reflexivity.
Defined.

(** ** Claim C10 *)

Lemma short_integer_block_is_appended :
  exists p s' buf,
    owner short_integer_block = Some p
    /\ resolve_one E0 short_integer_block track_state = Some (true, s')
    /\ buf = read_into E0 (Z.to_nat (len short_integer_block))
               (sf_readf_short E0 (path short_integer_block)
                  (Z.max 0 (origin short_integer_block))
                  (len short_integer_block))
    /\ runs_of s' p
       = (fun l => l ++ [SampleRun int16Sample buf])%list
           <$> runs_of track_state p
    /\ length buf = Z.to_nat (len short_integer_block)
    /\ mLog s' = mLog track_state /\ mErrorMsg s' = mErrorMsg track_state
    /\ mUpdateResult s' = mUpdateResult track_state.
Proof.
  apply (mono_int16_path_ignores_frame_count E0 short_integer_block
           track_state (mkInfo 1 true false)).
  - reflexivity.
  - discriminate.
  - reflexivity.
  - reflexivity.
  - reflexivity.
  - reflexivity.
  - reflexivity.
  - reflexivity.
Defined.

(** ** Further properties, at the runs of the fixture *)

Lemma host_is_untouched_inside_the_track :
  mProject track_state = mProject entry.
Proof.
  apply (parsing_leaves_the_host_alone E0 in_wavetrack entry true track_state).
  vm_compute. reflexivity.
Defined.

Lemma cancelled_import_leaves_the_host :
  mProject cancelled_import = mProject (handle empty_project).
Proof.
  apply (import_without_success_leaves_the_host_alone
           (env (always Cancelled)) [] one_track (handle empty_project)
           Cancelled cancelled_import).
  - vm_compute. reflexivity.
  - discriminate.
Defined.

Lemma one_track_is_handed_over :
  exists s1,
    Parse E0 one_track (Import_entry [] (handle empty_project))
    = Some (true, s1)
    /\ tracks (mProject state_after_import)
       = (tracks (mProject (handle empty_project))
          ++ map Imported (mTracks s1))%list
    /\ mTracks state_after_import = [].
Proof.
  apply (import_success_hands_over_all_tracks E0 [] one_track
           (handle empty_project) state_after_import).
  vm_compute. reflexivity.
Defined.

Lemma unknown_tag_leaves_Failed_and_a_message :
  mUpdateResult failed_state = Failed /\ mErrorMsg failed_state <> "".
Proof.
  apply (parser_verdict_matches_the_result E0 (doc_events unknown_tag) entry
           false failed_state).
  - reflexivity.
  - vm_compute. reflexivity.
Defined.

Lemma failed_parser_takes_no_more_tags :
  exists b, feed E0 in_wavetrack failed_state = Some (b, failed_state).
Proof.
  apply (no_parsing_after_a_failure E0 in_wavetrack failed_state).
  vm_compute. discriminate.
Defined.

Lemma stack_inside_the_track :
  (length (mHandlers track_state) + closes in_wavetrack
   = length (mHandlers entry) + opens in_wavetrack)%nat
  /\ cursor_on_top track_state.
Proof.
  apply (stack_follows_the_nesting E0 in_wavetrack entry track_state).
  - reflexivity.
  - vm_compute. exact I.
  - vm_compute. reflexivity.
Defined.

Lemma simple_block_is_queued :
  exists fi,
    mFiles after_simple_block = (mFiles block_state ++ [fi])%list
    /\ track fi = mWaveTrack block_state /\ clip fi = mClip block_state
    /\ mTotalSamples after_simple_block
       = to_int64 (mTotalSamples block_state + len fi).
Proof.
  apply (block_tag_queues_one_descriptor E0 "simpleblockfile" simple_attrs
           block_state after_simple_block).
  vm_compute. reflexivity.
Defined.

Lemma total_of_one_track :
  mTotalSamples parsed_state = to_int64 (sum_len (mFiles parsed_state))
  /\ ((sum_len (mFiles parsed_state) < 2 ^ 63)%Z ->
      mTotalSamples parsed_state = sum_len (mFiles parsed_state))
  /\ Forall (fun fi => (0 <= len fi)%Z /\ (0 <= origin fi)%Z)
            (mFiles parsed_state)
  /\ exists added, mFiles parsed_state = (mFiles entry ++ added)%list.
Proof.
  apply (total_is_the_sum_of_the_queue E0 (doc_events one_track) entry true
           parsed_state).
  - vm_compute. reflexivity.
  - reflexivity.
  - constructor.
Defined.

Lemma missing_block_does_not_fail_the_import :
  true = true
  /\ mUpdateResult missing_resolved = mUpdateResult track_state
  /\ mProject missing_resolved = mProject track_state
  /\ mTracks missing_resolved = mTracks track_state
  /\ mFiles missing_resolved = mFiles track_state
  /\ mTotalSamples missing_resolved = mTotalSamples track_state.
Proof.
  apply (no_block_fails_the_import E0 missing_block track_state true
           missing_resolved).
  vm_compute. reflexivity.
Defined.

Lemma missing_block_gives_one_run :
  exists p r,
    owner missing_block = Some p /\ run_length r = len missing_block
    /\ runs_of missing_resolved p
       = (fun l => l ++ [r])%list <$> runs_of track_state p
    /\ forall q, q <> p -> objs missing_resolved !! q = objs track_state !! q.
Proof.
  apply (every_descriptor_gives_one_run E0 missing_block track_state true
           missing_resolved).
  - reflexivity.
  - vm_compute. discriminate.
  - vm_compute. reflexivity.
Defined.


Lemma one_track_imports_with_Success :
  Success = Success.
Proof.
  apply (accepted_and_uninterrupted_import_succeeds E0 [] one_track
           (handle empty_project) parsed_state Success state_after_import).
  - intros j q t. reflexivity.
  - vm_compute. reflexivity.
  - vm_compute. reflexivity.
Defined.

Lemma root_attrs_leave_zoom_alone :
  field_view (mProjectAttrs (snd (HandleProject_loop E0 root_attrs 0%Z entry)))
             "zoom"
  = field_view (mProjectAttrs entry) "zoom".
Proof.
  apply (absent_root_attribute_keeps_its_field E0 root_attrs 0%Z entry "zoom").
  simpl. intros H. decompose [or] H; discriminate || contradiction.
Defined.

Lemma negative_rate_is_fatal :
  exists s',
    HandleXMLTag E0 "project" bad_rate entry = Some (false, s')
    /\ mUpdateResult s' = Failed
    /\ mErrorMsg s' <> ""
    /\ mHandlers s' = mHandlers entry
    /\ mFiles s' = mFiles entry.
Proof.
  apply (bad_root_number_is_fatal E0 "project" bad_rate "rate" "-1" entry).
  - reflexivity.
  - left. reflexivity.
  - left. reflexivity.
  - right. split; [simpl; tauto|vm_compute; reflexivity].
Defined.

Lemma negative_rate_is_reported_as_selLow :
  exists s',
    HandleXMLTag E0 "project" (("rate", "-1") :: root_attrs) entry
    = Some (false, s')
    /\ mErrorMsg s' = "Invalid project 'selLow' attribute."
    /\ mLog s' = (mLog entry
                  ++ [LogError "Invalid project 'selLow' attribute.";
                      LogError not_recognized])%list.
Proof.
  apply (refused_rate_is_reported_as_selLow E0 "project" "rate" "-1"
           root_attrs entry).
  - reflexivity.
  - reflexivity.
  - left. reflexivity.
  - reflexivity.
  - right. split; [simpl; tauto|vm_compute; reflexivity].
Defined.

Lemma b1_is_found_in_the_index :
  exists fi,
    mFiles after_simple_block = (mFiles block_state ++ [fi])%list
    /\ origin fi = 0%Z /\ channel fi = 0%Z
    /\ (path fi = ""
        \/ exists attr value,
             In (attr, value) simple_attrs
             /\ wxStricmp_eq attr "filename" = true
             /\ IsGoodFileString E0 value = true
             /\ mFileMap block_state !! value = Some (path fi)).
Proof.
  apply (simple_block_path_comes_from_the_index E0 simple_attrs block_state
           after_simple_block).
  vm_compute. reflexivity.
Defined.

Lemma index_of_song_data :
  mFileMap (snd (HandleProject_projname E0 "song_data" entry)) !! "b1.au"
  = match last_named E0 "b1.au"
            (GetAllFiles E0
               (mProjDir (snd (HandleProject_projname E0 "song_data" entry))))
    with
    | Some fn => Some fn
    | None => mFileMap entry !! "b1.au"
    end.
Proof.
  apply (index_holds_the_last_file_of_each_name E0 "song_data" entry
           (snd (HandleProject_projname E0 "song_data" entry)) "b1.au").
  vm_compute. reflexivity.
Defined.

Lemma earlier_message_survives_the_import :
  mErrorMsg noted_import = mErrorMsg noted.
Proof.
  apply (first_message_is_never_replaced E0 [] one_track noted Success
           noted_import).
  - vm_compute. discriminate.
  - vm_compute. reflexivity.
Defined.

Lemma two_blocks_only_warn :
  only_warnings track_state two_resolved
  /\ message_kept track_state two_resolved.
Proof.
  apply (resolving_blocks_only_warns E0 two_blocks 0 0%Z track_state None
           two_resolved).
  vm_compute. reflexivity.
Defined.

Lemma clip_in_the_track_is_owned_by_it :
  exists s',
    HandleXMLTag E0 "waveclip" clip_attrs track_state = Some (true, s')
    /\ mClip s' = Some (length (objs track_state))
    /\ objs s'
       = (objs track_state
          ++ [mkObject WaveClipK (Some 0%nat) [("waveclip", clip_attrs)]
                [] [] [] 0])%list
    /\ mHandlers s'
       = mkNode (mCurrentTag track_state) "waveclip"
           (Some (ObjH (length (objs track_state))))
         :: mHandlers track_state.
Proof.
  apply (waveclip_is_owned_by_the_enclosing_object E0 clip_attrs track_state
           (top_frame track_state) (tail (mHandlers track_state)) 0%nat).
  - reflexivity.
  - vm_compute. reflexivity.
  - vm_compute. reflexivity.
  - left. split; vm_compute; reflexivity.
  - reflexivity.
Defined.

Lemma waveclip_under_the_root_cannot_be_closed :
  exists s',
    HandleXMLTag E0 "waveclip" clip_attrs root_state = Some (true, s')
    /\ mClip s' = None
    /\ objs s' = objs root_state
    /\ mUpdateResult s' = Success
    /\ HandleXMLEndTag "waveclip" s' = None.
Proof.
  apply (misplaced_waveclip_cannot_be_closed E0 clip_attrs root_state).
  - reflexivity.
  - vm_compute. discriminate.
  - vm_compute. discriminate.
  - vm_compute. discriminate.
Defined.

Lemma version_1_0_file_is_refused :
  AUPImportFileHandle_Open E0 legacy_file entry
  = (false, log (MessageBox legacy_project) entry).
Proof.
  apply (legacy_project_is_refused E0 legacy_file entry).
  - reflexivity.
  - vm_compute. reflexivity.
Defined.

Lemma project_file_is_accepted :
  entry = entry
  /\ IsOpened xml_file = true
  /\ occurs_at "<?xml" 0 (ff_bytes xml_file)
  /\ exists i,
       (occurs_at "<audacityproject" i (ff_bytes xml_file)
        /\ (i + 16 <= 255)%nat)
       \/ (occurs_at "<project" i (ff_bytes xml_file) /\ (i + 8 <= 255)%nat).
Proof.
  apply (accepted_file_has_its_root_tag_early E0 xml_file entry entry).
  - vm_compute. lia.
  - vm_compute. reflexivity.
Defined.

Lemma bytes_after_255_do_not_matter :
  AUPImportFileHandle_Open E0 xml_file entry
  = AUPImportFileHandle_Open E0 xml_file_again entry.
Proof.
  apply (open_looks_at_255_bytes E0 xml_file xml_file_again entry).
  - vm_compute. lia.
  - vm_compute. lia.
  - reflexivity.
  - vm_compute. reflexivity.
Defined.

(** ** The definitions at their edges *)

(** Two silent blocks of 2^63 - 1 samples: the total wraps to -2. *)
Example total_wraps_at_64_bits :
  (fun r => mTotalSamples (snd r))
    <$> feed E0 [Open "silentblockfile" [("len", "9223372036854775807")];
                 Close "silentblockfile";
                 Open "silentblockfile" [("len", "9223372036854775807")]]
             track_state
  = Some (-2)%Z.
Proof. vm_compute. reflexivity. Qed.

(** The message about a data folder that is not there shows the first
    character of the [projname] value. *)
Example missing_data_folder_shows_one_character :
  mLog (snd (HandleProject_projname E0 "nowhere"
               (constructed (mkFileName ["q"] "song" "aup") empty_project
                            no_attrs)))
  = [MessageBox ("Couldn't find the project data folder: " ++ dq ++ "n" ++ dq)].
Proof. vm_compute. reflexivity. Qed.

(** Legacy tags: the empty value and [id3v2] are passed over, the others
    are stored under their keys. *)
Example legacy_tags_of_a_song :
  (fun r => (fst (fst r), mTags (snd r)))
    <$> HandleTags E0
          (set_mAttrs [("title", "Song"); ("artist", ""); ("id3v2", "1");
                       ("track", "3")] entry)
  = Some (true, [("TITLE", "Song"); ("TRACKNUMBER", "3")]).
Proof. vm_compute. reflexivity. Qed.

End Runs.
